(** * The book-shelf scene: animation / interaction state machine

    A shallow embedding of the [Texture] class of [src/script.js] (the
    variant with the scroll-reversal recovery) and of the parts of
    [src/main.js] it shares with it.

    Conventions of the embedding.
    - JavaScript numbers are rationals ([Q]); arithmetic is exact.
    - The scene objects are mutated in place by the source; here every
      method is a function [Texture -> Texture] and a book is addressed by
      its slot in [bookInstances] (each book object lives in one slot).
    - three.js and gsap are collaborators: the mixer and the timeline are
      records on which the calls made by the source are replayed; their
      completion callbacks and the browser's events are the [event]s of
      the machine.
    - The fields [position] and [rotation] of a book hold what the class
      itself writes: the loading and the orbit placement. A timeline
      keeps its tweens as data; what gsap renders from them while the
      timeline plays or is sought is not replayed on the books.
    - [Math.PI], [Math.cos] and [Math.sin] are parameters, the class
      [Math].
    - The module [MainJs] holds what [src/main.js] does differently; the
      loading of the models and the mapping of the pointer are the same
      in both files. *)

From Stdlib Require Import QArith ZArith Bool Lia Lqa.
From stdpp Require Import base list.

Set Implicit Arguments.

(** ** Numbers *)

Definition Qltb (a b : Q) : bool := negb (Qle_bool b a).

(** ** three.js: vectors, animation actions, the mixer *)

Module THREE.

Record Vector3 := mkVector3 { x : Q; y : Q; z : Q }.

(** An [AnimationAction] set to [LoopOnce] with [clampWhenFinished]. *)
Record AnimationAction := mkAction {
  time : Q;
  timeScale : Q;
  paused : bool;
  isScheduled : bool
}.

Definition newAction : AnimationAction :=
  {| time := 0; timeScale := 1; paused := false; isScheduled := false |}.

Definition set_time (v : Q) (a : AnimationAction) :=
  {| time := v; timeScale := timeScale a; paused := paused a;
     isScheduled := isScheduled a |}.
Definition set_timeScale (v : Q) (a : AnimationAction) :=
  {| time := time a; timeScale := v; paused := paused a;
     isScheduled := isScheduled a |}.
Definition set_paused (v : bool) (a : AnimationAction) :=
  {| time := time a; timeScale := timeScale a; paused := v;
     isScheduled := isScheduled a |}.
Definition play (a : AnimationAction) :=
  {| time := time a; timeScale := timeScale a; paused := paused a;
     isScheduled := true |}.

(** [mixer.update(deltaTime)] on one action of a clip of length
    [duration]: a paused or unscheduled action keeps its time; otherwise
    the time moves by [deltaTime * timeScale] and, on leaving
    [0, duration), is clamped to the end it left by and the action is
    paused.
    The mixer's early return for a [deltaTime] of zero is left out; it
    bears on the [paused] bit of a clip sitting at an end only. *)
Definition updateAction (deltaTime duration : Q) (a : AnimationAction)
  : AnimationAction :=
  if paused a || negb (isScheduled a) then a
  else
    let t := (time a + deltaTime * timeScale a)%Q in
    if Qle_bool duration t then set_paused true (set_time duration a)
    else if Qltb t 0 then set_paused true (set_time 0 a)
    else set_time t a.

End THREE.

(** ** gsap: the timeline handle *)

Module gsap.

Inductive target := scenePosition (book : nat) | sceneRotation (book : nat).

(** [.to(target, {duration, x, y, z}, position)]; an absent coordinate
    is [None]. *)
Record tween := mkTween {
  tw_target : target;
  tw_duration : Q;
  tw_x : option Q;
  tw_y : option Q;
  tw_z : option Q
}.

Record timeline (cb : Type) := mkTimeline {
  onReverseCompleteCallback : cb;
  tweens : list tween;
  tl_timeScale : Q;
  tl_progress : Q;
  tl_reversed : bool;
  tl_paused : bool
}.

Section Calls.
Context {cb : Type}.
Implicit Type tl : timeline cb.

Definition new (c : cb) : timeline cb :=
  {| onReverseCompleteCallback := c; tweens := [];
     tl_timeScale := 1; tl_progress := 0;
     tl_reversed := false; tl_paused := false |}.

Definition to (tw : tween) tl :=
  {| onReverseCompleteCallback := onReverseCompleteCallback tl;
     tweens := tweens tl ++ [tw];
     tl_timeScale := tl_timeScale tl; tl_progress := tl_progress tl;
     tl_reversed := tl_reversed tl; tl_paused := tl_paused tl |}.

Definition timeScale (v : Q) tl :=
  {| onReverseCompleteCallback := onReverseCompleteCallback tl;
     tweens := tweens tl;
     tl_timeScale := v; tl_progress := tl_progress tl;
     tl_reversed := tl_reversed tl; tl_paused := tl_paused tl |}.

Definition progress (v : Q) tl :=
  {| onReverseCompleteCallback := onReverseCompleteCallback tl;
     tweens := tweens tl;
     tl_timeScale := tl_timeScale tl; tl_progress := v;
     tl_reversed := tl_reversed tl; tl_paused := tl_paused tl |}.

Definition pause tl :=
  {| onReverseCompleteCallback := onReverseCompleteCallback tl;
     tweens := tweens tl;
     tl_timeScale := tl_timeScale tl; tl_progress := tl_progress tl;
     tl_reversed := tl_reversed tl; tl_paused := true |}.

(** [pause(0)]: seek to the start, then pause. *)
Definition pauseAt0 tl := pause (progress 0 tl).

Definition play tl :=
  {| onReverseCompleteCallback := onReverseCompleteCallback tl;
     tweens := tweens tl;
     tl_timeScale := tl_timeScale tl; tl_progress := tl_progress tl;
     tl_reversed := false; tl_paused := false |}.

Definition reverse tl :=
  {| onReverseCompleteCallback := onReverseCompleteCallback tl;
     tweens := tweens tl;
     tl_timeScale := tl_timeScale tl; tl_progress := tl_progress tl;
     tl_reversed := true; tl_paused := false |}.
End Calls.

End gsap.

(** ** The data of the scene *)

(** A settlement callback handed to the toggle: [null], or the
    [checkAllClosed] closure of the aggregate close numbered [p]. *)
Inductive callback := null_cb | checkAllClosed (p : nat).

(** The value of the field [this.checkAnimationProgress]: the method of
    the class, or the function installed over it by a closing toggle,
    which remembers the book it was made for, that toggle's callback and
    the function it replaced. *)
Inductive checkFn :=
| originalCheck
| patchedCheck (bookIndex : nat) (cb : callback)
               (originalCheckAnimationProgress : checkFn).

Record animObj := mkAnimObj {
  action : THREE.AnimationAction;
  originalDuration : Q
}.

Record bookInstance := mkBook {
  position : THREE.Vector3;
  rotation : THREE.Vector3;
  index : nat;
  animationActions : list animObj;
  isOpen : bool;
  isClickPlaying : bool;
  isHoverPlaying : bool;
  openTimeline : option (gsap.timeline callback)
}.

(** What [.then] registered on the aggregate close in [onUpdate]. *)
Inductive reaction := recoveryThen (targetProgress : Q).

(** The promise made by [closeAllOpenBooksWithPromise] with the variables
    its executor closes over. [resolveCalls] counts the calls of
    [resolve]; [resolved] is the promise's own state. *)
Record closePromise := mkPromise {
  openCount : nat;
  closedCount : nat;
  resolveCalls : nat;
  resolved : bool;
  reactions : list reaction
}.

(** The [positionTransition] timeline of the recovery and the scroll
    tween that follows it. *)
Record positionTransition := mkTransition {
  pt_targetProgress : Q;
  pt_tweens : list gsap.tween
}.

Record scrollTween := mkScrollTween {
  startScrollY : Q;
  endScrollY : Q
}.

Record Texture := mkTexture {
  bookInstances : list (option bookInstance);
  isClosingFromScroll : bool;
  bookClosePromise : option nat;
  lastCalculatedPositions : list (Q * Q);
  currentHoveredIndex : Z;
  canInteract : bool;
  cameraX : Q;
  checkAnimationProgressFn : checkFn;
  (* the variable [lastProgress] of [animateBookEntry] *)
  lastProgress : Q;
  (* the scroll trigger: enabled, and its bounds [start] and [end] *)
  scrollEnabled : bool;
  triggerStart : Q;
  triggerEnd : Q;
  (* the promises made so far, the pending microtasks, the animations
     gsap is running for the recovery, and [window.scrollY] *)
  promises : list closePromise;
  microtasks : list reaction;
  positionTransitions : list positionTransition;
  scrollTweens : list scrollTween;
  scrollY : Q
}.

(** ** Field updates *)

Definition set_position (v : THREE.Vector3) (b : bookInstance) : bookInstance :=
  {| position := v; rotation := rotation b; index := index b;
     animationActions := animationActions b; isOpen := isOpen b;
     isClickPlaying := isClickPlaying b; isHoverPlaying := isHoverPlaying b;
     openTimeline := openTimeline b |}.
Definition set_rotation (v : THREE.Vector3) (b : bookInstance) : bookInstance :=
  {| position := position b; rotation := v; index := index b;
     animationActions := animationActions b; isOpen := isOpen b;
     isClickPlaying := isClickPlaying b; isHoverPlaying := isHoverPlaying b;
     openTimeline := openTimeline b |}.
Definition set_animationActions (v : list animObj) (b : bookInstance) : bookInstance :=
  {| position := position b; rotation := rotation b; index := index b;
     animationActions := v; isOpen := isOpen b; isClickPlaying :=
     isClickPlaying b; isHoverPlaying := isHoverPlaying b; openTimeline :=
     openTimeline b |}.
Definition set_isOpen (v : bool) (b : bookInstance) : bookInstance :=
  {| position := position b; rotation := rotation b; index := index b;
     animationActions := animationActions b; isOpen := v; isClickPlaying :=
     isClickPlaying b; isHoverPlaying := isHoverPlaying b; openTimeline :=
     openTimeline b |}.
Definition set_isClickPlaying (v : bool) (b : bookInstance) : bookInstance :=
  {| position := position b; rotation := rotation b; index := index b;
     animationActions := animationActions b; isOpen := isOpen b;
     isClickPlaying := v; isHoverPlaying := isHoverPlaying b; openTimeline :=
     openTimeline b |}.
Definition set_isHoverPlaying (v : bool) (b : bookInstance) : bookInstance :=
  {| position := position b; rotation := rotation b; index := index b;
     animationActions := animationActions b; isOpen := isOpen b;
     isClickPlaying := isClickPlaying b; isHoverPlaying := v; openTimeline :=
     openTimeline b |}.
Definition set_openTimeline (v : option (gsap.timeline callback)) (b : bookInstance) : bookInstance :=
  {| position := position b; rotation := rotation b; index := index b;
     animationActions := animationActions b; isOpen := isOpen b;
     isClickPlaying := isClickPlaying b; isHoverPlaying := isHoverPlaying b;
     openTimeline := v |}.

Definition set_closedCount (v : nat) (pr : closePromise) : closePromise :=
  {| openCount := openCount pr; closedCount := v; resolveCalls :=
     resolveCalls pr; resolved := resolved pr; reactions := reactions pr |}.
Definition set_resolveCalls (v : nat) (pr : closePromise) : closePromise :=
  {| openCount := openCount pr; closedCount := closedCount pr;
     resolveCalls := v; resolved := resolved pr; reactions := reactions pr |}.
Definition set_resolved (v : bool) (pr : closePromise) : closePromise :=
  {| openCount := openCount pr; closedCount := closedCount pr;
     resolveCalls := resolveCalls pr; resolved := v; reactions := reactions
     pr |}.
Definition set_reactions (v : list reaction) (pr : closePromise) : closePromise :=
  {| openCount := openCount pr; closedCount := closedCount pr;
     resolveCalls := resolveCalls pr; resolved := resolved pr; reactions := v
     |}.

Definition set_bookInstances (v : list (option bookInstance)) (t : Texture) : Texture :=
  {| bookInstances := v; isClosingFromScroll := isClosingFromScroll t;
     bookClosePromise := bookClosePromise t; lastCalculatedPositions :=
     lastCalculatedPositions t; currentHoveredIndex := currentHoveredIndex t;
     canInteract := canInteract t; cameraX := cameraX t;
     checkAnimationProgressFn := checkAnimationProgressFn t; lastProgress :=
     lastProgress t; scrollEnabled := scrollEnabled t; triggerStart :=
     triggerStart t; triggerEnd := triggerEnd t; promises := promises t;
     microtasks := microtasks t; positionTransitions := positionTransitions
     t; scrollTweens := scrollTweens t; scrollY := scrollY t |}.
Definition set_isClosingFromScroll (v : bool) (t : Texture) : Texture :=
  {| bookInstances := bookInstances t; isClosingFromScroll := v;
     bookClosePromise := bookClosePromise t; lastCalculatedPositions :=
     lastCalculatedPositions t; currentHoveredIndex := currentHoveredIndex t;
     canInteract := canInteract t; cameraX := cameraX t;
     checkAnimationProgressFn := checkAnimationProgressFn t; lastProgress :=
     lastProgress t; scrollEnabled := scrollEnabled t; triggerStart :=
     triggerStart t; triggerEnd := triggerEnd t; promises := promises t;
     microtasks := microtasks t; positionTransitions := positionTransitions
     t; scrollTweens := scrollTweens t; scrollY := scrollY t |}.
Definition set_bookClosePromise (v : option nat) (t : Texture) : Texture :=
  {| bookInstances := bookInstances t; isClosingFromScroll :=
     isClosingFromScroll t; bookClosePromise := v; lastCalculatedPositions :=
     lastCalculatedPositions t; currentHoveredIndex := currentHoveredIndex t;
     canInteract := canInteract t; cameraX := cameraX t;
     checkAnimationProgressFn := checkAnimationProgressFn t; lastProgress :=
     lastProgress t; scrollEnabled := scrollEnabled t; triggerStart :=
     triggerStart t; triggerEnd := triggerEnd t; promises := promises t;
     microtasks := microtasks t; positionTransitions := positionTransitions
     t; scrollTweens := scrollTweens t; scrollY := scrollY t |}.
Definition set_lastCalculatedPositions (v : list (Q * Q)) (t : Texture) : Texture :=
  {| bookInstances := bookInstances t; isClosingFromScroll :=
     isClosingFromScroll t; bookClosePromise := bookClosePromise t;
     lastCalculatedPositions := v; currentHoveredIndex := currentHoveredIndex
     t; canInteract := canInteract t; cameraX := cameraX t;
     checkAnimationProgressFn := checkAnimationProgressFn t; lastProgress :=
     lastProgress t; scrollEnabled := scrollEnabled t; triggerStart :=
     triggerStart t; triggerEnd := triggerEnd t; promises := promises t;
     microtasks := microtasks t; positionTransitions := positionTransitions
     t; scrollTweens := scrollTweens t; scrollY := scrollY t |}.
Definition set_currentHoveredIndex (v : Z) (t : Texture) : Texture :=
  {| bookInstances := bookInstances t; isClosingFromScroll :=
     isClosingFromScroll t; bookClosePromise := bookClosePromise t;
     lastCalculatedPositions := lastCalculatedPositions t;
     currentHoveredIndex := v; canInteract := canInteract t; cameraX :=
     cameraX t; checkAnimationProgressFn := checkAnimationProgressFn t;
     lastProgress := lastProgress t; scrollEnabled := scrollEnabled t;
     triggerStart := triggerStart t; triggerEnd := triggerEnd t; promises :=
     promises t; microtasks := microtasks t; positionTransitions :=
     positionTransitions t; scrollTweens := scrollTweens t; scrollY :=
     scrollY t |}.
Definition set_canInteract (v : bool) (t : Texture) : Texture :=
  {| bookInstances := bookInstances t; isClosingFromScroll :=
     isClosingFromScroll t; bookClosePromise := bookClosePromise t;
     lastCalculatedPositions := lastCalculatedPositions t;
     currentHoveredIndex := currentHoveredIndex t; canInteract := v; cameraX
     := cameraX t; checkAnimationProgressFn := checkAnimationProgressFn t;
     lastProgress := lastProgress t; scrollEnabled := scrollEnabled t;
     triggerStart := triggerStart t; triggerEnd := triggerEnd t; promises :=
     promises t; microtasks := microtasks t; positionTransitions :=
     positionTransitions t; scrollTweens := scrollTweens t; scrollY :=
     scrollY t |}.
Definition set_cameraX (v : Q) (t : Texture) : Texture :=
  {| bookInstances := bookInstances t; isClosingFromScroll :=
     isClosingFromScroll t; bookClosePromise := bookClosePromise t;
     lastCalculatedPositions := lastCalculatedPositions t;
     currentHoveredIndex := currentHoveredIndex t; canInteract := canInteract
     t; cameraX := v; checkAnimationProgressFn := checkAnimationProgressFn t;
     lastProgress := lastProgress t; scrollEnabled := scrollEnabled t;
     triggerStart := triggerStart t; triggerEnd := triggerEnd t; promises :=
     promises t; microtasks := microtasks t; positionTransitions :=
     positionTransitions t; scrollTweens := scrollTweens t; scrollY :=
     scrollY t |}.
Definition set_checkAnimationProgressFn (v : checkFn) (t : Texture) : Texture :=
  {| bookInstances := bookInstances t; isClosingFromScroll :=
     isClosingFromScroll t; bookClosePromise := bookClosePromise t;
     lastCalculatedPositions := lastCalculatedPositions t;
     currentHoveredIndex := currentHoveredIndex t; canInteract := canInteract
     t; cameraX := cameraX t; checkAnimationProgressFn := v; lastProgress :=
     lastProgress t; scrollEnabled := scrollEnabled t; triggerStart :=
     triggerStart t; triggerEnd := triggerEnd t; promises := promises t;
     microtasks := microtasks t; positionTransitions := positionTransitions
     t; scrollTweens := scrollTweens t; scrollY := scrollY t |}.
Definition set_lastProgress (v : Q) (t : Texture) : Texture :=
  {| bookInstances := bookInstances t; isClosingFromScroll :=
     isClosingFromScroll t; bookClosePromise := bookClosePromise t;
     lastCalculatedPositions := lastCalculatedPositions t;
     currentHoveredIndex := currentHoveredIndex t; canInteract := canInteract
     t; cameraX := cameraX t; checkAnimationProgressFn :=
     checkAnimationProgressFn t; lastProgress := v; scrollEnabled :=
     scrollEnabled t; triggerStart := triggerStart t; triggerEnd :=
     triggerEnd t; promises := promises t; microtasks := microtasks t;
     positionTransitions := positionTransitions t; scrollTweens :=
     scrollTweens t; scrollY := scrollY t |}.
Definition set_scrollEnabled (v : bool) (t : Texture) : Texture :=
  {| bookInstances := bookInstances t; isClosingFromScroll :=
     isClosingFromScroll t; bookClosePromise := bookClosePromise t;
     lastCalculatedPositions := lastCalculatedPositions t;
     currentHoveredIndex := currentHoveredIndex t; canInteract := canInteract
     t; cameraX := cameraX t; checkAnimationProgressFn :=
     checkAnimationProgressFn t; lastProgress := lastProgress t;
     scrollEnabled := v; triggerStart := triggerStart t; triggerEnd :=
     triggerEnd t; promises := promises t; microtasks := microtasks t;
     positionTransitions := positionTransitions t; scrollTweens :=
     scrollTweens t; scrollY := scrollY t |}.
Definition set_promises (v : list closePromise) (t : Texture) : Texture :=
  {| bookInstances := bookInstances t; isClosingFromScroll :=
     isClosingFromScroll t; bookClosePromise := bookClosePromise t;
     lastCalculatedPositions := lastCalculatedPositions t;
     currentHoveredIndex := currentHoveredIndex t; canInteract := canInteract
     t; cameraX := cameraX t; checkAnimationProgressFn :=
     checkAnimationProgressFn t; lastProgress := lastProgress t;
     scrollEnabled := scrollEnabled t; triggerStart := triggerStart t;
     triggerEnd := triggerEnd t; promises := v; microtasks := microtasks t;
     positionTransitions := positionTransitions t; scrollTweens :=
     scrollTweens t; scrollY := scrollY t |}.
Definition set_microtasks (v : list reaction) (t : Texture) : Texture :=
  {| bookInstances := bookInstances t; isClosingFromScroll :=
     isClosingFromScroll t; bookClosePromise := bookClosePromise t;
     lastCalculatedPositions := lastCalculatedPositions t;
     currentHoveredIndex := currentHoveredIndex t; canInteract := canInteract
     t; cameraX := cameraX t; checkAnimationProgressFn :=
     checkAnimationProgressFn t; lastProgress := lastProgress t;
     scrollEnabled := scrollEnabled t; triggerStart := triggerStart t;
     triggerEnd := triggerEnd t; promises := promises t; microtasks := v;
     positionTransitions := positionTransitions t; scrollTweens :=
     scrollTweens t; scrollY := scrollY t |}.
Definition set_positionTransitions (v : list positionTransition) (t : Texture) : Texture :=
  {| bookInstances := bookInstances t; isClosingFromScroll :=
     isClosingFromScroll t; bookClosePromise := bookClosePromise t;
     lastCalculatedPositions := lastCalculatedPositions t;
     currentHoveredIndex := currentHoveredIndex t; canInteract := canInteract
     t; cameraX := cameraX t; checkAnimationProgressFn :=
     checkAnimationProgressFn t; lastProgress := lastProgress t;
     scrollEnabled := scrollEnabled t; triggerStart := triggerStart t;
     triggerEnd := triggerEnd t; promises := promises t; microtasks :=
     microtasks t; positionTransitions := v; scrollTweens := scrollTweens t;
     scrollY := scrollY t |}.
Definition set_scrollTweens (v : list scrollTween) (t : Texture) : Texture :=
  {| bookInstances := bookInstances t; isClosingFromScroll :=
     isClosingFromScroll t; bookClosePromise := bookClosePromise t;
     lastCalculatedPositions := lastCalculatedPositions t;
     currentHoveredIndex := currentHoveredIndex t; canInteract := canInteract
     t; cameraX := cameraX t; checkAnimationProgressFn :=
     checkAnimationProgressFn t; lastProgress := lastProgress t;
     scrollEnabled := scrollEnabled t; triggerStart := triggerStart t;
     triggerEnd := triggerEnd t; promises := promises t; microtasks :=
     microtasks t; positionTransitions := positionTransitions t; scrollTweens
     := v; scrollY := scrollY t |}.
Definition set_scrollY (v : Q) (t : Texture) : Texture :=
  {| bookInstances := bookInstances t; isClosingFromScroll :=
     isClosingFromScroll t; bookClosePromise := bookClosePromise t;
     lastCalculatedPositions := lastCalculatedPositions t;
     currentHoveredIndex := currentHoveredIndex t; canInteract := canInteract
     t; cameraX := cameraX t; checkAnimationProgressFn :=
     checkAnimationProgressFn t; lastProgress := lastProgress t;
     scrollEnabled := scrollEnabled t; triggerStart := triggerStart t;
     triggerEnd := triggerEnd t; promises := promises t; microtasks :=
     microtasks t; positionTransitions := positionTransitions t; scrollTweens
     := scrollTweens t; scrollY := v |}.

(** ** The class [Texture]: books, promises, the per-frame check *)

Local Open Scope Q_scope.

Definition clickPlayPercentage : Q := 0.9.
Definition hoverPlayPercentage : Q := 0.2.

(** [this.bookInstances[i]], when the slot holds a book. *)
Definition lookupBook (t : Texture) (i : nat) : option bookInstance :=
  match bookInstances t !! i with
  | Some (Some b) => Some b
  | _ => None
  end.

Definition storeBook (i : nat) (b : bookInstance) (t : Texture) : Texture :=
  set_bookInstances (<[i := Some b]> (bookInstances t)) t.

Definition storePromise (p : nat) (pr : closePromise) (t : Texture)
  : Texture :=
  set_promises (<[p := pr]> (promises t)) t.

(** [resolve()] of promise [p]: the first call settles the promise and
    queues its reactions as microtasks; later calls change nothing but
    the count kept here. *)
Definition resolve (p : nat) (t : Texture) : Texture :=
  match promises t !! p with
  | Some pr =>
      let pr1 := set_resolveCalls (S (resolveCalls pr)) pr in
      if resolved pr then storePromise p pr1 t
      else set_microtasks (microtasks t ++ reactions pr)
             (storePromise p (set_reactions [] (set_resolved true pr1)) t)
  | None => t
  end.

(** [promise.then(r)]. *)
Definition then_ (p : nat) (r : reaction) (t : Texture) : Texture :=
  match promises t !! p with
  | Some pr =>
      if resolved pr then set_microtasks (microtasks t ++ [r]) t
      else storePromise p (set_reactions (reactions pr ++ [r]) pr) t
  | None => t
  end.

(** [if (callback) callback()], with the body of [checkAllClosed]. *)
Definition invoke (cb : callback) (t : Texture) : Texture :=
  match cb with
  | null_cb => t
  | checkAllClosed p =>
      match promises t !! p with
      | Some pr =>
          let closedCount' := S (closedCount pr) in
          let t1 := storePromise p (set_closedCount closedCount' pr) t in
          if (openCount pr <=? closedCount')%nat
          then resolve p (set_bookClosePromise None t1)
          else t1
      | None => t
      end
  end.

(** One turn of the loop of [checkAnimationProgress]: the flags of the
    book are read and written while the clips are visited. *)
Definition checkAction (book : bookInstance) (obj : animObj)
  : bookInstance * animObj :=
  let action0 := action obj in
  let currentTime := THREE.time action0 in
  let '(book1, action1) :=
    if isClickPlaying book then
      let forwardLimit := originalDuration obj * clickPlayPercentage in
      let reverseLimit := 0 in
      if Qltb 0 (THREE.timeScale action0) && Qle_bool forwardLimit currentTime
      then (set_isOpen true (set_isClickPlaying false book),
            THREE.set_time forwardLimit (THREE.set_paused true action0))
      else if Qltb (THREE.timeScale action0) 0
              && Qle_bool currentTime reverseLimit
      then (set_isOpen false (set_isClickPlaying false book),
            THREE.set_time reverseLimit (THREE.set_paused true action0))
      else (book, action0)
    else (book, action0) in
  let '(book2, action2) :=
    if isHoverPlaying book1 then
      let hoverForwardLimit := originalDuration obj * hoverPlayPercentage in
      let hoverReverseLimit := 0 in
      if Qltb 0 (THREE.timeScale action1)
         && Qle_bool hoverForwardLimit currentTime
      then (set_isHoverPlaying false book1,
            THREE.set_time hoverForwardLimit (THREE.set_paused true action1))
      else if Qltb (THREE.timeScale action1) 0
              && Qle_bool currentTime hoverReverseLimit
      then (set_isHoverPlaying false book1,
            THREE.set_time hoverReverseLimit (THREE.set_paused true action1))
      else (book1, action1)
    else (book1, action1) in
  (book2, mkAnimObj action2 (originalDuration obj)).

Fixpoint checkActions (book : bookInstance) (l : list animObj)
  : bookInstance * list animObj :=
  match l with
  | [] => (book, [])
  | obj :: l' =>
      let '(book1, animObj1) := checkAction book obj in
      let '(book2, l2) := checkActions book1 l' in
      (book2, animObj1 :: l2)
  end.

(** The method [checkAnimationProgress(book)] of the class. *)
Definition checkAnimationProgress (book : bookInstance) : bookInstance :=
  let '(book', l') := checkActions book (animationActions book) in
  set_animationActions l' book'.

(** A call [this.checkAnimationProgress(checkBook)] through the field,
    [checkBook] being the book of slot [i]. *)
Fixpoint runCheck (f : checkFn) (i : nat) (t : Texture) : Texture :=
  match f with
  | originalCheck =>
      match lookupBook t i with
      | Some checkBook => storeBook i (checkAnimationProgress checkBook) t
      | None => t
      end
  | patchedCheck bookIndex cb originalCheckAnimationProgress =>
      let t1 := runCheck originalCheckAnimationProgress i t in
      match lookupBook t1 bookIndex with
      | Some book =>
          if (i =? bookIndex)%nat && negb (isClickPlaying book)
             && negb (isOpen book)
          then invoke cb
                 (set_checkAnimationProgressFn
                    originalCheckAnimationProgress t1)
          else t1
      | None => t1
      end
  end.

(** [book.mixer.update(deltaTime)]. *)
Definition mixerUpdate (deltaTime : Q) (book : bookInstance) : bookInstance :=
  set_animationActions
    (map (fun a => mkAnimObj
                     (THREE.updateAction deltaTime (originalDuration a)
                        (action a))
                     (originalDuration a))
         (animationActions book))
    book.

Definition animateBook (deltaTime : Q) (t : Texture) (i : nat) : Texture :=
  match lookupBook t i with
  | Some book =>
      if isClickPlaying book || isHoverPlaying book then
        let t1 := storeBook i (mixerUpdate deltaTime book) t in
        runCheck (checkAnimationProgressFn t1) i t1
      else t
  | None => t
  end.

(** One frame of [animate]. *)
Definition animate (deltaTime : Q) (t : Texture) : Texture :=
  fold_left (animateBook deltaTime) (seq 0 (length (bookInstances t))) t.

(** ** The toggle *)

Definition startAction (direction : Q) (a : animObj) : animObj :=
  mkAnimObj
    (THREE.play (THREE.set_timeScale direction
                   (THREE.set_paused false (action a))))
    (originalDuration a).

Definition pauseAction (a : animObj) : animObj :=
  mkAnimObj (THREE.set_paused true (action a)) (originalDuration a).

(** The timeline built on the first toggle of a book; its
    [onReverseComplete] closes over the callback of that toggle. *)
Definition buildOpenTimeline (t : Texture) (bookIndex : nat)
    (cb : callback) : gsap.timeline callback :=
  let tl1 :=
    gsap.to (gsap.mkTween (gsap.sceneRotation bookIndex) 0.5
               None None (Some 0))
            (gsap.new cb) in
  let tl2 :=
    gsap.to (gsap.mkTween (gsap.scenePosition bookIndex) 2
               (Some 0.4) (Some 0) (Some 0.5)) tl1 in
  let tl3 :=
    fold_left
      (fun tl (io : nat * option bookInstance) =>
         let (i, other) := io in
         match other with
         | None => tl
         | Some _ =>
             if (i =? bookIndex)%nat then tl
             else
               let offscreenX := if (i <? bookIndex)%nat then 5 else -5 in
               gsap.to (gsap.mkTween (gsap.scenePosition i) 3
                          (Some offscreenX) None None) tl
         end)
      (imap (fun i other => (i, other)) (bookInstances t)) tl2 in
  gsap.pauseAt0 tl3.

Definition toggleBookAnimationWithCallback (bookIndex : nat)
    (cb : callback) (t : Texture) : Texture :=
  match lookupBook t bookIndex with
  | None => invoke cb t
  | Some book =>
      match animationActions book with
      | [] => invoke cb t
      | _ :: _ =>
          (* cancel any hover in progress *)
          let book1 :=
            if isHoverPlaying book
            then set_animationActions
                   (map pauseAction (animationActions book))
                   (set_isHoverPlaying false book)
            else book in
          (* build the timeline once *)
          let openTimeline1 :=
            match openTimeline book1 with
            | Some tl => tl
            | None => buildOpenTimeline t bookIndex cb
            end in
          if negb (isOpen book1) then
            let book2 :=
              set_animationActions
                (map (startAction 1) (animationActions book1))
                (set_isClickPlaying true book1) in
            let tl := gsap.play (gsap.progress 0
                                   (gsap.timeScale 1 openTimeline1)) in
            storeBook bookIndex (set_openTimeline (Some tl) book2) t
          else
            let book2 :=
              set_animationActions
                (map (startAction (-1)) (animationActions book1))
                (set_isClickPlaying true book1) in
            let tl := gsap.reverse (gsap.progress 1
                                      (gsap.timeScale 2 openTimeline1)) in
            set_checkAnimationProgressFn
              (patchedCheck bookIndex cb (checkAnimationProgressFn t))
              (storeBook bookIndex (set_openTimeline (Some tl) book2) t)
      end
  end.

(** The callbacks gsap runs when a book's timeline completes. *)
Definition onComplete (bookIndex : nat) (t : Texture) : Texture :=
  match lookupBook t bookIndex with
  | Some book =>
      match openTimeline book with
      | Some tl =>
          storeBook bookIndex
            (set_openTimeline (Some (gsap.progress 1 (gsap.pause tl))) book) t
      | None => t
      end
  | None => t
  end.

Definition onReverseComplete (bookIndex : nat) (t : Texture) : Texture :=
  match lookupBook t bookIndex with
  | Some book =>
      match openTimeline book with
      | Some tl =>
          invoke (gsap.onReverseCompleteCallback tl)
            (storeBook bookIndex
               (set_openTimeline (Some (gsap.progress 0 (gsap.pause tl))) book)
               t)
      | None => t
      end
  | None => t
  end.

(** ** Closing every open book *)

Definition isAnyBookOpen (t : Texture) : bool :=
  existsb (fun b => match b with Some b => isOpen b | None => false end)
          (bookInstances t).

Definition openBookIndices (t : Texture) : list nat :=
  omap (fun book => match book with
                    | Some book => if isOpen book then Some (index book)
                                   else None
                    | None => None
                    end)
       (bookInstances t).

(** Returns the promise together with the new state. The executor of
    [new Promise] runs before the promise is stored in the field. *)
Definition closeAllOpenBooksWithPromise (t : Texture) : Texture * nat :=
  match bookClosePromise t with
  | Some p => (t, p)
  | None =>
      let p := length (promises t) in
      if negb (isAnyBookOpen t) then
        (* Promise.resolve() *)
        (set_promises (promises t ++ [mkPromise 0 0 0 true []]) t, p)
      else
        let indices := openBookIndices t in
        let t0 :=
          set_promises
            (promises t ++ [mkPromise (length indices) 0 0 false []]) t in
        let t1 :=
          match indices with
          | [] => resolve p (set_bookClosePromise None t0)
          | _ :: _ =>
              fold_left
                (fun t index =>
                   toggleBookAnimationWithCallback index (checkAllClosed p) t)
                indices t0
          end in
        (set_bookClosePromise (Some p) t1, p)
  end.

Definition closeAllOpenBooks (t : Texture) : Texture :=
  fst (closeAllOpenBooksWithPromise t).

(** ** Pointer routing *)

(** [hit] is the [bookIndex] of the nearest intersected object, if the
    ray met one. *)
Definition onCanvasClick (hit : option nat) (t : Texture) : Texture :=
  if negb (canInteract t) || isClosingFromScroll t then t
  else
    match hit with
    | None => t
    | Some bookIndex =>
        let t1 := toggleBookAnimationWithCallback bookIndex null_cb t in
        match lookupBook t1 bookIndex with
        | Some book =>
            if negb (isOpen book) then
              fold_left
                (fun t i =>
                   match lookupBook t i with
                   | Some otherBook =>
                       if negb (i =? bookIndex)%nat && isOpen otherBook
                       then toggleBookAnimationWithCallback i null_cb t
                       else t
                   | None => t
                   end)
                (seq 0 (length (bookInstances t1))) t1
            else t1
        | None => t1
        end
    end.

Definition animateToFraction (i : nat) (book : bookInstance) (fraction : Q)
    (t : Texture) : Texture :=
  match animationActions book with
  | [] => t
  | _ :: _ =>
      storeBook i
        (set_animationActions
           (map (fun a =>
                   let currentTime := THREE.time (action a) in
                   let targetTime := fraction * originalDuration a in
                   let direction :=
                     if Qltb currentTime targetTime then 1 else -1 in
                   startAction direction a)
                (animationActions book))
           (set_isHoverPlaying true book))
        t
  end.

Definition setHoveredBook (bookIndex : nat) (t : Texture) : Texture :=
  let t1 := set_currentHoveredIndex (Z.of_nat bookIndex) t in
  match lookupBook t1 bookIndex with
  | None => t1
  | Some book =>
      if isOpen book || isClickPlaying book then t1
      else animateToFraction bookIndex book hoverPlayPercentage t1
  end.

Definition clearHoveredBook (t : Texture) : Texture :=
  if (currentHoveredIndex t =? -1)%Z then t
  else
    let oldIndex := Z.to_nat (currentHoveredIndex t) in
    let oldBook :=
      if (currentHoveredIndex t <? 0)%Z then None
      else lookupBook t oldIndex in
    let t1 := set_currentHoveredIndex (-1)%Z t in
    match oldBook with
    | None => t1
    | Some oldBook =>
        if isOpen oldBook || isClickPlaying oldBook then t1
        else animateToFraction oldIndex oldBook 0 t1
    end.

Definition onCanvasMouseMove (hit : option nat) (t : Texture) : Texture :=
  if negb (canInteract t) then t
  else
    match hit with
    | Some bookIndex =>
        if (Z.of_nat bookIndex =? currentHoveredIndex t)%Z then t
        else setHoveredBook bookIndex (clearHoveredBook t)
    | None => clearHoveredBook t
    end.

(** ** Orbit placement and the scroll driver *)

Record ellipseConfig := mkEllipse {
  centerX : Q; centerY : Q; radiusX : Q; radiusY : Q
}.

Record angleConfig := mkAngles { start : Q; endX : Q; endY : Q }.

Definition ellipseConfigs : list ellipseConfig :=
  [ mkEllipse 0 0 1.3 0.7; mkEllipse 0 0 1.1 0.5;
    mkEllipse 0 0 0.9 0.4; mkEllipse 0 0 0.7 0.3 ].

(** [this.books.length]. *)
Definition books_length : nat := 4.

Definition finalPositions : list THREE.Vector3 :=
  [ THREE.mkVector3 (-1.5) (-0.2) 0.25; THREE.mkVector3 (-0.5) (-0.2) 0.25;
    THREE.mkVector3 0.5 (-0.2) 0.25; THREE.mkVector3 1.5 (-0.2) 0.25 ].

(** The part of [Math] the scene uses. *)
Class Math := {
  Math_PI : Q;
  Math_cos : Q -> Q;
  Math_sin : Q -> Q
}.

Section Scene.

Context {M : Math}.

Definition degToRad (deg : Q) : Q := deg * (Math_PI / 180).

Definition angleConfigs : list angleConfig :=
  [ mkAngles (-Math_PI * 1.0) (-Math_PI * 2.2) (-Math_PI * 2.14);
    mkAngles (-Math_PI * 1.2) (-Math_PI * 2.35) (-Math_PI * 2.2);
    mkAngles (-Math_PI * 1.4) (-Math_PI * 2.5) (-Math_PI * 2.265);
    mkAngles (-Math_PI * 1.6) (-Math_PI * 2.8) (-Math_PI * 2.45) ].

(** The two tables have an entry for each of the four slots of
    [bookInstances]; the default below stands for an index the source
    never reads. *)
Definition ellipseOf (i : nat) : ellipseConfig :=
  nth i ellipseConfigs (mkEllipse 0 0 0 0).
Definition anglesOf (i : nat) : angleConfig :=
  nth i angleConfigs (mkAngles 0 0 0).

Definition angleX (progress : Q) (i : nat) : Q :=
  start (anglesOf i) + (endX (anglesOf i) - start (anglesOf i)) * progress.
Definition angleY (progress : Q) (i : nat) : Q :=
  start (anglesOf i) + (endY (anglesOf i) - start (anglesOf i)) * progress.

(** The point of the ellipse of book [i] at the two angles. *)
Definition ellipsePoint (i : nat) (aX aY : Q) : Q * Q :=
  (centerX (ellipseOf i) + radiusX (ellipseOf i) * Math_cos aX,
   centerY (ellipseOf i) + radiusY (ellipseOf i) * Math_sin aY).

(** The [x] and [y] both methods below compute for book [i]. *)
Definition place (progress : Q) (i : nat) : Q * Q :=
  ellipsePoint i (angleX progress i) (angleY progress i).

Definition orbitRotation (progress : Q) (i : nat) : THREE.Vector3 :=
  THREE.mkVector3 (progress * degToRad 90) 0
    (progress * degToRad (-28 - inject_Z (Z.of_nat i) * 20)).

Definition updateBookPositions (progress : Q) (t : Texture) : Texture :=
  set_bookInstances
    (imap (fun i book =>
             match book with
             | None => None
             | Some book =>
                 let '(x, y) := place progress i in
                 if negb (isOpen book) && negb (isClickPlaying book) then
                   Some (set_rotation (orbitRotation progress i)
                           (set_position
                              (THREE.mkVector3 x y
                                 (THREE.z (position book)))
                              book))
                 else Some book
             end)
          (bookInstances t))
    (set_cameraX (1.4 - progress) t).

Definition calculateBookPositionsForProgress (progress : Q) (t : Texture)
  : Texture * list (Q * Q) :=
  let positions := map (place progress) (seq 0 books_length) in
  (set_lastCalculatedPositions positions t, positions).

(** The function given to [.then] in [onUpdate]. *)
Definition runReaction (r : reaction) (t : Texture) : Texture :=
  match r with
  | recoveryThen targetProgress =>
      let t1 := set_scrollEnabled true t in
      let '(t2, targetBookPositions) :=
        calculateBookPositionsForProgress targetProgress t1 in
      let tweens :=
        concat
          (imap (fun index book =>
                   match book with
                   | None => []
                   | Some book =>
                       let targetPos :=
                         nth index targetBookPositions (0, 0) in
                       let targetRotation :=
                         orbitRotation targetProgress index in
                       [ gsap.mkTween (gsap.scenePosition index) 0.75
                           (Some (fst targetPos)) (Some (snd targetPos))
                           (Some (THREE.z (position book)));
                         gsap.mkTween (gsap.sceneRotation index) 0.75
                           (Some (THREE.x targetRotation))
                           (Some (THREE.y targetRotation))
                           (Some (THREE.z targetRotation)) ]
                   end)
                (bookInstances t2)) in
      set_positionTransitions
        (positionTransitions t2 ++ [mkTransition targetProgress tweens]) t2
  end.

(** [onComplete] of the position transition: start the scroll tween. *)
Definition positionTransitionComplete (t : Texture) : Texture :=
  match positionTransitions t with
  | [] => t
  | pt :: rest =>
      let startScrollY := scrollY t in
      let totalScrollDistance := triggerEnd t - triggerStart t in
      let endScrollY :=
        triggerStart t + totalScrollDistance * pt_targetProgress pt in
      set_scrollTweens
        (scrollTweens t ++ [mkScrollTween startScrollY endScrollY])
        (set_positionTransitions rest t)
  end.

(** [onUpdate] and [onComplete] of the scroll tween. The update is the
    interpolation the callback is written for, with the progress of the
    tween for [this.progress] (the source reads that method without
    calling it). *)
Definition scrollTweenOnUpdate (progress : Q) (t : Texture) : Texture :=
  match scrollTweens t with
  | [] => t
  | tw :: _ =>
      let scrollDistance := endScrollY tw - startScrollY tw in
      set_scrollY (startScrollY tw + scrollDistance * progress) t
  end.

Definition scrollTweenOnComplete (t : Texture) : Texture :=
  match scrollTweens t with
  | [] => t
  | tw :: rest =>
      set_isClosingFromScroll false
        (set_scrollY (endScrollY tw) (set_scrollTweens rest t))
  end.

(** [onUpdate] of the scroll trigger, [self.progress] being [progress]. *)
Definition onUpdate (progress : Q) (t : Texture) : Texture :=
  let t1 :=
    if Qltb progress (lastProgress t) && isAnyBookOpen t
       && negb (isClosingFromScroll t)
    then
      let targetProgress := progress in
      let '(t', p) :=
        closeAllOpenBooksWithPromise
          (set_isClosingFromScroll true (set_scrollEnabled false t)) in
      then_ p (recoveryThen targetProgress) t'
    else t in
  let t2 :=
    if negb (isClosingFromScroll t1)
    then set_canInteract (Qeq_bool progress 1)
           (updateBookPositions progress t1)
    else t1 in
  set_lastProgress progress t2.

Definition onLeaveBack (t : Texture) : Texture := closeAllOpenBooks t.

(** ** The machine *)

Inductive event :=
| scrollUpdate (progress : Q)
| leaveBack
| frame (deltaTime : Q)
| click (hit : option nat)
| mouseMove (hit : option nat)
| mouseLeave
| timelineComplete (bookIndex : nat)
| timelineReverseComplete (bookIndex : nat)
| positionTransitionDone
| scrollTweenUpdate (progress : Q)
| scrollTweenDone.

(** The scroll trigger delivers nothing while it is disabled. *)
Definition handle (e : event) (t : Texture) : Texture :=
  match e with
  | scrollUpdate progress =>
      if scrollEnabled t then onUpdate progress t else t
  | leaveBack => if scrollEnabled t then onLeaveBack t else t
  | frame deltaTime => animate deltaTime t
  | click hit => onCanvasClick hit t
  | mouseMove hit => onCanvasMouseMove hit t
  | mouseLeave => clearHoveredBook t
  | timelineComplete bookIndex => onComplete bookIndex t
  | timelineReverseComplete bookIndex => onReverseComplete bookIndex t
  | positionTransitionDone => positionTransitionComplete t
  | scrollTweenUpdate progress => scrollTweenOnUpdate progress t
  | scrollTweenDone => scrollTweenOnComplete t
  end.

(** The microtasks queued by a handler run when it returns. *)
Definition runMicrotasks (t : Texture) : Texture :=
  fold_left (fun t r => runReaction r t) (microtasks t)
            (set_microtasks [] t).

Definition step (t : Texture) (e : event) : Texture :=
  runMicrotasks (handle e t).

Definition run (es : list event) (t : Texture) : Texture :=
  fold_left step es t.

(** ** Loading *)

(** A loaded model brings the durations of its clips. *)
Definition loadBook (index : nat) (finalPosition : THREE.Vector3)
    (durations : list Q) : bookInstance :=
  {| position := finalPosition;
     rotation := THREE.mkVector3 0 0 0;
     index := index;
     animationActions :=
       map (fun d => mkAnimObj THREE.newAction d) durations;
     isOpen := false; isClickPlaying := false; isHoverPlaying := false;
     openTimeline := None |}.

(** The scene when the last load has settled: [None] is a failed load,
    whose slot stays [null]. *)
Definition onAllBooksLoaded (gltfs : list (option (list Q)))
    (triggerStart triggerEnd : Q) : Texture :=
  {| bookInstances :=
       imap (fun index (pg : THREE.Vector3 * option (list Q)) =>
               option_map (loadBook index (fst pg)) (snd pg))
            (zip finalPositions (gltfs ++ replicate books_length None));
     isClosingFromScroll := false;
     bookClosePromise := None;
     lastCalculatedPositions := [];
     currentHoveredIndex := (-1)%Z;
     canInteract := false;
     cameraX := 1;
     checkAnimationProgressFn := originalCheck;
     lastProgress := 0;
     scrollEnabled := true;
     triggerStart := triggerStart;
     triggerEnd := triggerEnd;
     promises := [];
     microtasks := [];
     positionTransitions := [];
     scrollTweens := [];
     scrollY := 0 |}.

End Scene.

(** ** Notions used by the statements *)

(** The four states of a book, read off its two flags. *)
Inductive bookState := Closed | Opening | Open | Closing.

Definition stateOf (book : bookInstance) : bookState :=
  match isOpen book, isClickPlaying book with
  | false, false => Closed
  | false, true => Opening
  | true, false => Open
  | true, true => Closing
  end.

(** [t] and [t'] have books in the same slots, related by [R]. *)
Definition booksRelated (R : bookInstance -> bookInstance -> Prop)
    (t t' : Texture) : Prop :=
  forall i, option_Forall2 R (lookupBook t i) (lookupBook t' i).

(** The fields of the scroll coordination, which no book operation
    writes. *)
Definition coordination (t : Texture) :=
  (isClosingFromScroll t, scrollEnabled t, canInteract t,
   positionTransitions t, scrollTweens t).

(** The promises and the queue of microtasks. *)
Definition promiseState (t : Texture) := (promises t, microtasks t).

Definition sameTimelineCallback (book book' : bookInstance) : Prop :=
  option_Forall2
    (fun tl tl' => gsap.onReverseCompleteCallback tl'
                   = gsap.onReverseCompleteCallback tl)
    (openTimeline book) (openTimeline book').

Definition nullTimelineCallback (book : bookInstance) : Prop :=
  forall tl, openTimeline book = Some tl ->
    gsap.onReverseCompleteCallback tl = null_cb.

Definition sameIsOpen (book book' : bookInstance) : Prop :=
  isOpen book' = isOpen book.

(** What a frame may do to the flags of a book: keep [isOpen] and
    [isClickPlaying], or end a click transition. *)
Definition frameFlags (book book' : bookInstance) : Prop :=
  (isOpen book' = isOpen book /\ isClickPlaying book' = isClickPlaying book)
  \/ (isClickPlaying book = true /\ isClickPlaying book' = false).

(** A clip at which the click branch of the check fires. *)
Definition crossesClickLimit (a : animObj) : Prop :=
  (0 < THREE.timeScale (action a)
   /\ originalDuration a * clickPlayPercentage <= THREE.time (action a))
  \/ (THREE.timeScale (action a) < 0 /\ THREE.time (action a) <= 0).

(** Every callback reachable from the check function is [null]. *)
Fixpoint quietCheck (f : checkFn) : Prop :=
  match f with
  | originalCheck => True
  | patchedCheck _ cb f' => cb = null_cb /\ quietCheck f'
  end.

Definition promiseClosedCount (p : nat) (t : Texture) : option nat :=
  closedCount <$> (promises t !! p).

Definition clipsOf (i : nat) (t : Texture) : list animObj :=
  match lookupBook t i with
  | Some book => animationActions book
  | None => []
  end.

Definition statesOf (t : Texture) : list (option bookState) :=
  map (option_map stateOf) (bookInstances t).

(** A running timeline holds a tween on the position or the rotation of
    book [i]: gsap is writing the transform of that book. *)
Definition tweenTargets (i : nat) (tw : gsap.tween) : bool :=
  match gsap.tw_target tw with
  | gsap.scenePosition k | gsap.sceneRotation k => (k =? i)%nat
  end.

Definition timelineDrives (t : Texture) (i : nat) : bool :=
  existsb
    (fun book =>
       match book with
       | Some book =>
           match openTimeline book with
           | Some tl =>
               negb (gsap.tl_paused tl)
               && existsb (tweenTargets i) (gsap.tweens tl)
           | None => false
           end
       | None => false
       end)
    (bookInstances t).

(** What the hover, the timeline callbacks and the orbit placement
    keep of a book. *)
Definition keepsFlags (book book' : bookInstance) : Prop :=
  isOpen book' = isOpen book
  /\ isClickPlaying book' = isClickPlaying book
  /\ sameTimelineCallback book book'.

(** What a frame keeps of a book. *)
Definition settles (book book' : bookInstance) : Prop :=
  frameFlags book book' /\ sameTimelineCallback book book'.

(** [nullTimelineCallback] for every book, as a test. *)
Definition timelinesQuiet (t : Texture) : bool :=
  forallb
    (fun book =>
       match book with
       | Some book =>
           match openTimeline book with
           | Some tl =>
               match gsap.onReverseCompleteCallback tl with
               | null_cb => true
               | checkAllClosed _ => false
               end
           | None => true
           end
       | None => true
       end)
    (bookInstances t).

(** A recovery that can no longer complete: the promises are frozen at
    [ps], no callback is left in the check function or in a timeline,
    and nothing is pending that could clear the flag. *)
Record stalled (ps : list closePromise) (t : Texture) : Prop := mkStalled {
  stalled_pending : promises t = ps;
  stalled_quiet : quietCheck (checkAnimationProgressFn t);
  stalled_timelines :
    forall i book, lookupBook t i = Some book -> nullTimelineCallback book;
  stalled_flag : isClosingFromScroll t = true;
  stalled_driver : scrollEnabled t = false;
  stalled_transitions : positionTransitions t = [];
  stalled_tweens : scrollTweens t = [];
  stalled_microtasks : microtasks t = []
}.

(** ** Scenes and event sequences used as concrete inputs *)

(** A rational instance of the [Math] parameters, for running the scene;
    nothing below depends on its values. *)
Definition sampleMath : Math :=
  {| Math_PI := 355 # 113;
     Math_cos := fun a => 1 - a * a / 2;
     Math_sin := fun a => a - a * a * a / 6 |}.

(** Four books with one clip of one second each. *)
Definition fourBooks : Texture :=
  onAllBooksLoaded [Some [1]; Some [1]; Some [1]; Some [1]] 0 3000.

(** Book 0 has a one-second clip, book 1 a two-second clip. *)
Definition unequalBooks : Texture :=
  onAllBooksLoaded [Some [1]; Some [2]; Some [1]; Some [1]] 0 3000.

(** Book 0 has two clips of one second. *)
Definition twoClipBooks : Texture :=
  onAllBooksLoaded [Some [1; 1]; Some [1]; Some [1]; Some [1]] 0 3000.

(** The first load failed and the second model has no clip. *)
Definition sparseBooks : Texture :=
  onAllBooksLoaded [None; Some []; Some [1]; Some [1]] 0 3000.

(** A scene in which a close-all is pending and one callback is due. *)
Definition pendingClose : Texture :=
  set_promises [mkPromise 1 0 0 false []] sparseBooks.

(** Scroll to the bottom, click book 0 and, before it has opened,
    book 1; a second later both clips have passed 90%. *)
Definition openTwoBooks : list event :=
  [scrollUpdate 1; click (Some 0%nat); click (Some 1%nat); frame 1].

(** Then scroll back up to the middle: the recovery closes both. *)
Definition reverseWithTwoOpen : list event :=
  openTwoBooks ++ [scrollUpdate 0.5].

(** A second later both clips are back at 0. *)
Definition twoBooksClosed : list event :=
  reverseWithTwoOpen ++ [frame 1].

(** Scroll to the bottom, open book 0 and click it again: it is
    Closing. *)
Definition closeOpenedBook : list event :=
  [scrollUpdate 1; click (Some 0%nat); frame 1; click (Some 0%nat)].

(** Scroll to the bottom, open book 0, scroll back up. *)
Definition reverseWithOneOpen : list event :=
  [scrollUpdate 1; click (Some 0%nat); frame 1; scrollUpdate 0.5].

(** Books 0 (one second) and 1 (two seconds) are opened together and
    the scroll is reversed once both are Open. *)
Definition closeUnequal : list event :=
  [scrollUpdate 1; click (Some 0%nat); click (Some 1%nat); frame 1; frame 1;
   scrollUpdate 0.5].

(** ** Notions used by the properties of the whole machine *)

Unset Implicit Arguments.

(** *** The clips and the flags of a book *)

(** The time of a clip lies within the clip. *)
Definition clipInBounds (a : animObj) : Prop :=
  0 <= THREE.time (action a) /\ THREE.time (action a) <= originalDuration a.

(** The first clip is at or below the click limit. *)
Definition firstClipWithinClickLimit (l : list animObj) : Prop :=
  match l with
  | a :: _ => THREE.time (action a) <= originalDuration a * clickPlayPercentage
  | [] => True
  end.

(** What the handlers keep true of the book in slot [i]. *)
Record soundBook (i : nat) (book : bookInstance) : Prop := mkSoundBook {
  sound_index : index book = i;
  sound_hover :
    isHoverPlaying book = true ->
    isOpen book = false /\ isClickPlaying book = false
    /\ animationActions book <> [];
  sound_timeline :
    isOpen book = true \/ isClickPlaying book = true ->
    openTimeline book <> None /\ animationActions book <> [];
  sound_callback : nullTimelineCallback book;
  sound_clips : Forall clipInBounds (animationActions book);
  sound_first : firstClipWithinClickLimit (animationActions book)
}.

(** The array of books has its four slots and every book in it is
    sound. *)
Definition soundScene (t : Texture) : Prop :=
  length (bookInstances t) = books_length
  /\ forall i book, lookupBook t i = Some book -> soundBook i book.

(** The clock of three.js never runs backwards. *)
Definition forwardClock (e : event) : Prop :=
  match e with
  | frame deltaTime => 0 <= deltaTime
  | _ => True
  end.

(** The clips of the loaded models have a length. *)
Definition clipsHaveLength (gltfs : list (option (list Q))) : Prop :=
  Forall (fun gltf =>
            match gltf with
            | Some durations => Forall (fun d => 0 <= d) durations
            | None => True
            end) gltfs.

(** The hover plays on a Closed book only. *)
Definition hoverExclusive (book : bookInstance) : Prop :=
  isHoverPlaying book = true ->
  isOpen book = false /\ isClickPlaying book = false.

(** [g] changes neither the length of a clip nor its time. *)
Definition keepsClock (g : animObj -> animObj) : Prop :=
  forall a, originalDuration (g a) = originalDuration a
            /\ THREE.time (action (g a)) = THREE.time (action a).






(** *** The promises and the recovery *)

(** A resolved aggregate close has counted a callback for each book it
    set out to close. *)
Definition resolvedAfterItsCount (pr : closePromise) : Prop :=
  resolved pr = true -> (openCount pr <= closedCount pr)%nat.

(** What may happen to a promise: its count of callbacks grows and it
    may be resolved. *)
Definition promiseGrows (pr pr' : closePromise) : Prop :=
  openCount pr' = openCount pr
  /\ (closedCount pr <= closedCount pr')%nat
  /\ (resolved pr = true -> resolved pr' = true).

(** From [t] to [t'] every promise is kept and grows, and the promises
    stay resolved after their count if they were. *)
Definition promisesAdvance (t t' : Texture) : Prop :=
  (forall p pr, promises t !! p = Some pr ->
     exists pr', promises t' !! p = Some pr' /\ promiseGrows pr pr')
  /\ (Forall resolvedAfterItsCount (promises t) ->
      Forall resolvedAfterItsCount (promises t')).

(** The reactions registered on promises that are still pending, and
    those already queued as microtasks. *)
Definition reactionsWaiting (t : Texture) : nat :=
  (sum_list (map (fun pr => length (reactions pr)) (promises t))
   + length (microtasks t))%nat.

(** The recoveries under way: each is a waiting reaction, a position
    transition or a scroll tween. *)
Definition recoveriesInFlight (t : Texture) : nat :=
  (reactionsWaiting t + length (positionTransitions t)
   + length (scrollTweens t))%nat.

(** The scroll trigger is disabled only in the closing phase of a
    recovery, nothing of a recovery is left while the flag is clear, and
    one recovery at most is under way. *)
Record recoveryInvariant (t : Texture) : Prop := mkRecoveryInvariant {
  recovery_disabled :
    scrollEnabled t = false ->
    isClosingFromScroll t = true
    /\ positionTransitions t = [] /\ scrollTweens t = [];
  recovery_idle : isClosingFromScroll t = false -> recoveriesInFlight t = 0%nat;
  recovery_single : (recoveriesInFlight t <= 1)%nat
}.

(** ** [src/main.js]: the scene without the scroll-reversal recovery

    The class of [main.js] has the same books, the same per-frame check,
    hover and orbit placement; its toggle takes no callback, its frame
    calls the check of the class and its handlers are not gated. *)

Module MainJs.

(** The body of the loop of [animate]. *)
Definition animateBook (deltaTime : Q) (t : Texture) (i : nat) : Texture :=
  match lookupBook t i with
  | Some book =>
      if isClickPlaying book || isHoverPlaying book then
        storeBook i (checkAnimationProgress (mixerUpdate deltaTime book)) t
      else t
  | None => t
  end.

Definition animate (deltaTime : Q) (t : Texture) : Texture :=
  fold_left (animateBook deltaTime) (seq 0 (length (bookInstances t))) t.

(** [toggleBookAnimation(bookIndex)]; the [onReverseComplete] of its
    timeline has no callback to run. *)
Definition toggleBookAnimation (bookIndex : nat) (t : Texture) : Texture :=
  match lookupBook t bookIndex with
  | None => t
  | Some book =>
      match animationActions book with
      | [] => t
      | _ :: _ =>
          let book1 :=
            if isHoverPlaying book
            then set_animationActions
                   (map pauseAction (animationActions book))
                   (set_isHoverPlaying false book)
            else book in
          let openTimeline1 :=
            match openTimeline book1 with
            | Some tl => tl
            | None => buildOpenTimeline t bookIndex null_cb
            end in
          if negb (isOpen book1) then
            let book2 :=
              set_animationActions
                (map (startAction 1) (animationActions book1))
                (set_isClickPlaying true book1) in
            let tl := gsap.play (gsap.progress 0
                                   (gsap.timeScale 1 openTimeline1)) in
            storeBook bookIndex (set_openTimeline (Some tl) book2) t
          else
            let book2 :=
              set_animationActions
                (map (startAction (-1)) (animationActions book1))
                (set_isClickPlaying true book1) in
            let tl := gsap.reverse (gsap.progress 1
                                      (gsap.timeScale 2 openTimeline1)) in
            storeBook bookIndex (set_openTimeline (Some tl) book2) t
      end
  end.

(** [closeAllOpenBooks()]: the loop reads [isOpen] of each book as it
    comes to it and toggles the book by its [index]. *)
Definition closeAllOpenBooks (t : Texture) : Texture :=
  fold_left
    (fun t i =>
       match lookupBook t i with
       | Some book =>
           if isOpen book then toggleBookAnimation (index book) t else t
       | None => t
       end)
    (seq 0 (length (bookInstances t))) t.

(** The click and the pointer move, [hit] as in [script.js]. *)
Definition onCanvasClick (hit : option nat) (t : Texture) : Texture :=
  match hit with
  | Some bookIndex => toggleBookAnimation bookIndex t
  | None => t
  end.

Definition onCanvasMouseMove (hit : option nat) (t : Texture) : Texture :=
  match hit with
  | Some bookIndex =>
      if (Z.of_nat bookIndex =? currentHoveredIndex t)%Z then t
      else setHoveredBook bookIndex (clearHoveredBook t)
  | None => clearHoveredBook t
  end.

End MainJs.

(** ** Loading the models *)

(** [loadBooks] while the models arrive: the array of books, the counter
    [loadedCount] and the number of calls of [onAllBooksLoaded]. *)
Record loading := mkLoading {
  loadingBooks : list (option bookInstance);
  loadedCount : nat;
  allBooksLoadedCalls : nat
}.

Definition loadBooks : loading :=
  {| loadingBooks := replicate books_length None;
     loadedCount := 0;
     allBooksLoadedCalls := 0 |}.

(** [loadedCount++; if (loadedCount === this.books.length)
    this.onAllBooksLoaded()]. *)
Definition countLoaded (s : loading) : loading :=
  let loadedCount' := S (loadedCount s) in
  {| loadingBooks := loadingBooks s;
     loadedCount := loadedCount';
     allBooksLoadedCalls :=
       if (loadedCount' =? books_length)%nat
       then S (allBooksLoadedCalls s) else allBooksLoadedCalls s |}.

(** The two callbacks given to [gltfLoader.load] for the book [index];
    [finalPositions] has an entry for each of the four books. *)
Definition onLoad (index : nat) (durations : list Q) (s : loading)
  : loading :=
  countLoaded
    {| loadingBooks :=
         <[index := Some (loadBook index
                            (nth index finalPositions (THREE.mkVector3 0 0 0))
                            durations)]> (loadingBooks s);
       loadedCount := loadedCount s;
       allBooksLoadedCalls := allBooksLoadedCalls s |}.

Definition onError (s : loading) : loading := countLoaded s.

(** The load of book [index] settles with the clips of the model, or
    fails. *)
Definition settle (gltf : nat -> option (list Q)) (s : loading) (index : nat)
  : loading :=
  match gltf index with
  | Some durations => onLoad index durations s
  | None => onError s
  end.

(** The loading state once the loads of the books [l] have settled, in
    that order. *)
Record loadedSoFar (gltf : nat -> option (list Q)) (l : list nat)
    (s : loading) : Prop := mkLoadedSoFar {
  sofar_count : loadedCount s = length l;
  sofar_calls :
    allBooksLoadedCalls s
    = if (books_length <=? length l)%nat then 1%nat else 0%nat;
  sofar_length : length (loadingBooks s) = books_length;
  sofar_books :
    forall j, (j < books_length)%nat ->
      loadingBooks s !! j
      = Some (if decide (elem_of j l)
              then option_map
                     (loadBook j
                        (nth j finalPositions (THREE.mkVector3 0 0 0)))
                     (gltf j)
              else None)
}.

(** ** The pointer *)

Record sizes := mkSizes { width : Q; height : Q }.

(** [this.mouse] as the click and the move handlers set it from the
    event. *)
Definition mouse (s : sizes) (clientX clientY : Q) : Q * Q :=
  (clientX / width s * 2 - 1, - (clientY / height s * 2 - 1)).

(** ** Further concrete inputs *)

(** The pointer enters book 2 at the bottom of the scroll. *)
Definition hoverBook2 : list event :=
  [scrollUpdate 1; mouseMove (Some 2%nat)].

(** A second after the recovery of a single open book has begun. *)
Definition oneBookClosed : list event := reverseWithOneOpen ++ [frame 1].

(** The first model fails to load; the others bring one clip. *)
Definition firstLoadFails (index : nat) : option (list Q) :=
  if (index =? 0)%nat then None else Some [1].

(** An order in which the four loads settle. *)
Definition loadOrder : list nat := [2; 0; 3; 1]%nat.

(** A window of 800 by 600 pixels. *)
Definition viewport : sizes := mkSizes 800 600.

(** * Facts *)

Unset Implicit Arguments.

Lemma Qltb_lt (a b : Q) : Qltb a b = true <-> (a < b)%Q.
Proof.
  unfold Qltb. rewrite negb_true_iff. split.
  - intros H. apply Qnot_le_lt. intros Hle.
    apply Qle_bool_iff in Hle. congruence.
  - intros H. destruct (Qle_bool b a) eqn:E; [|reflexivity].
    apply Qle_bool_iff in E. exfalso. exact (Qlt_not_le _ _ H E).
Qed.

Create Rewrite HintDb scene.

Ltac conjs := repeat match goal with |- _ /\ _ => split end.
Ltac evaluate := conjs; vm_compute; first [reflexivity | congruence].

(** [frame] proves that an operation leaves a view of the scene alone:
    it peels the field writes that do not touch the view and rewrites
    with the facts already known of the operations underneath. *)
Ltac frame :=
  repeat first
    [ reflexivity
    | progress autorewrite with scene
    | match goal with
      | |- ?view (?f ?t) = _ => transitivity (view t); [reflexivity|]
      end ].

Lemma fold_left_preserves {A B C} (view : A -> C) (f : A -> B -> A) l :
  (forall a b, view (f a b) = view a) ->
  forall a, view (fold_left f l a) = view a.
Proof.
  intros Hf. induction l as [|b l IH]; intros a; simpl; [reflexivity|].
  rewrite IH. apply Hf.
Qed.

Lemma fold_left_related {A B} (R : A -> A -> Prop) (f : A -> B -> A) l :
  (forall a, R a a) -> (forall a b c, R a b -> R b c -> R a c) ->
  (forall a b, R a (f a b)) ->
  forall a, R a (fold_left f l a).
Proof.
  intros Hr Ht Hf. induction l as [|b l IH]; intros a; simpl; [apply Hr|].
  eapply Ht; [apply Hf | apply IH].
Qed.

Lemma lookupBook_storeBook_eq t i book book' :
  lookupBook t i = Some book -> lookupBook (storeBook i book' t) i = Some book'.
Proof.
  unfold lookupBook, storeBook. simpl. intros H.
  destruct (bookInstances t !! i) as [o|] eqn:E; [|discriminate].
  rewrite list_lookup_insert_eq; [reflexivity|].
  eapply lookup_lt_Some; eauto.
Qed.

Lemma lookupBook_storeBook_ne t i j book' :
  i <> j -> lookupBook (storeBook i book' t) j = lookupBook t j.
Proof.
  unfold lookupBook, storeBook. simpl. intros H.
  rewrite list_lookup_insert_ne; auto.
Qed.

(** *** What the promise operations and the book operations leave alone *)

Section PromiseOps.
Context {C : Type} (view : Texture -> C).
Hypothesis view_promises : forall v t, view (set_promises v t) = view t.
Hypothesis view_microtasks : forall v t, view (set_microtasks v t) = view t.
Hypothesis view_bookClosePromise :
  forall v t, view (set_bookClosePromise v t) = view t.

Lemma view_storePromise p pr t : view (storePromise p pr t) = view t.
Proof. apply view_promises. Qed.

Lemma view_resolve p t : view (resolve p t) = view t.
Proof.
  unfold resolve. destruct (promises t !! p) as [pr|]; [|reflexivity].
  destruct (resolved pr);
    rewrite ?view_microtasks, view_storePromise; reflexivity.
Qed.

Lemma view_then p r t : view (then_ p r t) = view t.
Proof.
  unfold then_. destruct (promises t !! p) as [pr|]; [|reflexivity].
  destruct (resolved pr);
    rewrite ?view_microtasks, ?view_storePromise; reflexivity.
Qed.

Lemma view_invoke cb t : view (invoke cb t) = view t.
Proof.
  destruct cb as [|p]; simpl; [reflexivity|].
  destruct (promises t !! p) as [pr|]; [|reflexivity].
  destruct (_ <=? _)%nat;
    rewrite ?view_resolve, ?view_bookClosePromise, view_storePromise;
    reflexivity.
Qed.
End PromiseOps.

Lemma coordination_invoke cb t : coordination (invoke cb t) = coordination t.
Proof. apply view_invoke; reflexivity. Qed.
Lemma bookInstances_invoke cb t : bookInstances (invoke cb t) = bookInstances t.
Proof. apply view_invoke; reflexivity. Qed.
Lemma checkFn_invoke cb t :
  checkAnimationProgressFn (invoke cb t) = checkAnimationProgressFn t.
Proof. apply view_invoke; reflexivity. Qed.
Lemma coordination_then p r t : coordination (then_ p r t) = coordination t.
Proof. apply view_then; reflexivity. Qed.
Lemma bookInstances_then p r t : bookInstances (then_ p r t) = bookInstances t.
Proof. apply view_then; reflexivity. Qed.
Lemma coordination_resolve p t : coordination (resolve p t) = coordination t.
Proof. apply view_resolve; reflexivity. Qed.
Lemma bookInstances_resolve p t : bookInstances (resolve p t) = bookInstances t.
Proof. apply view_resolve; reflexivity. Qed.
Lemma lookupBook_same t t' i :
  bookInstances t' = bookInstances t -> lookupBook t' i = lookupBook t i.
Proof. unfold lookupBook. now intros ->. Qed.

#[local] Hint Rewrite coordination_invoke bookInstances_invoke checkFn_invoke
  coordination_then bookInstances_then coordination_resolve
  bookInstances_resolve : scene.

Lemma coordination_runCheck f i t :
  coordination (runCheck f i t) = coordination t.
Proof.
  revert t. induction f as [|bookIndex cb f IH]; intros t; simpl.
  - destruct (lookupBook t i); reflexivity.
  - destruct (lookupBook _ bookIndex) as [book|]; [|apply IH].
    destruct (_ && _); [|apply IH].
    frame. apply IH.
Qed.
#[local] Hint Rewrite coordination_runCheck : scene.

Lemma coordination_animate dt t : coordination (animate dt t) = coordination t.
Proof.
  unfold animate. apply fold_left_preserves. intros a i.
  unfold animateBook. destruct (lookupBook a i) as [book|]; [|reflexivity].
  destruct (_ || _); frame.
Qed.

Lemma coordination_toggle i cb t :
  coordination (toggleBookAnimationWithCallback i cb t) = coordination t.
Proof.
  unfold toggleBookAnimationWithCallback.
  destruct (lookupBook t i) as [book|]; [|frame].
  destruct (animationActions book); [frame|].
  destruct (negb _); frame.
Qed.
#[local] Hint Rewrite coordination_animate coordination_toggle : scene.

(** *** Relations between the books of two states *)

Lemma sameTimelineCallback_refl book : sameTimelineCallback book book.
Proof.
  unfold sameTimelineCallback. destruct (openTimeline book); constructor.
  reflexivity.
Qed.

Lemma sameTimelineCallback_trans b1 b2 b3 :
  sameTimelineCallback b1 b2 -> sameTimelineCallback b2 b3 ->
  sameTimelineCallback b1 b3.
Proof.
  unfold sameTimelineCallback. intros H12 H23.
  destruct H12; inversion H23; subst; constructor. congruence.
Qed.

Lemma sameTimelineCallback_eq book book' :
  openTimeline book' = openTimeline book -> sameTimelineCallback book book'.
Proof.
  unfold sameTimelineCallback. intros ->.
  destruct (openTimeline book); constructor. reflexivity.
Qed.

Lemma keepsFlags_refl book : keepsFlags book book.
Proof. repeat split; auto using sameTimelineCallback_refl. Qed.

Lemma keepsFlags_trans b1 b2 b3 :
  keepsFlags b1 b2 -> keepsFlags b2 b3 -> keepsFlags b1 b3.
Proof.
  intros (? & ? & ?) (? & ? & ?).
  repeat split; try congruence. eauto using sameTimelineCallback_trans.
Qed.

Lemma frameFlags_refl book : frameFlags book book.
Proof. left. split; reflexivity. Qed.

Lemma frameFlags_trans b1 b2 b3 :
  frameFlags b1 b2 -> frameFlags b2 b3 -> frameFlags b1 b3.
Proof.
  unfold frameFlags.
  intros [(? & ?)|(? & ?)] [(? & ?)|(? & ?)]; try (left; split; congruence);
    right; split; congruence.
Qed.

Lemma settles_refl book : settles book book.
Proof. split; auto using frameFlags_refl, sameTimelineCallback_refl. Qed.

Lemma settles_trans b1 b2 b3 : settles b1 b2 -> settles b2 b3 -> settles b1 b3.
Proof.
  intros (? & ?) (? & ?).
  split; eauto using frameFlags_trans, sameTimelineCallback_trans.
Qed.

Lemma sameIsOpen_refl book : sameIsOpen book book.
Proof. reflexivity. Qed.

Lemma sameIsOpen_trans b1 b2 b3 :
  sameIsOpen b1 b2 -> sameIsOpen b2 b3 -> sameIsOpen b1 b3.
Proof. unfold sameIsOpen. congruence. Qed.

Lemma keepsFlags_settles b b' : keepsFlags b b' -> settles b b'.
Proof. intros (? & ? & ?). split; [left; split|]; assumption. Qed.

Lemma keepsFlags_sameIsOpen b b' : keepsFlags b b' -> sameIsOpen b b'.
Proof. now intros (? & _). Qed.

Section Related.
Variable R : bookInstance -> bookInstance -> Prop.
Hypothesis R_refl : forall book, R book book.
Hypothesis R_trans : forall b1 b2 b3, R b1 b2 -> R b2 b3 -> R b1 b3.

Lemma booksRelated_refl t : booksRelated R t t.
Proof. intros i. destruct (lookupBook t i); constructor. apply R_refl. Qed.

Lemma booksRelated_trans t1 t2 t3 :
  booksRelated R t1 t2 -> booksRelated R t2 t3 -> booksRelated R t1 t3.
Proof.
  intros H12 H23 i. specialize (H12 i). specialize (H23 i).
  destruct H12; inversion H23; subst; constructor. eauto.
Qed.

Lemma booksRelated_same t t' :
  bookInstances t' = bookInstances t -> booksRelated R t t'.
Proof.
  intros E i. rewrite (lookupBook_same _ _ i E).
  destruct (lookupBook t i); constructor. apply R_refl.
Qed.

Lemma booksRelated_storeBook t i book book' :
  lookupBook t i = Some book -> R book book' ->
  booksRelated R t (storeBook i book' t).
Proof.
  intros Hi HR j. destruct (decide (i = j)) as [<-|Hne].
  - rewrite (lookupBook_storeBook_eq _ _ _ book' Hi), Hi. now constructor.
  - rewrite lookupBook_storeBook_ne by assumption.
    destruct (lookupBook t j); constructor. apply R_refl.
Qed.

Lemma booksRelated_step t1 t2 t3 :
  booksRelated R t1 t2 -> bookInstances t3 = bookInstances t2 ->
  booksRelated R t1 t3.
Proof.
  intros H12 E i. rewrite (lookupBook_same _ _ i E). apply H12.
Qed.

Lemma booksRelated_fold {B} (f : Texture -> B -> Texture) l :
  (forall t b, booksRelated R t (f t b)) ->
  forall t, booksRelated R t (fold_left f l t).
Proof.
  intros Hf. apply fold_left_related;
    eauto using booksRelated_refl, booksRelated_trans.
Qed.
End Related.

Lemma booksRelated_mono (R R' : bookInstance -> bookInstance -> Prop) t t' :
  (forall b b', R b b' -> R' b b') ->
  booksRelated R t t' -> booksRelated R' t t'.
Proof. intros HRR' H i. destruct (H i); constructor. auto. Qed.

Lemma booksRelated_lookup R t t' i book book' :
  booksRelated R t t' -> lookupBook t i = Some book ->
  lookupBook t' i = Some book' -> R book book'.
Proof.
  intros H Hb Hb'. specialize (H i). rewrite Hb, Hb' in H.
  now inversion H.
Qed.

(** *** The per-frame check *)

Lemma checkAction_flags book a :
  openTimeline (fst (checkAction book a)) = openTimeline book
  /\ index (fst (checkAction book a)) = index book
  /\ ((isOpen (fst (checkAction book a)) = isOpen book
       /\ isClickPlaying (fst (checkAction book a)) = isClickPlaying book)
      \/ (isClickPlaying book = true
          /\ isClickPlaying (fst (checkAction book a)) = false
          /\ crossesClickLimit a)).
Proof.
  unfold checkAction, crossesClickLimit.
  destruct (isClickPlaying book) eqn:Ec.
  - destruct (Qltb 0 _ && Qle_bool _ _) eqn:E1.
    + apply andb_true_iff in E1 as [H1 H2].
      apply Qltb_lt in H1. apply Qle_bool_iff in H2.
      simpl. destruct (isHoverPlaying book); simpl;
        repeat match goal with |- context [if ?c then _ else _] =>
                 destruct c end; simpl; auto 10.
    + destruct (Qltb _ 0 && Qle_bool _ _) eqn:E2.
      * apply andb_true_iff in E2 as [H1 H2].
        apply Qltb_lt in H1. apply Qle_bool_iff in H2.
        simpl. destruct (isHoverPlaying book); simpl;
          repeat match goal with |- context [if ?c then _ else _] =>
                   destruct c end; simpl; auto 10.
      * destruct (isHoverPlaying book); simpl;
          repeat match goal with |- context [if ?c then _ else _] =>
                   destruct c end; simpl; auto 10.
  - destruct (isHoverPlaying book); simpl;
      repeat match goal with |- context [if ?c then _ else _] =>
               destruct c end; simpl; auto 10.
Qed.

Lemma checkActions_flags l : forall book,
  openTimeline (fst (checkActions book l)) = openTimeline book
  /\ index (fst (checkActions book l)) = index book
  /\ ((isOpen (fst (checkActions book l)) = isOpen book
       /\ isClickPlaying (fst (checkActions book l)) = isClickPlaying book)
      \/ (isClickPlaying book = true
          /\ isClickPlaying (fst (checkActions book l)) = false
          /\ Exists crossesClickLimit l)).
Proof.
  induction l as [|a l IH]; intros book; simpl; [auto|].
  pose proof (checkAction_flags book a) as (Ht & Hi & Hf).
  destruct (checkAction book a) as [book1 a1]. simpl in *.
  specialize (IH book1) as (Ht' & Hi' & Hf').
  destruct (checkActions book1 l) as [book2 l2]. simpl in *.
  split; [congruence|]. split; [congruence|].
  destruct Hf as [(Ho & Hc)|(Hc & Hc1 & Hx)].
  - destruct Hf' as [(Ho' & Hc')|(Hc' & Hc1' & Hx')].
    + left. split; congruence.
    + right. repeat split; try congruence. now apply Exists_cons_tl.
  - destruct Hf' as [(Ho' & Hc')|(Hc' & Hc1' & Hx')].
    + right. repeat split; try congruence. now apply Exists_cons_hd.
    + congruence.
Qed.

Lemma checkAnimationProgress_flags book :
  openTimeline (checkAnimationProgress book) = openTimeline book
  /\ index (checkAnimationProgress book) = index book
  /\ ((isOpen (checkAnimationProgress book) = isOpen book
       /\ isClickPlaying (checkAnimationProgress book) = isClickPlaying book)
      \/ (isClickPlaying book = true
          /\ isClickPlaying (checkAnimationProgress book) = false
          /\ Exists crossesClickLimit (animationActions book))).
Proof.
  unfold checkAnimationProgress.
  pose proof (checkActions_flags (animationActions book) book) as H.
  destruct (checkActions book (animationActions book)) as [book' l'].
  exact H.
Qed.

Lemma checkAnimationProgress_settles book :
  settles book (checkAnimationProgress book).
Proof.
  destruct (checkAnimationProgress_flags book) as (Ht & _ & Hf).
  split.
  - destruct Hf as [?|(? & ? & _)]; [left|right]; auto.
  - now apply sameTimelineCallback_eq.
Qed.

Lemma mixerUpdate_keepsFlags dt book : keepsFlags book (mixerUpdate dt book).
Proof. repeat split. now apply sameTimelineCallback_eq. Qed.

Lemma runCheck_settles f i t : booksRelated settles t (runCheck f i t).
Proof.
  revert t. induction f as [|bookIndex cb f IH]; intros t; simpl.
  - destruct (lookupBook t i) as [book|] eqn:E.
    + eapply booksRelated_storeBook;
        eauto using settles_refl, checkAnimationProgress_settles.
    + apply booksRelated_refl, settles_refl.
  - destruct (lookupBook _ bookIndex) as [book|]; [|apply IH].
    destruct (_ && _); [|apply IH].
    eapply booksRelated_step; [apply IH|]. frame.
Qed.

Lemma animateBook_settles dt t i : booksRelated settles t (animateBook dt t i).
Proof.
  unfold animateBook. destruct (lookupBook t i) as [book|] eqn:E;
    [|apply booksRelated_refl, settles_refl].
  destruct (_ || _); [|apply booksRelated_refl, settles_refl].
  eapply booksRelated_trans; [apply settles_trans| |apply runCheck_settles].
  eapply booksRelated_storeBook; eauto using settles_refl.
  apply keepsFlags_settles, mixerUpdate_keepsFlags.
Qed.

Lemma animate_settles dt t : booksRelated settles t (animate dt t).
Proof.
  unfold animate. apply booksRelated_fold;
    [apply settles_refl | apply settles_trans
    | intros; apply animateBook_settles].
Qed.

(** *** The toggle and the operations made of it *)

Lemma toggle_sameIsOpen i cb t :
  booksRelated sameIsOpen t (toggleBookAnimationWithCallback i cb t).
Proof.
  unfold toggleBookAnimationWithCallback.
  destruct (lookupBook t i) as [book|] eqn:E.
  2:{ apply booksRelated_same; [apply sameIsOpen_refl | frame]. }
  destruct (animationActions book).
  { apply booksRelated_same; [apply sameIsOpen_refl | frame]. }
  destruct (isHoverPlaying book); destruct (negb _);
    try match goal with
        | |- booksRelated _ _ (set_checkAnimationProgressFn _ ?x) =>
            apply booksRelated_step with (t2 := x); [|reflexivity]
        end;
    (eapply booksRelated_storeBook;
     [apply sameIsOpen_refl | exact E | reflexivity]).
Qed.

Lemma toggle_starts_click_transition i cb t book :
  lookupBook t i = Some book -> animationActions book <> [] ->
  exists book',
    lookupBook (toggleBookAnimationWithCallback i cb t) i = Some book'
    /\ isClickPlaying book' = true /\ isOpen book' = isOpen book.
Proof.
  intros E Hne. unfold toggleBookAnimationWithCallback. rewrite E.
  destruct (animationActions book); [congruence|].
  destruct (isHoverPlaying book); destruct (negb _); eexists;
    (split;
     [erewrite lookupBook_same by reflexivity;
      eapply lookupBook_storeBook_eq; exact E
     |split; reflexivity]).
Qed.

(** A toggle of a book whose timeline exists leaves in it the callback
    of the toggle that built it. *)
Lemma toggle_keeps_the_timeline_callback i cb t book tl :
  lookupBook t i = Some book -> animationActions book <> [] ->
  openTimeline book = Some tl ->
  exists book' tl',
    lookupBook (toggleBookAnimationWithCallback i cb t) i = Some book'
    /\ openTimeline book' = Some tl'
    /\ gsap.onReverseCompleteCallback tl' = gsap.onReverseCompleteCallback tl.
Proof.
  intros E Hne Ht. unfold toggleBookAnimationWithCallback. rewrite E.
  destruct (animationActions book); [congruence|].
  destruct (isHoverPlaying book); simpl; rewrite Ht;
    destruct (negb _); eexists; eexists;
    (split;
     [erewrite lookupBook_same by reflexivity;
      eapply lookupBook_storeBook_eq; exact E
     |split; reflexivity]).
Qed.

Lemma closeAll_sameIsOpen t :
  booksRelated sameIsOpen t (fst (closeAllOpenBooksWithPromise t)).
Proof.
  unfold closeAllOpenBooksWithPromise.
  destruct (bookClosePromise t); simpl;
    [apply booksRelated_refl, sameIsOpen_refl|].
  destruct (negb _); simpl.
  { apply booksRelated_same; [apply sameIsOpen_refl | reflexivity]. }
  eapply booksRelated_step with (t2 := match openBookIndices t with
                                       | [] => _ | _ :: _ => _ end);
    [|reflexivity].
  destruct (openBookIndices t) as [|i l].
  - apply booksRelated_same; [apply sameIsOpen_refl | frame].
  - eapply booksRelated_trans; [apply sameIsOpen_trans| |].
    2:{ apply booksRelated_fold;
          [apply sameIsOpen_refl | apply sameIsOpen_trans
          | intros; apply toggle_sameIsOpen]. }
    apply booksRelated_same; [apply sameIsOpen_refl | reflexivity].
Qed.

Lemma coordination_closeAll t :
  coordination (fst (closeAllOpenBooksWithPromise t)) = coordination t.
Proof.
  unfold closeAllOpenBooksWithPromise.
  destruct (bookClosePromise t); simpl; [reflexivity|].
  destruct (negb _); simpl; [reflexivity|].
  destruct (openBookIndices t) as [|i l]; [frame|].
  frame. rewrite fold_left_preserves; [reflexivity|].
  intros. apply coordination_toggle.
Qed.

Lemma onCanvasClick_sameIsOpen hit t :
  booksRelated sameIsOpen t (onCanvasClick hit t).
Proof.
  unfold onCanvasClick.
  destruct (_ || _); [apply booksRelated_refl, sameIsOpen_refl|].
  destruct hit as [bookIndex|]; [|apply booksRelated_refl, sameIsOpen_refl].
  destruct (lookupBook _ bookIndex) as [book|]; [|apply toggle_sameIsOpen].
  destruct (negb _); [|apply toggle_sameIsOpen].
  eapply booksRelated_trans;
    [apply sameIsOpen_trans | apply toggle_sameIsOpen |].
  apply booksRelated_fold; [apply sameIsOpen_refl | apply sameIsOpen_trans |].
  intros t' i. destruct (lookupBook t' i) as [other|];
    [|apply booksRelated_refl, sameIsOpen_refl].
  destruct (_ && _); [apply toggle_sameIsOpen
                     |apply booksRelated_refl, sameIsOpen_refl].
Qed.

Lemma coordination_onCanvasClick hit t :
  coordination (onCanvasClick hit t) = coordination t.
Proof.
  unfold onCanvasClick.
  destruct (_ || _); [reflexivity|].
  destruct hit as [bookIndex|]; [|reflexivity].
  destruct (lookupBook _ bookIndex) as [book|]; [|frame].
  destruct (negb _); [|frame].
  rewrite fold_left_preserves; [frame|].
  intros t' i. destruct (lookupBook t' i) as [other|]; [|reflexivity].
  destruct (_ && _); frame.
Qed.

(** *** Hover *)

Lemma animateToFraction_keepsFlags i book fraction t :
  lookupBook t i = Some book ->
  booksRelated keepsFlags t (animateToFraction i book fraction t).
Proof.
  intros E. unfold animateToFraction.
  destruct (animationActions book);
    [apply booksRelated_refl, keepsFlags_refl|].
  eapply booksRelated_storeBook; eauto using keepsFlags_refl.
  repeat split. now apply sameTimelineCallback_eq.
Qed.

Lemma setHoveredBook_keepsFlags i t :
  booksRelated keepsFlags t (setHoveredBook i t).
Proof.
  unfold setHoveredBook.
  destruct (lookupBook _ i) as [book|] eqn:E;
    [|apply booksRelated_same; [apply keepsFlags_refl|reflexivity]].
  destruct (_ || _);
    [apply booksRelated_same; [apply keepsFlags_refl|reflexivity]|].
  eapply booksRelated_trans; [apply keepsFlags_trans| |].
  2:{ apply animateToFraction_keepsFlags. exact E. }
  apply booksRelated_same; [apply keepsFlags_refl|reflexivity].
Qed.

Lemma clearHoveredBook_keepsFlags t :
  booksRelated keepsFlags t (clearHoveredBook t).
Proof.
  unfold clearHoveredBook.
  destruct (_ =? _)%Z; [apply booksRelated_refl, keepsFlags_refl|].
  destruct (_ <? _)%Z;
    [apply booksRelated_same; [apply keepsFlags_refl|reflexivity]|].
  destruct (lookupBook t _) as [book|] eqn:E;
    [|apply booksRelated_same; [apply keepsFlags_refl|reflexivity]].
  destruct (_ || _);
    [apply booksRelated_same; [apply keepsFlags_refl|reflexivity]|].
  eapply booksRelated_trans; [apply keepsFlags_trans| |].
  2:{ apply animateToFraction_keepsFlags. exact E. }
  apply booksRelated_same; [apply keepsFlags_refl|reflexivity].
Qed.

Lemma onCanvasMouseMove_keepsFlags hit t :
  booksRelated keepsFlags t (onCanvasMouseMove hit t).
Proof.
  unfold onCanvasMouseMove.
  destruct (negb _); [apply booksRelated_refl, keepsFlags_refl|].
  destruct hit as [i|]; [|apply clearHoveredBook_keepsFlags].
  destruct (_ =? _)%Z; [apply booksRelated_refl, keepsFlags_refl|].
  eapply booksRelated_trans;
    [apply keepsFlags_trans | apply clearHoveredBook_keepsFlags
    | apply setHoveredBook_keepsFlags].
Qed.

Section BookOps.
Context {C : Type} (view : Texture -> C).
Hypothesis view_books : forall v t, view (set_bookInstances v t) = view t.
Hypothesis view_hovered :
  forall v t, view (set_currentHoveredIndex v t) = view t.

Lemma view_storeBook i book t : view (storeBook i book t) = view t.
Proof. apply view_books. Qed.

Lemma view_animateToFraction i book fraction t :
  view (animateToFraction i book fraction t) = view t.
Proof.
  unfold animateToFraction.
  destruct (animationActions book); [reflexivity|apply view_storeBook].
Qed.

Lemma view_setHoveredBook i t : view (setHoveredBook i t) = view t.
Proof.
  unfold setHoveredBook. destruct (lookupBook _ i); [|apply view_hovered].
  destruct (_ || _); rewrite ?view_animateToFraction; apply view_hovered.
Qed.

Lemma view_clearHoveredBook t : view (clearHoveredBook t) = view t.
Proof.
  unfold clearHoveredBook. destruct (_ =? _)%Z; [reflexivity|].
  destruct (if (_ <? _)%Z then _ else _); [|apply view_hovered].
  destruct (_ || _); rewrite ?view_animateToFraction; apply view_hovered.
Qed.

Lemma view_onCanvasMouseMove hit t : view (onCanvasMouseMove hit t) = view t.
Proof.
  unfold onCanvasMouseMove. destruct (negb _); [reflexivity|].
  destruct hit; [|apply view_clearHoveredBook].
  destruct (_ =? _)%Z; [reflexivity|].
  rewrite view_setHoveredBook. apply view_clearHoveredBook.
Qed.

Lemma view_onComplete i t : view (onComplete i t) = view t.
Proof.
  unfold onComplete. destruct (lookupBook t i) as [book|]; [|reflexivity].
  destruct (openTimeline book); [apply view_storeBook|reflexivity].
Qed.
End BookOps.

Lemma coordination_clearHoveredBook t :
  coordination (clearHoveredBook t) = coordination t.
Proof. apply view_clearHoveredBook; reflexivity. Qed.

Lemma coordination_onCanvasMouseMove hit t :
  coordination (onCanvasMouseMove hit t) = coordination t.
Proof. apply view_onCanvasMouseMove; reflexivity. Qed.

(** *** Timeline callbacks *)

Lemma onComplete_keepsFlags i t : booksRelated keepsFlags t (onComplete i t).
Proof.
  unfold onComplete. destruct (lookupBook t i) as [book|] eqn:E;
    [|apply booksRelated_refl, keepsFlags_refl].
  destruct (openTimeline book) as [tl|] eqn:Et;
    [|apply booksRelated_refl, keepsFlags_refl].
  eapply booksRelated_storeBook; [apply keepsFlags_refl | exact E |].
  repeat split. unfold sameTimelineCallback. rewrite Et. now constructor.
Qed.

Lemma onReverseComplete_keepsFlags i t :
  booksRelated keepsFlags t (onReverseComplete i t).
Proof.
  unfold onReverseComplete. destruct (lookupBook t i) as [book|] eqn:E;
    [|apply booksRelated_refl, keepsFlags_refl].
  destruct (openTimeline book) as [tl|] eqn:Et;
    [|apply booksRelated_refl, keepsFlags_refl].
  eapply booksRelated_step; [|apply bookInstances_invoke].
  eapply booksRelated_storeBook; [apply keepsFlags_refl | exact E |].
  repeat split. unfold sameTimelineCallback. rewrite Et. now constructor.
Qed.

Lemma coordination_onComplete i t :
  coordination (onComplete i t) = coordination t.
Proof. apply view_onComplete; reflexivity. Qed.

Lemma coordination_onReverseComplete i t :
  coordination (onReverseComplete i t) = coordination t.
Proof.
  unfold onReverseComplete.
  destruct (lookupBook t i) as [book|]; [|reflexivity].
  destruct (openTimeline book); frame.
Qed.


(** *** The toggle on a missing or clipless book *)

Lemma closedCount_resolve p q t :
  promiseClosedCount q (resolve p t) = promiseClosedCount q t.
Proof.
  unfold promiseClosedCount, resolve.
  destruct (promises t !! p) as [pr|] eqn:E; [|reflexivity].
  assert (Hlt : (p < length (promises t))%nat)
    by (eapply lookup_lt_Some; eauto).
  destruct (resolved pr); simpl;
    (destruct (decide (p = q)) as [->|Hne];
     [rewrite list_lookup_insert_eq by assumption; rewrite E; reflexivity
     |rewrite list_lookup_insert_ne by assumption; reflexivity]).
Qed.

Lemma closedCount_invoke p t pr :
  promises t !! p = Some pr ->
  promiseClosedCount p (invoke (checkAllClosed p) t)
  = Some (S (closedCount pr)).
Proof.
  intros E. simpl. rewrite E.
  assert (Hlt : (p < length (promises t))%nat)
    by (eapply lookup_lt_Some; eauto).
  assert (H1 : promiseClosedCount p
                 (storePromise p (set_closedCount (S (closedCount pr)) pr) t)
               = Some (S (closedCount pr))).
  { unfold promiseClosedCount, storePromise. simpl.
    rewrite list_lookup_insert_eq by assumption. reflexivity. }
  destruct (_ <=? _)%nat; [|exact H1].
  rewrite closedCount_resolve. exact H1.
Qed.

(** C9. When the slot [bookIndex] holds no book (never loaded, failed to
    load, or out of range) or a book without clips, the toggle is the
    call of its callback and nothing else: with no callback the scene is
    unchanged; in every case the books (flags, transforms, timelines)
    and the check function are unchanged; and the callback of a
    close-all is counted exactly once by this call. *)
Theorem toggle_without_clips_only_calls_back
    (t : Texture) (bookIndex : nat) (cb : callback) :
  (lookupBook t bookIndex = None
   \/ exists book,
        lookupBook t bookIndex = Some book /\ animationActions book = []) ->
  toggleBookAnimationWithCallback bookIndex cb t = invoke cb t
  /\ toggleBookAnimationWithCallback bookIndex null_cb t = t
  /\ bookInstances (toggleBookAnimationWithCallback bookIndex cb t)
     = bookInstances t
  /\ checkAnimationProgressFn (toggleBookAnimationWithCallback bookIndex cb t)
     = checkAnimationProgressFn t
  /\ forall p pr,
       cb = checkAllClosed p -> promises t !! p = Some pr ->
       promiseClosedCount p (toggleBookAnimationWithCallback bookIndex cb t)
       = Some (S (closedCount pr)).
Proof.
  intros H.
  assert (E : forall c,
             toggleBookAnimationWithCallback bookIndex c t = invoke c t).
  { intros c. unfold toggleBookAnimationWithCallback.
    destruct H as [-> | (book & -> & ->)]; reflexivity. }
  rewrite !E. conjs.
  - reflexivity.
  - reflexivity.
  - apply bookInstances_invoke.
  - apply checkFn_invoke.
  - intros p pr -> Hp. now apply closedCount_invoke.
Qed.

Section SceneFacts.

Context {M : Math}.

Lemma lookupBook_updateBookPositions progress t i :
  lookupBook (updateBookPositions progress t) i
  = (fun book =>
       if negb (isOpen book) && negb (isClickPlaying book)
       then set_rotation (orbitRotation progress i)
              (set_position
                 (THREE.mkVector3 (fst (place progress i))
                    (snd (place progress i)) (THREE.z (position book)))
                 book)
       else book) <$> lookupBook t i.
Proof.
  unfold lookupBook, updateBookPositions. simpl.
  rewrite list_lookup_imap.
  destruct (bookInstances t !! i) as [[book|]|]; simpl; try reflexivity.
  destruct (place progress i) as [x y]. simpl.
  destruct (_ && _); reflexivity.
Qed.

Lemma updateBookPositions_keepsFlags progress t :
  booksRelated keepsFlags t (updateBookPositions progress t).
Proof.
  intros i. rewrite lookupBook_updateBookPositions.
  destruct (lookupBook t i) as [book|]; constructor.
  destruct (_ && _); repeat split; now apply sameTimelineCallback_eq.
Qed.

Lemma bookInstances_runReaction r t :
  bookInstances (runReaction r t) = bookInstances t.
Proof. destruct r. reflexivity. Qed.

Lemma isClosingFromScroll_runReaction r t :
  isClosingFromScroll (runReaction r t) = isClosingFromScroll t.
Proof. destruct r. reflexivity. Qed.

Lemma bookInstances_runMicrotasks t :
  bookInstances (runMicrotasks t) = bookInstances t.
Proof.
  unfold runMicrotasks.
  rewrite fold_left_preserves; [reflexivity|].
  intros. apply bookInstances_runReaction.
Qed.

Lemma isClosingFromScroll_runMicrotasks t :
  isClosingFromScroll (runMicrotasks t) = isClosingFromScroll t.
Proof.
  unfold runMicrotasks.
  rewrite fold_left_preserves; [reflexivity|].
  intros. apply isClosingFromScroll_runReaction.
Qed.

Lemma onUpdate_sameIsOpen progress t :
  booksRelated sameIsOpen t (onUpdate progress t).
Proof.
  unfold onUpdate. cbv zeta.
  match goal with |- context [updateBookPositions progress ?X] =>
    set (t1 := X) end.
  assert (H1 : booksRelated sameIsOpen t t1).
  { subst t1. destruct (_ && _); [|apply booksRelated_refl, sameIsOpen_refl].
    pose proof (closeAll_sameIsOpen
                  (set_isClosingFromScroll true (set_scrollEnabled false t)))
      as H.
    destruct (closeAllOpenBooksWithPromise _) as [t' p]. simpl in H.
    eapply booksRelated_step; [|apply bookInstances_then].
    eapply booksRelated_trans; [apply sameIsOpen_trans| |exact H].
    apply booksRelated_same; [apply sameIsOpen_refl|reflexivity]. }
  clearbody t1.
  eapply booksRelated_step with (t2 := if negb _ then _ else _);
    [|reflexivity].
  destruct (negb _); [|exact H1].
  eapply booksRelated_step; [|reflexivity].
  eapply booksRelated_trans; [apply sameIsOpen_trans|exact H1|].
  eapply booksRelated_mono; [apply keepsFlags_sameIsOpen|].
  apply updateBookPositions_keepsFlags.
Qed.

Lemma handle_sameIsOpen e t :
  (forall deltaTime, e <> frame deltaTime) ->
  booksRelated sameIsOpen t (handle e t).
Proof.
  intros Hne. destruct e; simpl.
  - destruct (scrollEnabled t);
      [apply onUpdate_sameIsOpen|apply booksRelated_refl, sameIsOpen_refl].
  - destruct (scrollEnabled t);
      [apply closeAll_sameIsOpen|apply booksRelated_refl, sameIsOpen_refl].
  - now elim (Hne deltaTime).
  - apply onCanvasClick_sameIsOpen.
  - eapply booksRelated_mono; [apply keepsFlags_sameIsOpen|].
    apply onCanvasMouseMove_keepsFlags.
  - eapply booksRelated_mono; [apply keepsFlags_sameIsOpen|].
    apply clearHoveredBook_keepsFlags.
  - eapply booksRelated_mono; [apply keepsFlags_sameIsOpen|].
    apply onComplete_keepsFlags.
  - eapply booksRelated_mono; [apply keepsFlags_sameIsOpen|].
    apply onReverseComplete_keepsFlags.
  - unfold positionTransitionComplete.
    destruct (positionTransitions t);
      apply booksRelated_same; solve [apply sameIsOpen_refl|reflexivity].
  - unfold scrollTweenOnUpdate.
    destruct (scrollTweens t);
      apply booksRelated_same; solve [apply sameIsOpen_refl|reflexivity].
  - unfold scrollTweenOnComplete.
    destruct (scrollTweens t);
      apply booksRelated_same; solve [apply sameIsOpen_refl|reflexivity].
Qed.

Lemma step_sameIsOpen e t :
  (forall deltaTime, e <> frame deltaTime) ->
  booksRelated sameIsOpen t (step t e).
Proof.
  intros Hne. eapply booksRelated_step;
    [apply handle_sameIsOpen, Hne|apply bookInstances_runMicrotasks].
Qed.

Lemma step_frame_settles deltaTime t :
  booksRelated settles t (step t (frame deltaTime)).
Proof.
  eapply booksRelated_step;
    [apply animate_settles|apply bookInstances_runMicrotasks].
Qed.


Lemma coordination_handle_book_event e t :
  match e with
  | frame _ | click _ | mouseMove _ | mouseLeave
  | timelineComplete _ | timelineReverseComplete _ | leaveBack => True
  | _ => False
  end ->
  coordination (handle e t) = coordination t.
Proof.
  destruct e; simpl; intros []; auto using coordination_animate,
    coordination_onCanvasClick, coordination_onCanvasMouseMove,
    coordination_clearHoveredBook, coordination_onComplete,
    coordination_onReverseComplete.
  destruct (scrollEnabled t); [apply coordination_closeAll|reflexivity].
Qed.

Lemma onUpdate_while_closing progress t :
  isClosingFromScroll t = true ->
  onUpdate progress t = set_lastProgress progress t.
Proof.
  intros H. unfold onUpdate. rewrite H, andb_false_r. simpl.
  rewrite H. reflexivity.
Qed.

Lemma scrollY_runMicrotasks t : scrollY (runMicrotasks t) = scrollY t.
Proof.
  unfold runMicrotasks.
  rewrite fold_left_preserves; [reflexivity|]. now intros ? [].
Qed.

Lemma isClosingFromScroll_handle e t :
  e <> scrollTweenDone -> isClosingFromScroll t = true ->
  isClosingFromScroll (handle e t) = true.
Proof.
  intros Hne Hf.
  assert (Hc : coordination (handle e t) = coordination t ->
               isClosingFromScroll (handle e t) = true).
  { intros E. apply (f_equal (fun c => fst (fst (fst (fst c))))) in E.
    simpl in E. congruence. }
  destruct e; try (apply Hc, coordination_handle_book_event; exact I);
    clear Hc; simpl.
  - destruct (scrollEnabled t); [|exact Hf].
    now rewrite onUpdate_while_closing.
  - unfold positionTransitionComplete.
    destruct (positionTransitions t); exact Hf.
  - unfold scrollTweenOnUpdate. destruct (scrollTweens t); exact Hf.
  - congruence.
Qed.

Lemma onUpdate_entry progress t :
  Qltb progress (lastProgress t) && isAnyBookOpen t
  && negb (isClosingFromScroll t) = true ->
  onUpdate progress t
  = set_lastProgress progress
      (then_ (snd (closeAllOpenBooksWithPromise
                     (set_isClosingFromScroll true
                        (set_scrollEnabled false t))))
             (recoveryThen progress)
             (fst (closeAllOpenBooksWithPromise
                     (set_isClosingFromScroll true
                        (set_scrollEnabled false t)))))
  /\ isClosingFromScroll (onUpdate progress t) = true
  /\ scrollEnabled (onUpdate progress t) = false.
Proof.
  intros Hc.
  pose proof (coordination_closeAll
                (set_isClosingFromScroll true (set_scrollEnabled false t)))
    as Hco.
  unfold onUpdate. rewrite Hc.
  destruct (closeAllOpenBooksWithPromise _) as [t' p]. simpl in *.
  pose proof (coordination_then p (recoveryThen progress) t') as Hth.
  rewrite Hco in Hth.
  assert (Hf : isClosingFromScroll (then_ p (recoveryThen progress) t')
               = true)
    by exact (f_equal (fun c => fst (fst (fst (fst c)))) Hth).
  assert (He : scrollEnabled (then_ p (recoveryThen progress) t') = false)
    by exact (f_equal (fun c => snd (fst (fst (fst c)))) Hth).
  rewrite Hf. simpl. auto.
Qed.

Lemma onUpdate_steady progress t :
  Qltb progress (lastProgress t) && isAnyBookOpen t
  && negb (isClosingFromScroll t) = false ->
  isClosingFromScroll t = false ->
  onUpdate progress t
  = set_lastProgress progress
      (set_canInteract (Qeq_bool progress 1)
         (updateBookPositions progress t)).
Proof.
  intros Hc Hf. unfold onUpdate. rewrite Hc, Hf. reflexivity.
Qed.

Lemma isAnyBookOpen_spec t :
  isAnyBookOpen t = true
  <-> exists i book, lookupBook t i = Some book /\ isOpen book = true.
Proof.
  unfold isAnyBookOpen, lookupBook. rewrite existsb_exists. split.
  - intros ([book|] & Hin & Ho); [|discriminate].
    apply list_elem_of_In, list_elem_of_lookup in Hin as [i Hi].
    exists i, book. now rewrite Hi.
  - intros (i & book & Hi & Ho).
    destruct (bookInstances t !! i) as [[b|]|] eqn:E; try discriminate.
    exists (Some b). split.
    + apply list_elem_of_In, list_elem_of_lookup. eauto.
    + congruence.
Qed.

(** C3, amended. A scroll update enters the recovery exactly when the
    reported progress is below the last one, some book is Open or
    Closing (its [isOpen] is set) and the flag [isClosingFromScroll] is
    clear. On entry the trigger is disabled and the flag set, the
    close-all is issued in that state, and the reported progress is
    captured in the reaction put on its promise.
    While the flag is set an update only records the progress: no orbit
    placement, no recomputation of [canInteract], no second entry; with
    the flag clear and no entry it places the books and recomputes
    [canInteract]. No event clears the flag but the completion of the
    scroll tween, which leaves the scroll offset at the end of that tween;
    the reaction creates the position transition for the captured
    progress, and the completion of that transition creates the tween
    that ends at the offset of that progress. *)
Theorem scroll_recovery_protocol :
  (forall t progress,
      (isClosingFromScroll t = false
       /\ isClosingFromScroll (onUpdate progress t) = true)
      <-> (progress < lastProgress t
           /\ (exists i book,
                 lookupBook t i = Some book
                 /\ (stateOf book = Open \/ stateOf book = Closing))
           /\ isClosingFromScroll t = false))
  /\ (forall t progress,
        progress < lastProgress t -> isAnyBookOpen t = true ->
        isClosingFromScroll t = false ->
        let entered :=
          set_isClosingFromScroll true (set_scrollEnabled false t) in
        scrollEnabled entered = false
        /\ isClosingFromScroll entered = true
        /\ onUpdate progress t
           = set_lastProgress progress
               (then_ (snd (closeAllOpenBooksWithPromise entered))
                      (recoveryThen progress)
                      (fst (closeAllOpenBooksWithPromise entered)))
        /\ scrollEnabled (onUpdate progress t) = false)
  /\ (forall t progress,
        isClosingFromScroll t = true ->
        onUpdate progress t = set_lastProgress progress t)
  /\ (forall t progress,
        isClosingFromScroll t = false ->
        ~ (progress < lastProgress t /\ isAnyBookOpen t = true) ->
        onUpdate progress t
        = set_lastProgress progress
            (set_canInteract (Qeq_bool progress 1)
               (updateBookPositions progress t)))
  /\ (forall t e,
        isClosingFromScroll t = true ->
        isClosingFromScroll (step t e) = false ->
        e = scrollTweenDone
        /\ exists tw rest,
             scrollTweens t = tw :: rest
             /\ scrollY (step t e) = endScrollY tw)
  /\ (forall t targetProgress,
        exists tweens,
          positionTransitions (runReaction (recoveryThen targetProgress) t)
          = positionTransitions t ++ [mkTransition targetProgress tweens])
  /\ (forall t pt rest,
        positionTransitions t = pt :: rest ->
        scrollTweens (positionTransitionComplete t)
        = scrollTweens t
          ++ [mkScrollTween (scrollY t)
                (triggerStart t
                 + (triggerEnd t - triggerStart t) * pt_targetProgress pt)]).
Proof.
  assert (Hcond : forall t progress,
    Qltb progress (lastProgress t) && isAnyBookOpen t
    && negb (isClosingFromScroll t) = true
    <-> (progress < lastProgress t /\ isAnyBookOpen t = true
         /\ isClosingFromScroll t = false)).
  { intros t progress. rewrite !andb_true_iff, negb_true_iff, Qltb_lt.
    tauto. }
  assert (Hstate : forall t,
    (exists i book,
        lookupBook t i = Some book
        /\ (stateOf book = Open \/ stateOf book = Closing))
    <-> isAnyBookOpen t = true).
  { intros t. rewrite isAnyBookOpen_spec.
    split; intros (i & book & Hi & Ho); exists i, book; (split; [exact Hi|]);
      unfold stateOf in *; destruct (isOpen book), (isClickPlaying book);
      solve [reflexivity | discriminate | auto
            | destruct Ho; discriminate]. }
  conjs.
  - intros t progress. rewrite Hstate. split.
    + intros (Hf & Hf'). apply Hcond.
      destruct (_ && _ && _) eqn:E; [reflexivity|].
      rewrite (onUpdate_steady _ _ E Hf) in Hf'. simpl in Hf'. congruence.
    + intros H. split; [tauto|].
      apply Hcond in H. now apply onUpdate_entry in H.
  - intros t progress H1 H2 H3 entered.
    destruct (onUpdate_entry progress t) as (E & _ & Hs).
    { apply Hcond. auto. }
    subst entered. auto.
  - intros t progress. apply onUpdate_while_closing.
  - intros t progress Hf Hn. apply onUpdate_steady; [|exact Hf].
    destruct (_ && _ && _) eqn:E; [|reflexivity].
    apply Hcond in E. tauto.
  - intros t e Hf Hf'. unfold step in *.
    rewrite isClosingFromScroll_runMicrotasks in Hf'.
    assert (e = scrollTweenDone \/ e <> scrollTweenDone) as [->|Hne]
      by (destruct e; solve [left; reflexivity | right; discriminate]).
    + split; [reflexivity|]. rewrite scrollY_runMicrotasks. simpl in *.
      unfold scrollTweenOnComplete in *.
      destruct (scrollTweens t) as [|tw rest]; [congruence|].
      eauto.
    + rewrite isClosingFromScroll_handle in Hf' by assumption. discriminate.
  - intros t targetProgress. eexists. reflexivity.
  - intros t pt rest E. unfold positionTransitionComplete. rewrite E.
    reflexivity.
Qed.

(** C10. The check changes [isOpen] of a book only when the book is in a
    click transition and one of its clips has crossed a click limit, and
    it then clears [isClickPlaying]. Of all the events of the machine
    only a frame changes [isOpen] of a book, and after such a frame
    [isClickPlaying] is clear. The toggle of a book that has clips sets
    [isClickPlaying] and keeps [isOpen]. Hence a book whose
    [isClickPlaying] is clear is Closed or Open, and the books that are
    Opening or Closing are those whose [isClickPlaying] is set. *)
Theorem isOpen_changes_only_when_a_click_transition_settles :
  (forall book,
      isOpen (checkAnimationProgress book) <> isOpen book ->
      isClickPlaying book = true
      /\ isClickPlaying (checkAnimationProgress book) = false
      /\ Exists crossesClickLimit (animationActions book))
  /\ (forall t e i book book',
        lookupBook t i = Some book -> lookupBook (step t e) i = Some book' ->
        isOpen book' <> isOpen book ->
        (exists deltaTime, e = frame deltaTime)
        /\ isClickPlaying book = true /\ isClickPlaying book' = false)
  /\ (forall t i cb book,
        lookupBook t i = Some book -> animationActions book <> [] ->
        exists book',
          lookupBook (toggleBookAnimationWithCallback i cb t) i = Some book'
          /\ isClickPlaying book' = true /\ isOpen book' = isOpen book)
  /\ (forall book,
        isClickPlaying book = false
        <-> (stateOf book = Closed \/ stateOf book = Open))
  /\ (forall book,
        isClickPlaying book = true
        <-> (stateOf book = Opening \/ stateOf book = Closing)).
Proof.
  conjs.
  - intros book Hne.
    destruct (checkAnimationProgress_flags book) as (_ & _ & [(? & _)|H]);
      [congruence|exact H].
  - intros t e i book book' Hb Hb' Hne.
    assert ((exists deltaTime, e = frame deltaTime)
            \/ forall deltaTime, e <> frame deltaTime) as [(dt & ->)|Hnf]
      by (destruct e; solve [left; eauto | right; discriminate]).
    + split; [eauto|].
      pose proof (step_frame_settles dt t) as Hs.
      eapply booksRelated_lookup in Hs; [|exact Hb|exact Hb'].
      destruct Hs as ([(? & _)|?] & _); [congruence|assumption].
    + pose proof (step_sameIsOpen e t Hnf) as Hs.
      eapply booksRelated_lookup in Hs; [|exact Hb|exact Hb'].
      contradiction.
  - intros t i cb book. apply toggle_starts_click_transition.
  - intros book. unfold stateOf.
    destruct (isOpen book), (isClickPlaying book);
      split; intros H; try discriminate; auto;
      destruct H; discriminate.
  - intros book. unfold stateOf.
    destruct (isOpen book), (isClickPlaying book);
      split; intros H; try discriminate; auto;
      destruct H; discriminate.
Qed.

(** C4, amended. An orbit update leaves the book of a slot exactly as it
    was when [isOpen] or [isClickPlaying] is set. Otherwise it writes the
    position (the placement for [x] and [y], [z] kept) and the orbit
    rotation, and nothing else of the book. So the update changes the
    transform of a book only when the book is Closed: it never writes a
    transform that the book's own click transition owns. *)
Theorem orbit_update_writes_only_books_not_under_click_control
    (progress : Q) (t : Texture) (i : nat) (book : bookInstance) :
  (i < books_length)%nat ->
  lookupBook t i = Some book ->
  exists book',
    lookupBook (updateBookPositions progress t) i = Some book'
    /\ (isOpen book || isClickPlaying book = true -> book' = book)
    /\ (isOpen book || isClickPlaying book = false ->
        position book'
        = THREE.mkVector3 (fst (place progress i)) (snd (place progress i))
            (THREE.z (position book))
        /\ rotation book'
           = THREE.mkVector3 (progress * degToRad 90) 0
               (progress
                * degToRad (-28 - inject_Z (Z.of_nat i) * 20))
        /\ book' = set_rotation (rotation book')
                     (set_position (position book') book))
    /\ (position book' <> position book \/ rotation book' <> rotation book ->
        stateOf book = Closed).
Proof.
  intros _ Hb. rewrite lookupBook_updateBookPositions, Hb. simpl.
  eexists. split; [reflexivity|].
  unfold stateOf.
  destruct (isOpen book), (isClickPlaying book); simpl;
    conjs; try discriminate; try tauto; try reflexivity;
    intros; conjs; reflexivity.
Qed.

(** C7, amended. The positions computed for a progress are the
    placement of each index and depend on nothing else: any two scenes
    give the same list. The computation writes the field
    [lastCalculatedPositions], set to the list it returns, and no other
    field. The orbit update gives a book it places the same [x] and [y].
    The placement is the point of the ellipse of the index at the two
    interpolated angles, which at progress 0 are both the start angle
    and at progress 1 are the end angles for [x] and for [y]. *)
Theorem placement_depends_only_on_progress_and_index
    (progress : Q) (t : Texture) :
  snd (calculateBookPositionsForProgress progress t)
  = map (place progress) (seq 0 books_length)
  /\ (forall t', snd (calculateBookPositionsForProgress progress t')
                 = snd (calculateBookPositionsForProgress progress t))
  /\ fst (calculateBookPositionsForProgress progress t)
     = set_lastCalculatedPositions
         (snd (calculateBookPositionsForProgress progress t)) t
  /\ (forall i book,
        lookupBook t i = Some book ->
        isOpen book || isClickPlaying book = false ->
        exists book',
          lookupBook (updateBookPositions progress t) i = Some book'
          /\ (THREE.x (position book'), THREE.y (position book'))
             = place progress i)
  /\ (forall i,
        place progress i
        = ellipsePoint i
            (angleX progress i) (angleY progress i))
  /\ (forall i,
        angleX 0 i == start (anglesOf i)
        /\ angleY 0 i == start (anglesOf i)
        /\ angleX 1 i == endX (anglesOf i)
        /\ angleY 1 i == endY (anglesOf i)).
Proof.
  conjs; try reflexivity.
  - intros i book Hb Hc. rewrite lookupBook_updateBookPositions, Hb. simpl.
    eexists. split; [reflexivity|].
    apply orb_false_iff in Hc as [-> ->].
    symmetry. apply surjective_pairing.
  - intros i. unfold angleX, angleY. conjs; ring.
Qed.


(** *** A close-all that can no longer complete *)

Lemma runCheck_quiet f i t :
  quietCheck f ->
  promiseState (runCheck f i t) = promiseState t
  /\ (quietCheck (checkAnimationProgressFn t) ->
      quietCheck (checkAnimationProgressFn (runCheck f i t))).
Proof.
  revert t. induction f as [|bookIndex cb f IH]; intros t Hq; simpl.
  - destruct (lookupBook t i); auto.
  - destruct Hq as [-> Hq]. specialize (IH t Hq).
    destruct (lookupBook _ bookIndex) as [book|]; [|exact IH].
    destruct (_ && _); [|exact IH].
    simpl. split; [apply IH|auto].
Qed.

Lemma animate_quiet deltaTime t :
  quietCheck (checkAnimationProgressFn t) ->
  promiseState (animate deltaTime t) = promiseState t
  /\ quietCheck (checkAnimationProgressFn (animate deltaTime t)).
Proof.
  unfold animate.
  apply (fold_left_related
           (fun a b => quietCheck (checkAnimationProgressFn a) ->
                       promiseState b = promiseState a
                       /\ quietCheck (checkAnimationProgressFn b))).
  - auto.
  - intros a b c Hab Hbc Hq. destruct (Hab Hq) as (? & Hq').
    destruct (Hbc Hq'). split; [congruence|assumption].
  - intros a i Hq. unfold animateBook.
    destruct (lookupBook a i) as [book|]; [|auto].
    destruct (_ || _); [|auto].
    destruct (runCheck_quiet
                (checkAnimationProgressFn
                   (storeBook i (mixerUpdate deltaTime book) a))
                i (storeBook i (mixerUpdate deltaTime book) a) Hq).
    auto.
Qed.


Lemma stalled_preserved ps t t' :
  promiseState t' = promiseState t ->
  (quietCheck (checkAnimationProgressFn t) ->
   quietCheck (checkAnimationProgressFn t')) ->
  booksRelated settles t t' ->
  coordination t' = coordination t ->
  stalled ps t -> stalled ps t'.
Proof.
  intros Hp Hq Hb Hc [S1 S2 S3 S4 S5 S6 S7 S8].
  injection Hp as Hp1 Hp2. injection Hc as Hc1 Hc2 Hc3 Hc4 Hc5.
  constructor; try congruence.
  - auto.
  - intros i book' Hb'. specialize (Hb i). rewrite Hb' in Hb.
    inversion Hb as [book ? (_ & Ht) Hbk|]; subst.
    symmetry in Hbk. specialize (S3 i book Hbk).
    intros tl' Htl'. unfold sameTimelineCallback in Ht.
    rewrite Htl' in Ht. inversion Ht as [tl ? Hcb Htl|]; subst.
    rewrite Hcb. apply S3. congruence.
Qed.

Lemma stalled_handle ps e t : stalled ps t -> stalled ps (handle e t).
Proof.
  intros S. pose proof S as [S1 S2 S3 S4 S5 S6 S7 S8].
  destruct e; simpl.
  - now rewrite S5.
  - now rewrite S5.
  - destruct (animate_quiet deltaTime t S2) as (Hp & Hq).
    eapply stalled_preserved; eauto using animate_settles,
      coordination_animate.
  - unfold onCanvasClick. now rewrite S4, orb_true_r.
  - eapply stalled_preserved; [| | | |exact S].
    + apply view_onCanvasMouseMove; reflexivity.
    + now rewrite (view_onCanvasMouseMove checkAnimationProgressFn)
        by reflexivity.
    + eapply booksRelated_mono; [apply keepsFlags_settles|].
      apply onCanvasMouseMove_keepsFlags.
    + apply coordination_onCanvasMouseMove.
  - eapply stalled_preserved; [| | | |exact S].
    + apply view_clearHoveredBook; reflexivity.
    + now rewrite (view_clearHoveredBook checkAnimationProgressFn)
        by reflexivity.
    + eapply booksRelated_mono; [apply keepsFlags_settles|].
      apply clearHoveredBook_keepsFlags.
    + apply coordination_clearHoveredBook.
  - eapply stalled_preserved; [| | | |exact S].
    + apply view_onComplete; reflexivity.
    + now rewrite (view_onComplete checkAnimationProgressFn)
        by reflexivity.
    + eapply booksRelated_mono; [apply keepsFlags_settles|].
      apply onComplete_keepsFlags.
    + apply coordination_onComplete.
  - eapply stalled_preserved; [| | | |exact S].
    + unfold onReverseComplete.
      destruct (lookupBook t bookIndex) as [book|] eqn:E; [|reflexivity].
      destruct (openTimeline book) as [tl|] eqn:Et; [|reflexivity].
      rewrite (S3 _ _ E tl Et). reflexivity.
    + unfold onReverseComplete.
      destruct (lookupBook t bookIndex) as [book|] eqn:E; [|auto].
      destruct (openTimeline book) as [tl|] eqn:Et; [|auto].
      rewrite (S3 _ _ E tl Et). auto.
    + eapply booksRelated_mono; [apply keepsFlags_settles|].
      apply onReverseComplete_keepsFlags.
    + apply coordination_onReverseComplete.
  - unfold positionTransitionComplete. now rewrite S6.
  - unfold scrollTweenOnUpdate. now rewrite S7.
  - unfold scrollTweenOnComplete. now rewrite S7.
Qed.

Lemma stalled_step ps e t : stalled ps t -> stalled ps (step t e).
Proof.
  intros S. apply (stalled_handle ps e) in S.
  destruct S as [S1 S2 S3 S4 S5 S6 S7 S8].
  unfold step, runMicrotasks.
  rewrite S8. constructor; first [assumption | reflexivity].
Qed.

Lemma timelinesQuiet_spec t :
  timelinesQuiet t = true ->
  forall i book, lookupBook t i = Some book -> nullTimelineCallback book.
Proof.
  unfold timelinesQuiet, lookupBook. intros H i book Hb tl Htl.
  destruct (bookInstances t !! i) as [[b|]|] eqn:E; try discriminate.
  injection Hb as ->.
  assert (Hin : In (Some book) (bookInstances t))
    by (apply list_elem_of_In, list_elem_of_lookup; eauto).
  rewrite forallb_forall in H. apply H in Hin. simpl in Hin.
  rewrite Htl in Hin.
  destruct (gsap.onReverseCompleteCallback tl); [reflexivity|discriminate].
Qed.

Lemma stalled_run ps es : forall t, stalled ps t -> stalled ps (run es t).
Proof.
  induction es as [|e es IH]; intros t S; simpl; [exact S|].
  apply IH, stalled_step, S.
Qed.


(** *** The claims that are run on concrete scenes *)

(** C1 (the code departs from it). Books 0 and 1 are both Open when the
    scroll reversal issues the close-all, which counts on two
    completions. Book 0 settles first: the check function installed for
    it puts the class method back, dropping the one installed for book 1,
    so that book 1 settles uncounted. The count stays at 1 of 2 and,
    whatever happens afterwards, the promise is never resolved and the
    scene stays in the recovery with the scroll trigger disabled. A
    second request made meanwhile is handed the same promise. With one
    book open the same steps resolve the promise, once, after one
    completion. *)
Theorem close_all_of_two_open_books_never_resolves :
  let issued := run reverseWithTwoOpen fourBooks in
  let closed := run twoBooksClosed fourBooks in
  statesOf (run openTwoBooks fourBooks)
  = [Some Open; Some Open; Some Closed; Some Closed]
  /\ bookClosePromise issued = Some 0%nat
  /\ promises issued = [mkPromise 2 0 0 false [recoveryThen 0.5]]
  /\ closeAllOpenBooksWithPromise issued = (issued, 0%nat)
  /\ statesOf closed = [Some Closed; Some Closed; Some Closed; Some Closed]
  /\ checkAnimationProgressFn closed = originalCheck
  /\ promises (run (reverseWithOneOpen ++ [frame 1]) fourBooks)
     = [mkPromise 1 1 1 true []]
  /\ forall es,
       promises (run es closed) = [mkPromise 2 1 0 false [recoveryThen 0.5]]
       /\ isClosingFromScroll (run es closed) = true
       /\ scrollEnabled (run es closed) = false.
Proof.
  cbv zeta. do 7 (split; [vm_compute; reflexivity|]).
  intros es.
  assert (S : stalled [mkPromise 2 1 0 false [recoveryThen 0.5]]
                (run twoBooksClosed fourBooks)).
  { constructor.
    - vm_compute; reflexivity.
    - replace (checkAnimationProgressFn (run twoBooksClosed fourBooks))
        with originalCheck by (vm_compute; reflexivity).
      exact I.
    - apply timelinesQuiet_spec. vm_compute; reflexivity.
    - vm_compute; reflexivity.
    - vm_compute; reflexivity.
    - vm_compute; reflexivity.
    - vm_compute; reflexivity.
    - vm_compute; reflexivity. }
  apply (stalled_run _ es) in S. destruct S. auto.
Qed.

(** C2 (the code departs from it). Both books are closed by toggles that
    carry the callback of the same close-all; their timelines were built
    by the clicks that opened them, with no callback. Book 0 settles and
    its callback runs; book 1 settles a second later and its callback
    does not run, neither at the check nor when its timeline completes
    in reverse. The defect is that of C1. *)
Theorem second_closing_callback_is_dropped :
  let closing := run closeUnequal unequalBooks in
  let first := step closing (frame 1) in
  let second := step first (frame 1) in
  let done :=
    run [timelineReverseComplete 0%nat; timelineReverseComplete 1%nat]
        second in
  checkAnimationProgressFn closing
  = patchedCheck 1 (checkAllClosed 0)
      (patchedCheck 0 (checkAllClosed 0) originalCheck)
  /\ statesOf closing = [Some Closing; Some Closing; Some Closed; Some Closed]
  /\ promiseClosedCount 0 closing = Some 0%nat
  /\ statesOf first = [Some Closed; Some Closing; Some Closed; Some Closed]
  /\ promiseClosedCount 0 first = Some 1%nat
  /\ checkAnimationProgressFn first = originalCheck
  /\ statesOf second = [Some Closed; Some Closed; Some Closed; Some Closed]
  /\ promiseClosedCount 0 second = Some 1%nat
  /\ statesOf done = [Some Closed; Some Closed; Some Closed; Some Closed]
  /\ promiseClosedCount 0 done = Some 1%nat.
Proof. cbv zeta. evaluate. Qed.

(** C5 (the code departs from it). Book 0 has two clips of one second;
    it is opening and the mixer has brought both to 0.95, past the
    forward limit 0.9. The check pauses the first clip at 0.9 and clears
    [isClickPlaying]; the second clip is then no longer examined and
    stays unpaused at 0.95, above the limit, in a book that is Open. *)
Theorem check_skips_clips_after_first_crossing :
  let before := run [scrollUpdate 1; click (Some 0%nat)] twoClipBooks in
  let after := step before (frame 0.95) in
  match lookupBook before 0 with
  | Some book =>
      isClickPlaying (mixerUpdate 0.95 book) = true
      /\ Forall crossesClickLimit (animationActions (mixerUpdate 0.95 book))
      /\ lookupBook after 0
         = Some (checkAnimationProgress (mixerUpdate 0.95 book))
  | None => False
  end
  /\ match clipsOf 0 after with
     | [a1; a2] =>
         THREE.paused (action a1) = true
         /\ THREE.time (action a1) == originalDuration a1 * clickPlayPercentage
         /\ THREE.paused (action a2) = false
         /\ 0 < THREE.timeScale (action a2)
         /\ originalDuration a2 * clickPlayPercentage < THREE.time (action a2)
     | _ => False
     end
  /\ (stateOf <$> lookupBook after 0) = Some Open.
Proof.
  cbv zeta. vm_compute. conjs; try reflexivity.
  repeat constructor; congruence.
Qed.

(** C6 (the code departs from it). The recovery is in flight and
    [canInteract] still holds from the bottom of the scroll range. A
    click is ignored, as the claim says; a mouse move over book 2 is
    routed: the hovered index changes and the hover animation of book 2
    starts. *)
Theorem hover_is_routed_during_recovery :
  let t := run reverseWithOneOpen fourBooks in
  let hovered := step t (mouseMove (Some 2%nat)) in
  canInteract t = true
  /\ isClosingFromScroll t = true
  /\ promises t = [mkPromise 1 0 0 false [recoveryThen 0.5]]
  /\ step t (click (Some 2%nat)) = t
  /\ currentHoveredIndex t = (-1)%Z
  /\ currentHoveredIndex hovered = 2%Z
  /\ (isHoverPlaying <$> lookupBook t 2) = Some false
  /\ (isHoverPlaying <$> lookupBook hovered 2) = Some true.
Proof. cbv zeta. evaluate. Qed.

(** C8 (the code departs from it). Book 1 is clicked while book 0,
    clicked just before, is still Opening: the scan after the primary
    toggle looks at [isOpen] only and leaves book 0 alone. When the
    transitions have settled, books 0 and 1 are both Open. *)
Theorem click_while_another_book_opens_leaves_two_open :
  let opening := run [scrollUpdate 1; click (Some 0%nat)] fourBooks in
  let settled := run openTwoBooks fourBooks in
  statesOf opening = [Some Opening; Some Closed; Some Closed; Some Closed]
  /\ canInteract opening = true
  /\ isClosingFromScroll opening = false
  /\ statesOf (step opening (click (Some 1%nat)))
     = [Some Opening; Some Opening; Some Closed; Some Closed]
  /\ statesOf settled = [Some Open; Some Open; Some Closed; Some Closed]
  /\ statesOf (run [timelineComplete 0%nat; timelineComplete 1%nat; frame 1]
                 settled)
     = [Some Open; Some Open; Some Closed; Some Closed].
Proof. cbv zeta. evaluate. Qed.

End SceneFacts.

(** * The machine as a whole *)

(** ** What every reachable scene satisfies *)

Lemma Qle_bool_false a b : Qle_bool a b = false <-> b < a.
Proof.
  split.
  - intros H. apply Qnot_le_lt. intros Hle. apply Qle_bool_iff in Hle.
    congruence.
  - intros H. destruct (Qle_bool a b) eqn:E; [|reflexivity].
    apply Qle_bool_iff in E. lra.
Qed.

Lemma Qltb_false a b : Qltb a b = false <-> b <= a.
Proof.
  unfold Qltb. rewrite negb_false_iff. apply Qle_bool_iff.
Qed.

Ltac boolprops :=
  repeat match goal with
  | H : _ && _ = true |- _ => apply andb_true_iff in H as [? ?]
  | H : _ && _ = false |- _ => apply andb_false_iff in H
  | H : Qltb _ _ = true |- _ => apply Qltb_lt in H
  | H : Qltb _ _ = false |- _ => apply Qltb_false in H
  | H : Qle_bool _ _ = true |- _ => apply Qle_bool_iff in H
  | H : Qle_bool _ _ = false |- _ => apply Qle_bool_false in H
  | H : _ \/ _ |- _ => destruct H
  end.

Ltac branches :=
  repeat match goal with
  | |- context [if ?c then _ else _] => destruct c eqn:?; simpl
  end.

Lemma fold_left_invariant {A B} (P : A -> Prop) (f : A -> B -> A) l :
  (forall a b, P a -> P (f a b)) -> forall a, P a -> P (fold_left f l a).
Proof.
  intros Hf. induction l as [|b l IH]; intros a Ha; simpl; auto.
Qed.

(** *** The mixer and the check on one clip *)

Lemma updateAction_range dt d a :
  0 <= dt -> 0 <= THREE.time a -> THREE.time a <= d ->
  THREE.timeScale (THREE.updateAction dt d a) = THREE.timeScale a
  /\ 0 <= THREE.time (THREE.updateAction dt d a)
  /\ THREE.time (THREE.updateAction dt d a) <= d
  /\ (THREE.timeScale a <= 0 ->
      THREE.time (THREE.updateAction dt d a) <= THREE.time a).
Proof.
  intros Hdt Ht Hd. unfold THREE.updateAction.
  destruct (_ || _); [repeat split; auto; lra|].
  destruct (Qle_bool d _) eqn:E1; simpl.
  - apply Qle_bool_iff in E1. repeat split; try lra. intros Hs. nra.
  - apply Qle_bool_false in E1.
    destruct (Qltb _ 0) eqn:E2; simpl.
    + repeat split; auto; lra.
    + apply Qltb_false in E2. repeat split; auto; try lra. intros Hs. nra.
Qed.

Lemma checkAction_duration book a :
  originalDuration (snd (checkAction book a)) = originalDuration a.
Proof. unfold checkAction. branches; reflexivity. Qed.

Lemma checkAction_bounds book a :
  clipInBounds a -> clipInBounds (snd (checkAction book a)).
Proof.
  unfold clipInBounds, checkAction, clickPlayPercentage, hoverPlayPercentage.
  intros [H0 Hd]. branches; split; lra.
Qed.

Lemma checkAction_range book a :
  isClickPlaying book = true \/ isHoverPlaying book = true ->
  clipInBounds a ->
  (THREE.timeScale (action a) <= 0 ->
   THREE.time (action a) <= originalDuration a * clickPlayPercentage) ->
  THREE.time (action (snd (checkAction book a)))
  <= originalDuration a * clickPlayPercentage.
Proof.
  unfold clipInBounds, checkAction, clickPlayPercentage, hoverPlayPercentage.
  intros Hp [Ht Hd] Hs.
  destruct (isClickPlaying book) eqn:Ec, (isHoverPlaying book) eqn:Eh;
    try (destruct Hp; discriminate); simpl;
    branches; boolprops;
    try (assert (Hs' : THREE.timeScale (action a) <= 0) by lra;
         specialize (Hs Hs'));
    lra.
Qed.

Lemma checkAction_hoverExclusive book a :
  hoverExclusive book -> hoverExclusive (fst (checkAction book a)).
Proof.
  unfold hoverExclusive, checkAction. intros H.
  destruct (isClickPlaying book) eqn:Ec, (isHoverPlaying book) eqn:Eh;
    try (destruct (H eq_refl); discriminate); simpl;
    branches;
    rewrite ?Ec, ?Eh in *; simpl; try discriminate; auto;
    intros Hh; simpl in Hh; rewrite ?Eh in Hh; try discriminate;
    rewrite ?Ec; auto; congruence.
Qed.

Lemma checkActions_hoverExclusive l : forall book,
  hoverExclusive book -> hoverExclusive (fst (checkActions book l)).
Proof.
  induction l as [|a l IH]; intros book H; simpl; [exact H|].
  pose proof (checkAction_hoverExclusive book a H) as H1.
  destruct (checkAction book a) as [book1 a1]. simpl in H1.
  specialize (IH book1 H1).
  destruct (checkActions book1 l) as [book2 l2]. exact IH.
Qed.

Lemma checkActions_clips l : forall book,
  Forall clipInBounds l ->
  Forall clipInBounds (snd (checkActions book l))
  /\ (snd (checkActions book l) <> [] <-> l <> [])
  /\ match l with
     | a :: _ =>
         head (snd (checkActions book l)) = Some (snd (checkAction book a))
     | [] => True
     end.
Proof.
  induction l as [|a l IH]; intros book Hl; simpl.
  - repeat split; auto.
  - pose proof (checkAction_bounds book a (List.Forall_inv Hl)) as Hb.
    destruct (checkAction book a) as [book1 a1]. simpl in Hb.
    destruct (IH book1 (List.Forall_inv_tail Hl)) as (IHb & _).
    destruct (checkActions book1 l) as [book2 l2]. simpl in *.
    repeat split; try congruence. constructor; assumption.
Qed.

Lemma checkAnimationProgress_clips book :
  Forall clipInBounds (animationActions book) ->
  Forall clipInBounds (animationActions (checkAnimationProgress book))
  /\ (animationActions (checkAnimationProgress book) <> []
      <-> animationActions book <> [])
  /\ match animationActions book with
     | a :: _ =>
         head (animationActions (checkAnimationProgress book))
         = Some (snd (checkAction book a))
     | [] => True
     end.
Proof.
  unfold checkAnimationProgress. intros Hl.
  pose proof (checkActions_clips (animationActions book) book Hl) as H.
  destruct (checkActions book (animationActions book)) as [book' l'].
  exact H.
Qed.

Lemma checkAnimationProgress_hoverExclusive book :
  hoverExclusive book -> hoverExclusive (checkAnimationProgress book).
Proof.
  unfold checkAnimationProgress. intros H.
  pose proof (checkActions_hoverExclusive (animationActions book) book H) as H'.
  destruct (checkActions book (animationActions book)) as [book' l'].
  exact H'.
Qed.

(** *** A frame on a playing book *)

Lemma frame_soundBook dt i book :
  0 <= dt ->
  isClickPlaying book = true \/ isHoverPlaying book = true ->
  soundBook i book ->
  soundBook i (checkAnimationProgress (mixerUpdate dt book)).
Proof.
  intros Hdt Hp [Si Sh St Sc Sd Sf].
  remember (mixerUpdate dt book) as moved eqn:Em.
  assert (Hm : index moved = index book /\ isOpen moved = isOpen book
               /\ isClickPlaying moved = isClickPlaying book
               /\ isHoverPlaying moved = isHoverPlaying book
               /\ openTimeline moved = openTimeline book)
    by (subst moved; repeat split; reflexivity).
  destruct Hm as (Mi & Mo & Mc & Mh & Mt).
  assert (Hmb : Forall clipInBounds (animationActions moved)).
  { subst moved. unfold mixerUpdate. simpl.
    apply List.Forall_map. eapply List.Forall_impl; [|exact Sd].
    intros a [H0 Hd]. unfold clipInBounds. simpl.
    destruct (updateAction_range dt (originalDuration a) (action a)
                Hdt H0 Hd) as (_ & ? & ? & _).
    split; assumption. }
  assert (Hmn : animationActions moved <> [] <-> animationActions book <> []).
  { subst moved. unfold mixerUpdate. simpl.
    destruct (animationActions book); simpl; split; congruence. }
  destruct (checkAnimationProgress_flags moved) as (Ht & Hi & Hf).
  destruct (checkAnimationProgress_clips moved Hmb) as (Hb & Hn & Hh).
  rewrite Mt in Ht. rewrite Mi in Hi. rewrite Mo, Mc in Hf.
  rewrite Hmn in Hn.
  constructor.
  - rewrite Hi. exact Si.
  - intros Hh'.
    assert (Hx : hoverExclusive (checkAnimationProgress moved)).
    { apply checkAnimationProgress_hoverExclusive. intros E.
      rewrite Mh in E. rewrite Mo, Mc.
      destruct (Sh E) as (? & ? & _). auto. }
    destruct (Hx Hh') as (? & ?). repeat split; auto.
    apply Hn.
    destruct Hf as [(Ho & Hc)|(Hc & _)].
    + destruct Hp as [Hp|Hp].
      * congruence.
      * apply (Sh Hp).
    + apply St. right. exact Hc.
  - intros Ho. rewrite Ht. rewrite Hn.
    destruct Hf as [(Ho' & Hc')|(Hc & _)].
    + apply St. rewrite <- Ho', <- Hc'. exact Ho.
    + apply St. right. exact Hc.
  - intros tl Htl. rewrite Ht in Htl. exact (Sc tl Htl).
  - exact Hb.
  - destruct (animationActions book) as [|a l] eqn:Ea.
    + assert (animationActions (checkAnimationProgress moved) = []) as ->;
        [|exact I].
      destruct (animationActions (checkAnimationProgress moved));
        [reflexivity|].
      exfalso. apply (proj1 Hn); congruence.
    + assert (Em' : animationActions moved
                    = mkAnimObj
                        (THREE.updateAction dt (originalDuration a) (action a))
                        (originalDuration a)
                      :: map (fun a => mkAnimObj
                                (THREE.updateAction dt (originalDuration a)
                                   (action a))
                                (originalDuration a)) l).
      { subst moved. unfold mixerUpdate. simpl. rewrite Ea. reflexivity. }
      rewrite Em' in Hh.
      destruct (animationActions (checkAnimationProgress moved)) as [|a' l'];
        [exact I|].
      simpl in Hh. injection Hh as ->.
      destruct (List.Forall_inv Sd) as [Sf0 Sfd]. simpl in Sf.
      destruct (updateAction_range dt (originalDuration a) (action a)
                  Hdt Sf0 Sfd) as (Hts & Hm0 & Hmd & Hm1).
      simpl. rewrite checkAction_duration. simpl.
      apply (checkAction_range moved
               (mkAnimObj
                  (THREE.updateAction dt (originalDuration a) (action a))
                  (originalDuration a))); simpl.
      * rewrite Mc, Mh. exact Hp.
      * split; assumption.
      * intros Hs. rewrite Hts in Hs. specialize (Hm1 Hs). lra.
Qed.

(** *** The scene *)

Lemma soundScene_same t t' :
  bookInstances t' = bookInstances t -> soundScene t -> soundScene t'.
Proof.
  intros E [Hlen H]. split; [now rewrite E|].
  intros i book Hi. rewrite (lookupBook_same _ _ i E) in Hi. auto.
Qed.

Lemma soundScene_storeBook t i book' :
  soundScene t -> soundBook i book' -> soundScene (storeBook i book' t).
Proof.
  intros [Hlen H] Hb. split.
  - unfold storeBook. simpl. rewrite length_insert. exact Hlen.
  - intros j b Hj. destruct (decide (i = j)) as [<-|Hne].
    + unfold lookupBook, storeBook in Hj. simpl in Hj.
      destruct (decide (i < length (bookInstances t))%nat).
      * rewrite list_lookup_insert_eq in Hj by assumption. congruence.
      * rewrite list_insert_ge in Hj by lia. apply H. exact Hj.
    + rewrite lookupBook_storeBook_ne in Hj by assumption. auto.
Qed.

Lemma bookInstances_runCheck f i t :
  bookInstances (runCheck f i t)
  = match lookupBook t i with
    | Some checkBook =>
        <[i := Some (checkAnimationProgress checkBook)]> (bookInstances t)
    | None => bookInstances t
    end.
Proof.
  revert t. induction f as [|bookIndex cb f IH]; intros t; simpl.
  - destruct (lookupBook t i); reflexivity.
  - destruct (lookupBook (runCheck f i t) bookIndex) as [book|]; [|apply IH].
    destruct (_ && _); [|apply IH].
    rewrite bookInstances_invoke. simpl. apply IH.
Qed.

Lemma bookInstances_animateBook dt t i :
  bookInstances (animateBook dt t i)
  = match lookupBook t i with
    | Some book =>
        if isClickPlaying book || isHoverPlaying book
        then <[i := Some (checkAnimationProgress (mixerUpdate dt book))]>
               (bookInstances t)
        else bookInstances t
    | None => bookInstances t
    end.
Proof.
  unfold animateBook. destruct (lookupBook t i) as [book|] eqn:E;
    [|reflexivity].
  destruct (_ || _); [|reflexivity].
  rewrite bookInstances_runCheck.
  rewrite (lookupBook_storeBook_eq _ _ _ _ E).
  unfold storeBook. simpl. apply list_insert_insert_eq.
Qed.

Lemma soundScene_animateBook dt t i :
  0 <= dt -> soundScene t -> soundScene (animateBook dt t i).
Proof.
  intros Hdt Hs.
  destruct (lookupBook t i) as [book|] eqn:E.
  - destruct (isClickPlaying book || isHoverPlaying book) eqn:Ep.
    + apply (soundScene_same
               (storeBook i (checkAnimationProgress (mixerUpdate dt book)) t)).
      * rewrite bookInstances_animateBook, E, Ep. reflexivity.
      * apply soundScene_storeBook; [exact Hs|].
        apply frame_soundBook; [exact Hdt| |exact (proj2 Hs _ _ E)].
        apply orb_true_iff in Ep. exact Ep.
    + apply (soundScene_same t); [|exact Hs].
      rewrite bookInstances_animateBook, E, Ep. reflexivity.
  - apply (soundScene_same t); [|exact Hs].
    rewrite bookInstances_animateBook, E. reflexivity.
Qed.

Lemma soundScene_animate dt t :
  0 <= dt -> soundScene t -> soundScene (animate dt t).
Proof.
  intros Hdt. unfold animate. apply fold_left_invariant.
  intros a i. now apply soundScene_animateBook.
Qed.

(** *** Restarting the clips *)

Lemma keepsClock_startAction d : keepsClock (startAction d).
Proof. intros a. split; reflexivity. Qed.

Lemma keepsClock_pauseAction : keepsClock pauseAction.
Proof. intros a. split; reflexivity. Qed.

Lemma keepsClock_map g l :
  keepsClock g ->
  Forall clipInBounds l -> firstClipWithinClickLimit l ->
  Forall clipInBounds (map g l) /\ firstClipWithinClickLimit (map g l).
Proof.
  intros Hg Hl Hf. split.
  - apply List.Forall_map. eapply List.Forall_impl; [|exact Hl].
    intros a. unfold clipInBounds. destruct (Hg a) as [-> ->]. auto.
  - destruct l as [|a l]; simpl in *; [exact I|].
    destruct (Hg a) as [-> ->]. exact Hf.
Qed.

Lemma map_not_nil {A B} (g : A -> B) l : l <> [] -> map g l <> [].
Proof. destruct l; simpl; congruence. Qed.

(** *** The toggle *)

Lemma buildOpenTimeline_callback t i cb :
  gsap.onReverseCompleteCallback (buildOpenTimeline t i cb) = cb.
Proof.
  unfold buildOpenTimeline. simpl.
  rewrite (fold_left_preserves
             (fun tl : gsap.timeline callback =>
                gsap.onReverseCompleteCallback tl)); [reflexivity|].
  intros tl [j [other|]]; [|reflexivity].
  destruct (j =? i)%nat; reflexivity.
Qed.

Lemma soundScene_toggle i cb t :
  soundScene t ->
  cb = null_cb
  \/ (exists book, lookupBook t i = Some book /\ isOpen book = true) ->
  soundScene (toggleBookAnimationWithCallback i cb t).
Proof.
  intros Hs Hcb. unfold toggleBookAnimationWithCallback.
  destruct (lookupBook t i) as [book|] eqn:E;
    [|apply (soundScene_same t); [apply bookInstances_invoke|exact Hs]].
  destruct (animationActions book) as [|a l] eqn:Ea;
    [apply (soundScene_same t); [apply bookInstances_invoke|exact Hs]|].
  destruct (proj2 Hs _ _ E) as [Si Sh St Sc Sd Sf].
  assert (Hcb' : isOpen book = false -> openTimeline book = None ->
                 cb = null_cb).
  { intros Ho _. destruct Hcb as [?|(b & Hb & Hbo)]; [assumption|].
    congruence. }
  rewrite Ea in Sd, Sf.
  destruct (keepsClock_map pauseAction (a :: l) keepsClock_pauseAction Sd Sf)
    as (Pd & Pf).
  destruct (keepsClock_map (startAction 1) _ (keepsClock_startAction 1) Sd Sf)
    as (Fd & Ff).
  destruct (keepsClock_map (startAction (-1)) _
              (keepsClock_startAction (-1)) Sd Sf) as (Bd & Bf).
  destruct (keepsClock_map (startAction 1) _ (keepsClock_startAction 1) Pd Pf)
    as (PFd & PFf).
  destruct (keepsClock_map (startAction (-1)) _
              (keepsClock_startAction (-1)) Pd Pf) as (PBd & PBf).
  destruct (isHoverPlaying book) eqn:Eh; simpl; rewrite ?Ea; simpl;
    destruct (isOpen book) eqn:Eo; simpl;
    try match goal with
        | |- soundScene (set_checkAnimationProgressFn _ ?x) =>
            apply (soundScene_same x); [reflexivity|]
        end;
    (apply soundScene_storeBook; [exact Hs|]);
    (constructor; simpl; rewrite ?Ea; simpl;
     [ exact Si
     | rewrite ?Eh; intros Hx; discriminate Hx
     | intros _; split; discriminate
     | intros tl Htl; injection Htl as <-; simpl;
       destruct (openTimeline book) as [tl0|] eqn:Et;
       [ exact (Sc tl0 Et)
       | rewrite buildOpenTimeline_callback;
         first [ apply Hcb'; reflexivity
               | exfalso; apply (proj1 (St (or_introl eq_refl)));
                 reflexivity ] ]
     | assumption
     | assumption ]).
Qed.

Lemma soundScene_toggles (l : list nat) : forall t,
  soundScene t ->
  soundScene
    (fold_left (fun t i => toggleBookAnimationWithCallback i null_cb t) l t).
Proof.
  apply fold_left_invariant. intros a i Ha.
  apply soundScene_toggle; auto.
Qed.

(** The indices collected by the aggregate close are slots of open
    books. *)
Lemma openBookIndices_open t j :
  soundScene t -> elem_of j (openBookIndices t) ->
  exists book, lookupBook t j = Some book /\ isOpen book = true.
Proof.
  intros Hs Hj. unfold openBookIndices in Hj.
  apply list_elem_of_omap in Hj as ([book|] & Hin & Hf); [|discriminate].
  destruct (isOpen book) eqn:Eo; [|discriminate].
  injection Hf as <-.
  apply list_elem_of_lookup in Hin as [k Hk].
  assert (Hl : lookupBook t k = Some book)
    by (unfold lookupBook; now rewrite Hk).
  rewrite (sound_index _ _ (proj2 Hs _ _ Hl)).
  eauto.
Qed.

Lemma soundScene_closing_toggles p (l : list nat) : forall t,
  soundScene t ->
  (forall j, elem_of j l ->
     exists book, lookupBook t j = Some book /\ isOpen book = true) ->
  soundScene
    (fold_left
       (fun t index =>
          toggleBookAnimationWithCallback index (checkAllClosed p) t) l t).
Proof.
  induction l as [|i l IH]; intros t Hs Hl; simpl; [exact Hs|].
  apply IH.
  - apply soundScene_toggle; [exact Hs|]. right. apply Hl. left.
  - intros j Hj. destruct (Hl j) as (book & Hb & Ho); [now right|].
    pose proof (toggle_sameIsOpen i (checkAllClosed p) t j) as Hr.
    rewrite Hb in Hr. inversion Hr as [? book' Hrel|]; subst.
    exists book'. split; [reflexivity|].
    unfold sameIsOpen in Hrel. congruence.
Qed.

Lemma soundScene_closeAll t :
  soundScene t -> soundScene (fst (closeAllOpenBooksWithPromise t)).
Proof.
  intros Hs. unfold closeAllOpenBooksWithPromise.
  destruct (bookClosePromise t); [exact Hs|].
  destruct (negb (isAnyBookOpen t)); [exact Hs|]. simpl.
  match goal with
  | |- soundScene (set_bookClosePromise _ ?x) =>
      apply (soundScene_same x); [reflexivity|]
  end.
  pose proof (fun j => openBookIndices_open t j Hs) as Hopen.
  destruct (openBookIndices t) as [|i l] eqn:Ei.
  - apply (soundScene_same t); [|exact Hs].
    rewrite bookInstances_resolve. reflexivity.
  - apply soundScene_closing_toggles.
    + apply (soundScene_same t); [reflexivity|exact Hs].
    + intros j Hj. destruct (Hopen j Hj) as (book & Hb & Ho).
      exists book. split; [|exact Ho].
      rewrite <- Hb. apply lookupBook_same. reflexivity.
Qed.

Lemma soundScene_onCanvasClick hit t :
  soundScene t -> soundScene (onCanvasClick hit t).
Proof.
  intros Hs. unfold onCanvasClick.
  destruct (_ || _); [exact Hs|].
  destruct hit as [bookIndex|]; [|exact Hs].
  assert (H1 : soundScene (toggleBookAnimationWithCallback bookIndex null_cb t))
    by (apply soundScene_toggle; auto).
  destruct (lookupBook _ bookIndex) as [book|]; [|exact H1].
  destruct (negb (isOpen book)); [|exact H1].
  apply fold_left_invariant; [|exact H1].
  intros a i Ha. destruct (lookupBook a i) as [otherBook|]; [|exact Ha].
  destruct (_ && _); [|exact Ha].
  apply soundScene_toggle; auto.
Qed.

(** *** The hover *)

Lemma soundScene_animateToFraction i book fraction t :
  soundScene t -> lookupBook t i = Some book ->
  isOpen book || isClickPlaying book = false ->
  soundScene (animateToFraction i book fraction t).
Proof.
  intros Hs E Hf. unfold animateToFraction.
  destruct (animationActions book) as [|a l] eqn:Ea; [exact Hs|].
  apply orb_false_iff in Hf as [Ho Hc].
  destruct (proj2 Hs _ _ E) as [Si Sh St Sc Sd Sf].
  rewrite Ea in Sd, Sf.
  apply soundScene_storeBook; [exact Hs|].
  constructor; simpl.
  - exact Si.
  - intros _. repeat split; auto; discriminate.
  - intros [H|H]; congruence.
  - exact Sc.
  - apply List.Forall_cons.
    + exact (List.Forall_inv Sd).
    + apply List.Forall_map.
      eapply List.Forall_impl; [|exact (List.Forall_inv_tail Sd)].
      intros b Hb. exact Hb.
  - exact Sf.
Qed.

Lemma soundScene_setHoveredBook i t :
  soundScene t -> soundScene (setHoveredBook i t).
Proof.
  intros Hs. unfold setHoveredBook.
  assert (H1 : soundScene (set_currentHoveredIndex (Z.of_nat i) t))
    by (apply (soundScene_same t); [reflexivity|exact Hs]).
  destruct (lookupBook _ i) as [book|] eqn:E; [|exact H1].
  destruct (isOpen book || isClickPlaying book) eqn:Ef; [exact H1|].
  apply soundScene_animateToFraction; assumption.
Qed.

Lemma soundScene_clearHoveredBook t :
  soundScene t -> soundScene (clearHoveredBook t).
Proof.
  intros Hs. unfold clearHoveredBook.
  destruct (_ =? -1)%Z; [exact Hs|].
  assert (H1 : soundScene (set_currentHoveredIndex (-1)%Z t))
    by (apply (soundScene_same t); [reflexivity|exact Hs]).
  destruct (_ <? 0)%Z; [exact H1|].
  destruct (lookupBook t _) as [oldBook|] eqn:E; [|exact H1].
  destruct (isOpen oldBook || isClickPlaying oldBook) eqn:Ef; [exact H1|].
  apply soundScene_animateToFraction; assumption.
Qed.

Lemma soundScene_onCanvasMouseMove hit t :
  soundScene t -> soundScene (onCanvasMouseMove hit t).
Proof.
  intros Hs. unfold onCanvasMouseMove.
  destruct (negb _); [exact Hs|].
  destruct hit as [bookIndex|].
  - destruct (_ =? _)%Z; [exact Hs|].
    apply soundScene_setHoveredBook, soundScene_clearHoveredBook, Hs.
  - apply soundScene_clearHoveredBook, Hs.
Qed.

(** *** The callbacks of the timeline *)

Lemma soundBook_set_openTimeline i book tl tl' :
  openTimeline book = Some tl ->
  gsap.onReverseCompleteCallback tl' = gsap.onReverseCompleteCallback tl ->
  soundBook i book -> soundBook i (set_openTimeline (Some tl') book).
Proof.
  intros Et Hcb [Si Sh St Sc Sd Sf]. constructor; simpl; auto.
  - intros H. split; [discriminate|]. apply (St H).
  - intros tl0 H0. injection H0 as <-. rewrite Hcb. apply Sc, Et.
Qed.

Lemma soundScene_onComplete i t :
  soundScene t -> soundScene (onComplete i t).
Proof.
  intros Hs. unfold onComplete.
  destruct (lookupBook t i) as [book|] eqn:E; [|exact Hs].
  destruct (openTimeline book) as [tl|] eqn:Et; [|exact Hs].
  apply soundScene_storeBook; [exact Hs|].
  eapply soundBook_set_openTimeline; [exact Et|reflexivity|].
  exact (proj2 Hs _ _ E).
Qed.

Lemma soundScene_onReverseComplete i t :
  soundScene t -> soundScene (onReverseComplete i t).
Proof.
  intros Hs. unfold onReverseComplete.
  destruct (lookupBook t i) as [book|] eqn:E; [|exact Hs].
  destruct (openTimeline book) as [tl|] eqn:Et; [|exact Hs].
  eapply soundScene_same; [apply bookInstances_invoke|].
  apply soundScene_storeBook; [exact Hs|].
  eapply soundBook_set_openTimeline; [exact Et|reflexivity|].
  exact (proj2 Hs _ _ E).
Qed.

Section SoundScene.

Context {M : Math}.

Lemma soundScene_updateBookPositions progress t :
  soundScene t -> soundScene (updateBookPositions progress t).
Proof.
  intros [Hlen H]. split.
  - unfold updateBookPositions. simpl. rewrite length_imap. exact Hlen.
  - intros i book' Hi. rewrite lookupBook_updateBookPositions in Hi.
    destruct (lookupBook t i) as [book|] eqn:E; [|discriminate].
    simpl in Hi. injection Hi as <-.
    destruct (H _ _ E) as [Si Sh St Sc Sd Sf].
    destruct (_ && _); constructor; assumption.
Qed.

Lemma soundScene_onUpdate progress t :
  soundScene t -> soundScene (onUpdate progress t).
Proof.
  intros Hs. unfold onUpdate.
  apply (soundScene_same
           (let t1 :=
              if Qltb progress (lastProgress t) && isAnyBookOpen t
                 && negb (isClosingFromScroll t)
              then
                let '(t', p) :=
                  closeAllOpenBooksWithPromise
                    (set_isClosingFromScroll true (set_scrollEnabled false t))
                in then_ p (recoveryThen progress) t'
              else t in
            if negb (isClosingFromScroll t1)
            then set_canInteract (Qeq_bool progress 1)
                   (updateBookPositions progress t1)
            else t1)); [reflexivity|].
  cbv zeta.
  match goal with
  | |- soundScene (if _ then _ else ?x) =>
      assert (H1 : soundScene x); [|set (t1 := x) in *]
  end.
  { destruct (_ && _); [|exact Hs].
    pose proof (soundScene_closeAll
                  (set_isClosingFromScroll true (set_scrollEnabled false t)))
      as Hc.
    destruct (closeAllOpenBooksWithPromise _) as [t' p]. simpl in Hc.
    eapply soundScene_same; [apply bookInstances_then|].
    apply Hc. apply (soundScene_same t); [reflexivity|exact Hs]. }
  clearbody t1.
  destruct (negb (isClosingFromScroll t1)); [|exact H1].
  eapply soundScene_same; [|apply soundScene_updateBookPositions, H1].
  reflexivity.
Qed.

Lemma soundScene_handle e t :
  forwardClock e -> soundScene t -> soundScene (handle e t).
Proof.
  intros He Hs. destruct e; simpl.
  - destruct (scrollEnabled t); [apply soundScene_onUpdate|]; exact Hs.
  - destruct (scrollEnabled t); [apply soundScene_closeAll|]; exact Hs.
  - apply soundScene_animate; assumption.
  - apply soundScene_onCanvasClick, Hs.
  - apply soundScene_onCanvasMouseMove, Hs.
  - apply soundScene_clearHoveredBook, Hs.
  - apply soundScene_onComplete, Hs.
  - apply soundScene_onReverseComplete, Hs.
  - unfold positionTransitionComplete.
    destruct (positionTransitions t); [exact Hs|].
    apply (soundScene_same t); [reflexivity|exact Hs].
  - unfold scrollTweenOnUpdate.
    destruct (scrollTweens t); [exact Hs|].
    apply (soundScene_same t); [reflexivity|exact Hs].
  - unfold scrollTweenOnComplete.
    destruct (scrollTweens t); [exact Hs|].
    apply (soundScene_same t); [reflexivity|exact Hs].
Qed.

Lemma soundScene_step e t :
  forwardClock e -> soundScene t -> soundScene (step t e).
Proof.
  intros He Hs. unfold step.
  eapply soundScene_same; [apply bookInstances_runMicrotasks|].
  now apply soundScene_handle.
Qed.

Lemma soundScene_run es : forall t,
  Forall forwardClock es -> soundScene t -> soundScene (run es t).
Proof.
  unfold run. induction es as [|e es IH]; intros t Hes Hs; simpl;
    [exact Hs|].
  apply IH; [exact (List.Forall_inv_tail Hes)|].
  apply soundScene_step; [exact (List.Forall_inv Hes)|exact Hs].
Qed.

Lemma soundBook_loadBook i finalPosition durations :
  Forall (fun d => 0 <= d) durations ->
  soundBook i (loadBook i finalPosition durations).
Proof.
  intros Hd. constructor; simpl.
  - reflexivity.
  - discriminate.
  - intros [H|H]; discriminate.
  - intros tl H. discriminate.
  - apply List.Forall_map. eapply List.Forall_impl; [|exact Hd].
    intros d H. split; simpl; [lra|exact H].
  - destruct durations as [|d l]; simpl; [exact I|].
    pose proof (List.Forall_inv Hd) as H. simpl in H.
    unfold clickPlayPercentage. lra.
Qed.

Lemma soundScene_onAllBooksLoaded gltfs triggerStart triggerEnd :
  clipsHaveLength gltfs ->
  soundScene (onAllBooksLoaded gltfs triggerStart triggerEnd).
Proof.
  intros Hg. split.
  - unfold onAllBooksLoaded. cbn [bookInstances].
    rewrite length_imap, length_zip, length_app, length_replicate.
    change (length finalPositions) with 4%nat. unfold books_length. lia.
  - intros i book Hi. unfold lookupBook, onAllBooksLoaded in Hi.
    cbn [bookInstances] in Hi. rewrite list_lookup_imap in Hi.
    destruct (zip _ _ !! i) as [[pos [durations|]]|] eqn:Ez;
      simpl in Hi; try discriminate.
    injection Hi as <-.
    apply soundBook_loadBook.
    apply lookup_zip_with_Some in Ez as (p & g & Epg & _ & Hg').
    injection Epg as <- <-.
    apply lookup_app_Some in Hg' as [Hg'|[_ Hg']].
    + unfold clipsHaveLength in Hg.
      rewrite Forall_lookup in Hg. exact (Hg _ _ Hg').
    + apply lookup_replicate in Hg' as [? _]. discriminate.
Qed.

End SoundScene.

Section Reachable.

Context {M : Math}.

(** X1. In every scene reached from the loaded one by frames of
    non-negative length and any other events, the time of each clip lies
    between 0 and the length of the clip, and the time of a book's first
    clip is at most 90% of its length. *)
Theorem clip_times_stay_within_their_limits
    gltfs triggerStart triggerEnd es i book :
  clipsHaveLength gltfs -> Forall forwardClock es ->
  lookupBook (run es (onAllBooksLoaded gltfs triggerStart triggerEnd)) i
  = Some book ->
  Forall clipInBounds (animationActions book)
  /\ firstClipWithinClickLimit (animationActions book).
Proof.
  intros Hg Hes Hi.
  pose proof (soundScene_run es _ Hes
                (soundScene_onAllBooksLoaded gltfs triggerStart triggerEnd Hg))
    as Hs.
  destruct (proj2 Hs _ _ Hi) as [_ _ _ _ Sd Sf]. split; assumption.
Qed.

(** X2. In every such scene a book whose hover animation is playing is
    Closed and has a clip: the hover never runs on a book that is open or
    in a click transition. *)
Theorem hover_plays_only_on_a_closed_book
    gltfs triggerStart triggerEnd es i book :
  clipsHaveLength gltfs -> Forall forwardClock es ->
  lookupBook (run es (onAllBooksLoaded gltfs triggerStart triggerEnd)) i
  = Some book ->
  isHoverPlaying book = true ->
  stateOf book = Closed /\ animationActions book <> [].
Proof.
  intros Hg Hes Hi Hh.
  pose proof (soundScene_run es _ Hes
                (soundScene_onAllBooksLoaded gltfs triggerStart triggerEnd Hg))
    as Hs.
  destruct (sound_hover _ _ (proj2 Hs _ _ Hi) Hh) as (Ho & Hc & Hn).
  unfold stateOf. rewrite Ho, Hc. auto.
Qed.

(** X3. In every such scene a book that is not Closed has its timeline
    and at least one clip, and no timeline of any book carries a closing
    callback: the timelines are only ever built by a click or by a toggle
    that finds the timeline in place. *)
Theorem books_under_click_control_have_a_quiet_timeline
    gltfs triggerStart triggerEnd es i book :
  clipsHaveLength gltfs -> Forall forwardClock es ->
  lookupBook (run es (onAllBooksLoaded gltfs triggerStart triggerEnd)) i
  = Some book ->
  nullTimelineCallback book
  /\ (stateOf book <> Closed ->
      openTimeline book <> None /\ animationActions book <> []).
Proof.
  intros Hg Hes Hi.
  pose proof (soundScene_run es _ Hes
                (soundScene_onAllBooksLoaded gltfs triggerStart triggerEnd Hg))
    as Hs.
  destruct (proj2 Hs _ _ Hi) as [_ _ St Sc _ _]. split; [exact Sc|].
  intros Hne. apply St. unfold stateOf in Hne.
  destruct (isOpen book), (isClickPlaying book); auto; congruence.
Qed.

(** X4. In every such scene [onReverseComplete] of a timeline only snaps
    the timeline: it settles no promise, queues no microtask and leaves
    the pending close in place. *)
Theorem reverse_complete_calls_nothing_back
    gltfs triggerStart triggerEnd es bookIndex :
  clipsHaveLength gltfs -> Forall forwardClock es ->
  let t := run es (onAllBooksLoaded gltfs triggerStart triggerEnd) in
  promiseState (onReverseComplete bookIndex t) = promiseState t
  /\ bookClosePromise (onReverseComplete bookIndex t) = bookClosePromise t
  /\ checkAnimationProgressFn (onReverseComplete bookIndex t)
     = checkAnimationProgressFn t.
Proof.
  intros Hg Hes t.
  pose proof (soundScene_run es _ Hes
                (soundScene_onAllBooksLoaded gltfs triggerStart triggerEnd Hg))
    as Hs.
  fold t in Hs. clearbody t. unfold onReverseComplete.
  destruct (lookupBook t bookIndex) as [book|] eqn:E; [|auto].
  destruct (openTimeline book) as [tl|] eqn:Et; [|auto].
  rewrite (sound_callback _ _ (proj2 Hs _ _ E) tl Et). simpl. auto.
Qed.

(** X5. In every such scene the array of books has its four slots and
    each book carries the number of its slot, so that the lookups
    [ellipseConfigs[i]], [angleConfigs[i]] and [targetBookPositions[index]]
    are within the tables. *)
Theorem every_book_keeps_its_slot gltfs triggerStart triggerEnd es :
  clipsHaveLength gltfs -> Forall forwardClock es ->
  let t := run es (onAllBooksLoaded gltfs triggerStart triggerEnd) in
  length (bookInstances t) = books_length
  /\ forall i book, lookupBook t i = Some book ->
       index book = i
       /\ (i < length ellipseConfigs)%nat /\ (i < length angleConfigs)%nat
       /\ (i < length (snd (calculateBookPositionsForProgress 0 t)))%nat.
Proof.
  intros Hg Hes t.
  pose proof (soundScene_run es _ Hes
                (soundScene_onAllBooksLoaded gltfs triggerStart triggerEnd Hg))
    as Hs.
  fold t in Hs. clearbody t. split; [exact (proj1 Hs)|].
  intros i book Hi. split; [exact (sound_index _ _ (proj2 Hs _ _ Hi))|].
  assert (Hlt : (i < books_length)%nat).
  { rewrite <- (proj1 Hs). unfold lookupBook in Hi.
    destruct (bookInstances t !! i) eqn:E; [|discriminate].
    eapply lookup_lt_Some; eauto. }
  unfold calculateBookPositionsForProgress. simpl.
  unfold books_length in Hlt. simpl. repeat split; exact Hlt.
Qed.

(** X6. No event adds a book to the scene or removes one: a slot holds a
    book after a run exactly when it held one before. *)
Theorem no_event_adds_or_removes_a_book es : forall t i,
  is_Some (lookupBook (run es t) i) <-> is_Some (lookupBook t i).
Proof.
  unfold run. induction es as [|e es IH]; intros t i; simpl; [reflexivity|].
  rewrite IH.
  assert (H : booksRelated (fun _ _ => True) t (step t e)).
  { destruct e;
      try (eapply booksRelated_mono;
           [|apply step_sameIsOpen; intros; discriminate]; auto).
    eapply booksRelated_mono; [|apply step_frame_settles]. auto. }
  specialize (H i).
  destruct H; split; intros [? ?]; try discriminate; eauto.
Qed.

End Reachable.

(** ** Repeated calls, and the scene of [main.js] *)

Lemma canInteract_onCanvasMouseMove hit t :
  canInteract (onCanvasMouseMove hit t) = canInteract t.
Proof. apply (view_onCanvasMouseMove canInteract); reflexivity. Qed.

Lemma currentHoveredIndex_animateToFraction i book fraction t :
  currentHoveredIndex (animateToFraction i book fraction t)
  = currentHoveredIndex t.
Proof.
  unfold animateToFraction. destruct (animationActions book); reflexivity.
Qed.

Lemma currentHoveredIndex_setHoveredBook i t :
  currentHoveredIndex (setHoveredBook i t) = Z.of_nat i.
Proof.
  unfold setHoveredBook. destruct (lookupBook _ i); [|reflexivity].
  destruct (_ || _); rewrite ?currentHoveredIndex_animateToFraction;
    reflexivity.
Qed.

Lemma currentHoveredIndex_clearHoveredBook t :
  currentHoveredIndex (clearHoveredBook t) = (-1)%Z.
Proof.
  unfold clearHoveredBook.
  destruct (_ =? -1)%Z eqn:E; [now apply Z.eqb_eq in E|].
  destruct (if (_ <? _)%Z then _ else _); [|reflexivity].
  destruct (_ || _); rewrite ?currentHoveredIndex_animateToFraction;
    reflexivity.
Qed.

Lemma clearHoveredBook_idempotent t :
  clearHoveredBook (clearHoveredBook t) = clearHoveredBook t.
Proof.
  pose proof (currentHoveredIndex_clearHoveredBook t) as H.
  unfold clearHoveredBook at 1. rewrite H. reflexivity.
Qed.

(** X7. Moving the pointer again over the same target changes nothing:
    the hover of a book is started when the pointer enters it and left
    alone while the pointer stays on it. *)
Theorem mouse_move_over_the_same_target_is_idempotent hit t :
  onCanvasMouseMove hit (onCanvasMouseMove hit t) = onCanvasMouseMove hit t.
Proof.
  pose proof (canInteract_onCanvasMouseMove hit t) as Hc.
  unfold onCanvasMouseMove at 1. rewrite Hc.
  unfold onCanvasMouseMove.
  destruct (negb (canInteract t)); [reflexivity|].
  destruct hit as [bookIndex|].
  - destruct (Z.of_nat bookIndex =? currentHoveredIndex t)%Z eqn:E.
    + rewrite E. reflexivity.
    + rewrite currentHoveredIndex_setHoveredBook, Z.eqb_refl. reflexivity.
  - apply clearHoveredBook_idempotent.
Qed.

(** X8. While books are open or a close is pending, asking again for the
    aggregate close returns the same promise and closes nothing a second
    time. *)
Theorem close_all_again_returns_the_pending_promise t :
  isAnyBookOpen t = true \/ bookClosePromise t <> None ->
  closeAllOpenBooksWithPromise (fst (closeAllOpenBooksWithPromise t))
  = closeAllOpenBooksWithPromise t.
Proof.
  intros H. unfold closeAllOpenBooksWithPromise at 2 3.
  destruct (bookClosePromise t) as [p|] eqn:E.
  - simpl. unfold closeAllOpenBooksWithPromise. rewrite E. reflexivity.
  - destruct H as [H|H]; [|congruence]. rewrite H. simpl. reflexivity.
Qed.

Lemma startAction_again d a : startAction d (startAction d a) = startAction d a.
Proof. reflexivity. Qed.

(** X9. A second toggle of a book, before any frame has run, leaves the
    books as the first toggle left them: the transition is started again
    in the same direction, and its direction is not reversed. *)
Theorem toggle_again_restarts_the_same_transition i cb cb' t :
  bookInstances
    (toggleBookAnimationWithCallback i cb'
       (toggleBookAnimationWithCallback i cb t))
  = bookInstances (toggleBookAnimationWithCallback i cb t).
Proof.
  destruct (lookupBook t i) as [book|] eqn:E.
  2:{ unfold toggleBookAnimationWithCallback at 2 3. rewrite E.
      unfold toggleBookAnimationWithCallback.
      rewrite (lookupBook_same _ _ i (bookInstances_invoke cb t)), E.
      apply bookInstances_invoke. }
  destruct (animationActions book) as [|a l] eqn:Ea.
  { unfold toggleBookAnimationWithCallback at 2 3. rewrite E, Ea.
    unfold toggleBookAnimationWithCallback.
    rewrite (lookupBook_same _ _ i (bookInstances_invoke cb t)), E, Ea.
    apply bookInstances_invoke. }
  assert (Hb : exists book1,
             bookInstances (toggleBookAnimationWithCallback i cb t)
             = <[i := Some book1]> (bookInstances t)
             /\ isHoverPlaying book1 = false
             /\ isOpen book1 = isOpen book
             /\ isClickPlaying book1 = true
             /\ (exists tl d,
                   animationActions book1
                   = map (startAction d) (animationActions book1)
                   /\ animationActions book1 <> []
                   /\ openTimeline book1 = Some tl
                   /\ (if isOpen book
                       then d = -1
                            /\ gsap.reverse (gsap.progress 1
                                               (gsap.timeScale 2 tl)) = tl
                       else d = 1
                            /\ gsap.play (gsap.progress 0
                                            (gsap.timeScale 1 tl)) = tl))).
  { unfold toggleBookAnimationWithCallback. rewrite E, Ea.
    destruct (isHoverPlaying book) eqn:Eh; simpl; rewrite ?Ea;
      destruct (isOpen book) eqn:Eo; simpl;
      eexists; (split; [reflexivity|]); simpl; rewrite ?Eh, ?Eo;
      repeat split; eexists; eexists; simpl;
      (split; [rewrite ?map_map; simpl; reflexivity|]);
      (split; [discriminate|]); (split; [reflexivity|]);
      split; reflexivity. }
  destruct Hb as (book1 & Hb & Hh & Ho & Hc & tl & d & Hd & Hn & Ht & Hdir).
  assert (E1 : lookupBook (toggleBookAnimationWithCallback i cb t) i
               = Some book1).
  { unfold lookupBook. rewrite Hb.
    rewrite list_lookup_insert_eq; [reflexivity|].
    unfold lookupBook in E.
    destruct (bookInstances t !! i) eqn:E'; [|discriminate].
    eapply lookup_lt_Some; eauto. }
  unfold toggleBookAnimationWithCallback at 1. rewrite E1.
  destruct (animationActions book1) as [|a1 l1] eqn:Ea1; [congruence|].
  rewrite <- Ea1 in Hd.
  rewrite Hh, Ht, Ho.
  destruct (isOpen book) eqn:Eo; destruct Hdir as [-> Htl];
    rewrite Htl, <- Hd;
    unfold storeBook;
    cbn [bookInstances set_checkAnimationProgressFn set_bookInstances negb];
    rewrite Hb, list_insert_insert_eq;
    f_equal; f_equal; destruct book1;
    unfold set_openTimeline, set_animationActions, set_isClickPlaying;
    simpl in *; congruence.
Qed.

(** X10. [toggleBookAnimation] of [main.js] is the toggle of [script.js]
    called without a callback, except that it never replaces the
    per-frame check. *)
Theorem main_toggle_is_the_toggle_without_callback i t :
  MainJs.toggleBookAnimation i t
  = set_checkAnimationProgressFn (checkAnimationProgressFn t)
      (toggleBookAnimationWithCallback i null_cb t).
Proof.
  unfold MainJs.toggleBookAnimation, toggleBookAnimationWithCallback.
  destruct (lookupBook t i) as [book|]; [|destruct t; reflexivity].
  destruct (animationActions book); [destruct t; reflexivity|].
  cbv zeta. destruct (negb _); destruct t; reflexivity.
Qed.

Lemma bookInstances_main_animateBook dt t i :
  bookInstances (MainJs.animateBook dt t i)
  = match lookupBook t i with
    | Some book =>
        if isClickPlaying book || isHoverPlaying book
        then <[i := Some (checkAnimationProgress (mixerUpdate dt book))]>
               (bookInstances t)
        else bookInstances t
    | None => bookInstances t
    end.
Proof.
  unfold MainJs.animateBook. destruct (lookupBook t i) as [book|];
    [|reflexivity].
  destruct (_ || _); reflexivity.
Qed.

Lemma animate_books_agree dt l : forall t t',
  bookInstances t = bookInstances t' ->
  bookInstances (fold_left (animateBook dt) l t)
  = bookInstances (fold_left (MainJs.animateBook dt) l t').
Proof.
  induction l as [|i l IH]; intros t t' E; simpl; [exact E|].
  apply IH.
  rewrite bookInstances_animateBook, bookInstances_main_animateBook.
  rewrite (lookupBook_same _ _ i E), E. reflexivity.
Qed.

(** X11. Whatever wrappers the closing toggles have installed over the
    per-frame check, a frame of [script.js] does to the books what the
    frame of [main.js] does: the wrappers only add the callbacks. *)
Theorem frame_moves_the_books_as_main_js_does dt t :
  bookInstances (animate dt t) = bookInstances (MainJs.animate dt t).
Proof. apply animate_books_agree. reflexivity. Qed.

Section Orbit.

Context {M : Math}.

(** X12. The orbit placement keeps no memory: after two scroll updates
    the scene is the one the second update alone gives. *)
Theorem orbit_update_forgets_the_previous_progress p q t :
  updateBookPositions q (updateBookPositions p t) = updateBookPositions q t.
Proof.
  unfold updateBookPositions, set_bookInstances, set_cameraX. simpl.
  f_equal. apply list_eq. intros i. rewrite !list_lookup_imap.
  destruct (bookInstances t !! i) as [[book|]|]; simpl; try reflexivity.
  destruct (place p i), (place q i).
  destruct (negb (isOpen book) && negb (isClickPlaying book)) eqn:E; simpl;
    rewrite E; reflexivity.
Qed.

End Orbit.

(** *** Closing the open books in [main.js] *)








(** ** Loading and the pointer *)

Lemma loadedSoFar_start gltf : loadedSoFar gltf [] loadBooks.
Proof.
  constructor; [reflexivity|reflexivity|apply length_replicate|].
  intros j Hj. unfold loadBooks. cbn [loadingBooks].
  rewrite lookup_replicate_2 by exact Hj.
  destruct (decide (elem_of j [])) as [H|_]; [|reflexivity].
  now apply elem_of_nil in H.
Qed.

Lemma loadedSoFar_settle gltf l s i :
  loadedSoFar gltf l s -> loadedSoFar gltf (l ++ [i]) (settle gltf s i).
Proof.
  intros [Hc Hk Hl Hb].
  assert (Hcalls : forall s',
            loadedCount s' = length l ->
            allBooksLoadedCalls s' = allBooksLoadedCalls s ->
            allBooksLoadedCalls (countLoaded s')
            = if (books_length <=? length (l ++ [i]))%nat
              then 1%nat else 0%nat).
  { intros s' Hc' Hk'. unfold countLoaded.
    cbn [allBooksLoadedCalls loadedCount].
    rewrite Hc', Hk', Hk, length_app. change (length [i]) with 1%nat.
    destruct (S (length l) =? books_length)%nat eqn:E1;
      destruct (books_length <=? length l)%nat eqn:E2;
      destruct (books_length <=? length l + 1)%nat eqn:E3;
      try reflexivity;
      repeat match goal with
      | H : (_ =? _)%nat = true |- _ => apply Nat.eqb_eq in H
      | H : (_ =? _)%nat = false |- _ => apply Nat.eqb_neq in H
      | H : (_ <=? _)%nat = true |- _ => apply Nat.leb_le in H
      | H : (_ <=? _)%nat = false |- _ => apply Nat.leb_gt in H
      end; lia. }
  assert (Hin : forall j, j <> i -> (elem_of j (l ++ [i]) <-> elem_of j l)).
  { intros j Hne. rewrite elem_of_app, list_elem_of_singleton. tauto. }
  unfold settle. destruct (gltf i) as [durations|] eqn:Eg.
  - constructor.
    + simpl. rewrite Hc, length_app. simpl. lia.
    + apply Hcalls; [exact Hc|reflexivity].
    + simpl. rewrite length_insert. exact Hl.
    + intros j Hj. simpl. destruct (decide (j = i)) as [->|Hne].
      * rewrite list_lookup_insert_eq by (rewrite Hl; exact Hj).
        destruct (decide (elem_of i (l ++ [i]))) as [_|Hn].
        -- rewrite Eg. reflexivity.
        -- elim Hn. apply elem_of_app. right. left.
      * rewrite list_lookup_insert_ne by auto. rewrite (Hb j Hj).
        destruct (decide (elem_of j l)), (decide (elem_of j (l ++ [i])));
          try reflexivity;
          exfalso; pose proof (Hin j Hne); tauto.
  - constructor.
    + simpl. rewrite Hc, length_app. simpl. lia.
    + apply Hcalls; [exact Hc|reflexivity].
    + exact Hl.
    + intros j Hj. simpl. rewrite (Hb j Hj).
      destruct (decide (j = i)) as [->|Hne].
      * rewrite Eg. simpl.
        destruct (decide (elem_of i l)), (decide (elem_of i (l ++ [i])));
          reflexivity.
      * destruct (decide (elem_of j l)), (decide (elem_of j (l ++ [i])));
          try reflexivity;
          exfalso; pose proof (Hin j Hne); tauto.
Qed.

Lemma loadedSoFar_fold gltf l :
  loadedSoFar gltf l (fold_left (settle gltf) l loadBooks).
Proof.
  induction l as [|i l IH] using rev_ind; [apply loadedSoFar_start|].
  rewrite fold_left_app. simpl. now apply loadedSoFar_settle.
Qed.

(** X14. In whatever order the four loads settle, [onAllBooksLoaded] is
    called once, by the last of them and by none before it, and the
    array of books is then the same: a loaded model is the book of its
    slot and the slot of a failed load is [null]. *)
Theorem books_load_in_any_order gltf order triggerStart triggerEnd :
  Permutation order (seq 0 books_length) ->
  loadingBooks (fold_left (settle gltf) order loadBooks)
  = bookInstances
      (onAllBooksLoaded (map gltf (seq 0 books_length))
         triggerStart triggerEnd)
  /\ allBooksLoadedCalls (fold_left (settle gltf) order loadBooks) = 1%nat
  /\ forall k, (k < books_length)%nat ->
       allBooksLoadedCalls (fold_left (settle gltf) (take k order) loadBooks)
       = 0%nat.
Proof.
  intros Hp.
  assert (Hlen : length order = books_length).
  { rewrite Hp. apply length_seq. }
  destruct (loadedSoFar_fold gltf order) as [_ Hk Hl Hb].
  split; [|split].
  - assert (Hall : forall j, (j < books_length)%nat ->
              loadingBooks (fold_left (settle gltf) order loadBooks) !! j
              = Some (option_map
                        (loadBook j
                           (nth j finalPositions (THREE.mkVector3 0 0 0)))
                        (gltf j))).
    { intros j Hj. rewrite (Hb j Hj).
      destruct (decide (elem_of j order)) as [_|Hn]; [reflexivity|].
      elim Hn. rewrite Hp. apply elem_of_seq. lia. }
    apply list_eq. intros j.
    destruct (decide (j < books_length)%nat) as [Hj|Hj].
    + rewrite (Hall j Hj). unfold books_length in Hj.
      destruct j as [|[|[|[|j]]]]; try reflexivity. lia.
    + rewrite lookup_ge_None_2 by (rewrite Hl; lia).
      symmetry. apply lookup_ge_None_2. unfold onAllBooksLoaded.
      cbn [bookInstances].
      rewrite length_imap, length_zip, length_app, length_replicate.
      change (length finalPositions) with books_length. lia.
  - rewrite Hk, Hlen, Nat.leb_refl. reflexivity.
  - intros k Hlt.
    rewrite (sofar_calls _ _ _ (loadedSoFar_fold gltf (take k order))).
    rewrite length_take, Hlen.
    destruct (books_length <=? k `min` books_length)%nat eqn:E;
      [|reflexivity].
    apply Nat.leb_le in E. lia.
Qed.

(** X15. A pointer inside a viewport of positive size is mapped into the
    square of normalised device coordinates, with the vertical axis
    turned over: the top left corner is [(-1, 1)] and the bottom right
    one [(1, -1)]. *)
Theorem pointer_is_mapped_into_the_device_square s clientX clientY :
  0 < width s -> 0 < height s ->
  0 <= clientX <= width s -> 0 <= clientY <= height s ->
  (-1 <= fst (mouse s clientX clientY) <= 1
   /\ -1 <= snd (mouse s clientX clientY) <= 1)
  /\ (fst (mouse s 0 0) == -1 /\ snd (mouse s 0 0) == 1)
  /\ (fst (mouse s (width s) (height s)) == 1
      /\ snd (mouse s (width s) (height s)) == -1).
Proof.
  intros Hw Hh [Hx0 Hx1] [Hy0 Hy1]. unfold mouse. simpl.
  assert (Hrx : 0 <= clientX / width s /\ clientX / width s <= 1).
  { split; [apply Qle_shift_div_l|apply Qle_shift_div_r]; lra. }
  assert (Hry : 0 <= clientY / height s /\ clientY / height s <= 1).
  { split; [apply Qle_shift_div_l|apply Qle_shift_div_r]; lra. }
  assert (Hw1 : width s / width s == 1) by (field; lra).
  assert (Hh1 : height s / height s == 1) by (field; lra).
  assert (Hw0 : 0 / width s == 0) by (field; lra).
  assert (Hh0 : 0 / height s == 0) by (field; lra).
  repeat split; try lra; rewrite ?Hw1, ?Hh1, ?Hw0, ?Hh0; lra.
Qed.

(** ** The promises *)

Lemma promiseGrows_refl pr : promiseGrows pr pr.
Proof. repeat split; auto. Qed.

Lemma promiseGrows_trans pr1 pr2 pr3 :
  promiseGrows pr1 pr2 -> promiseGrows pr2 pr3 -> promiseGrows pr1 pr3.
Proof.
  intros (H1 & H2 & H3) (H4 & H5 & H6). repeat split; try congruence; auto.
  lia.
Qed.

Lemma promisesAdvance_refl t : promisesAdvance t t.
Proof.
  split; [|auto]. intros p pr H. exists pr. split; [exact H|].
  apply promiseGrows_refl.
Qed.

Lemma promisesAdvance_trans t1 t2 t3 :
  promisesAdvance t1 t2 -> promisesAdvance t2 t3 -> promisesAdvance t1 t3.
Proof.
  intros [H1 F1] [H2 F2]. split; [|auto].
  intros p pr Hp. destruct (H1 p pr Hp) as (pr2 & Hp2 & G2).
  destruct (H2 p pr2 Hp2) as (pr3 & Hp3 & G3).
  exists pr3. split; [exact Hp3|]. eapply promiseGrows_trans; eauto.
Qed.

Lemma promisesAdvance_same t t' :
  promises t' = promises t -> promisesAdvance t t'.
Proof.
  intros E. unfold promisesAdvance. rewrite E. apply promisesAdvance_refl.
Qed.

Lemma promisesAdvance_step t1 t2 t3 :
  promisesAdvance t1 t2 -> promises t3 = promises t2 -> promisesAdvance t1 t3.
Proof.
  intros H E. eapply promisesAdvance_trans; [exact H|].
  now apply promisesAdvance_same.
Qed.

Lemma promisesAdvance_fold {B} (f : Texture -> B -> Texture) l :
  (forall t b, promisesAdvance t (f t b)) ->
  forall t, promisesAdvance t (fold_left f l t).
Proof.
  intros Hf. apply fold_left_related;
    eauto using promisesAdvance_refl, promisesAdvance_trans.
Qed.

Lemma promisesAdvance_storePromise t p pr pr' :
  promises t !! p = Some pr -> promiseGrows pr pr' ->
  (resolvedAfterItsCount pr -> resolvedAfterItsCount pr') ->
  promisesAdvance t (storePromise p pr' t).
Proof.
  intros Hp Hg Hs. split.
  - intros q prq Hq. unfold storePromise. simpl.
    destruct (decide (p = q)) as [<-|Hne].
    + exists pr'. split; [|congruence].
      apply list_lookup_insert_eq. eapply lookup_lt_Some; eauto.
    + exists prq. split; [|apply promiseGrows_refl].
      rewrite list_lookup_insert_ne by auto. exact Hq.
  - intros HF. unfold storePromise. simpl. apply Forall_insert; [exact HF|].
    apply Hs. rewrite Forall_lookup in HF. exact (HF _ _ Hp).
Qed.

Lemma promisesAdvance_resolve p t :
  (forall pr, promises t !! p = Some pr ->
     (openCount pr <= closedCount pr)%nat) ->
  promisesAdvance t (resolve p t).
Proof.
  intros Hc. unfold resolve.
  destruct (promises t !! p) as [pr|] eqn:E; [|apply promisesAdvance_refl].
  specialize (Hc pr eq_refl).
  destruct (resolved pr) eqn:Er.
  - apply (promisesAdvance_storePromise _ _ pr); [exact E| |].
    + repeat split; auto.
    + unfold resolvedAfterItsCount. simpl. auto.
  - eapply promisesAdvance_step; [|reflexivity].
    apply (promisesAdvance_storePromise _ _ pr); [exact E| |].
    + repeat split; auto.
    + unfold resolvedAfterItsCount. simpl. auto.
Qed.

Lemma promisesAdvance_then p r t : promisesAdvance t (then_ p r t).
Proof.
  unfold then_.
  destruct (promises t !! p) as [pr|] eqn:E; [|apply promisesAdvance_refl].
  destruct (resolved pr) eqn:Er.
  - apply promisesAdvance_same. reflexivity.
  - apply (promisesAdvance_storePromise _ _ pr); [exact E| |].
    + repeat split; auto.
    + unfold resolvedAfterItsCount. simpl. auto.
Qed.

Lemma promisesAdvance_invoke cb t : promisesAdvance t (invoke cb t).
Proof.
  destruct cb as [|p]; simpl; [apply promisesAdvance_refl|].
  destruct (promises t !! p) as [pr|] eqn:E; [|apply promisesAdvance_refl].
  assert (H1 : promisesAdvance t
                 (storePromise p (set_closedCount (S (closedCount pr)) pr) t)).
  { apply (promisesAdvance_storePromise _ _ pr); [exact E| |].
    - repeat split; simpl; auto.
    - unfold resolvedAfterItsCount. simpl. intros H Hr.
      specialize (H Hr). lia. }
  destruct (openCount pr <=? S (closedCount pr))%nat eqn:El; [|exact H1].
  match goal with
  | |- promisesAdvance _ (resolve _ ?x) =>
      apply promisesAdvance_trans with (t2 := x);
        [exact (promisesAdvance_step _ _ x H1 eq_refl)|]
  end.
  apply promisesAdvance_resolve. intros pr' Hp'.
  unfold storePromise in Hp'. simpl in Hp'.
  rewrite list_lookup_insert_eq in Hp' by (eapply lookup_lt_Some; eauto).
  injection Hp' as <-. simpl. now apply Nat.leb_le.
Qed.

Lemma promisesAdvance_runCheck f i t : promisesAdvance t (runCheck f i t).
Proof.
  revert t. induction f as [|bookIndex cb f IH]; intros t; simpl.
  - destruct (lookupBook t i); [|apply promisesAdvance_refl].
    apply promisesAdvance_same. reflexivity.
  - destruct (lookupBook _ bookIndex) as [book|]; [|apply IH].
    destruct (_ && _); [|apply IH].
    eapply promisesAdvance_trans; [|apply promisesAdvance_invoke].
    eapply promisesAdvance_step; [apply IH|reflexivity].
Qed.

Lemma promisesAdvance_animate dt t : promisesAdvance t (animate dt t).
Proof.
  unfold animate. apply promisesAdvance_fold. intros a i.
  unfold animateBook. destruct (lookupBook a i) as [book|];
    [|apply promisesAdvance_refl].
  destruct (_ || _); [|apply promisesAdvance_refl].
  eapply promisesAdvance_trans; [|apply promisesAdvance_runCheck].
  apply promisesAdvance_same. reflexivity.
Qed.

Lemma promisesAdvance_toggle i cb t :
  promisesAdvance t (toggleBookAnimationWithCallback i cb t).
Proof.
  unfold toggleBookAnimationWithCallback.
  destruct (lookupBook t i) as [book|]; [|apply promisesAdvance_invoke].
  destruct (animationActions book); [apply promisesAdvance_invoke|].
  cbv zeta. destruct (negb _); apply promisesAdvance_same; reflexivity.
Qed.

Lemma promisesAdvance_append t pr :
  resolvedAfterItsCount pr ->
  promisesAdvance t (set_promises (promises t ++ [pr]) t).
Proof.
  intros Hs. split.
  - intros p pr0 Hp. exists pr0. split; [|apply promiseGrows_refl].
    simpl. apply lookup_app_l_Some. exact Hp.
  - intros HF. simpl. apply Forall_app. split; [exact HF|].
    constructor; [exact Hs|constructor].
Qed.

Lemma promisesAdvance_closeAll t :
  promisesAdvance t (fst (closeAllOpenBooksWithPromise t)).
Proof.
  unfold closeAllOpenBooksWithPromise.
  destruct (bookClosePromise t); [apply promisesAdvance_refl|].
  destruct (negb (isAnyBookOpen t)).
  { simpl. apply promisesAdvance_append. intros _. simpl. lia. }
  simpl.
  match goal with
  | |- promisesAdvance _ (set_bookClosePromise _ ?x) =>
      apply promisesAdvance_step with (t2 := x); [|reflexivity]
  end.
  eapply promisesAdvance_trans.
  { apply (promisesAdvance_append t
             (mkPromise (length (openBookIndices t)) 0 0 false [])).
    intros H. discriminate H. }
  destruct (openBookIndices t) as [|i l] eqn:Ei.
  - eapply promisesAdvance_trans;
      [|apply promisesAdvance_resolve].
    + apply promisesAdvance_same. reflexivity.
    + intros pr Hp. simpl in Hp.
      rewrite lookup_app_r in Hp by lia. rewrite Nat.sub_diag in Hp.
      injection Hp as <-. simpl. lia.
  - apply promisesAdvance_fold. intros a j. apply promisesAdvance_toggle.
Qed.

Lemma promisesAdvance_onCanvasClick hit t :
  promisesAdvance t (onCanvasClick hit t).
Proof.
  unfold onCanvasClick. destruct (_ || _); [apply promisesAdvance_refl|].
  destruct hit as [bookIndex|]; [|apply promisesAdvance_refl].
  pose proof (promisesAdvance_toggle bookIndex null_cb t) as H1.
  destruct (lookupBook _ bookIndex) as [book|]; [|exact H1].
  destruct (negb (isOpen book)); [|exact H1].
  eapply promisesAdvance_trans; [exact H1|].
  apply promisesAdvance_fold. intros a i.
  destruct (lookupBook a i); [|apply promisesAdvance_refl].
  destruct (_ && _); [apply promisesAdvance_toggle|apply promisesAdvance_refl].
Qed.

Lemma promisesAdvance_onReverseComplete i t :
  promisesAdvance t (onReverseComplete i t).
Proof.
  unfold onReverseComplete.
  destruct (lookupBook t i) as [book|]; [|apply promisesAdvance_refl].
  destruct (openTimeline book); [|apply promisesAdvance_refl].
  eapply promisesAdvance_trans; [|apply promisesAdvance_invoke].
  apply promisesAdvance_same. reflexivity.
Qed.

Section PromisesAdvance.

Context {M : Math}.

Lemma promises_runMicrotasks t : promises (runMicrotasks t) = promises t.
Proof.
  unfold runMicrotasks.
  rewrite (fold_left_preserves promises); [reflexivity|].
  intros a []. reflexivity.
Qed.

Lemma promisesAdvance_onUpdate progress t :
  promisesAdvance t (onUpdate progress t).
Proof.
  unfold onUpdate. cbv zeta.
  match goal with
  | |- promisesAdvance _ (set_lastProgress _ ?x) =>
      apply promisesAdvance_step with (t2 := x); [|reflexivity]
  end.
  match goal with
  | |- promisesAdvance _ (if _ then _ else ?x) =>
      assert (H1 : promisesAdvance t x); [|set (t1 := x) in *]
  end.
  { destruct (_ && _); [|apply promisesAdvance_refl].
    pose proof (promisesAdvance_closeAll
                  (set_isClosingFromScroll true (set_scrollEnabled false t)))
      as Hc.
    destruct (closeAllOpenBooksWithPromise _) as [t' p]. simpl in Hc.
    eapply promisesAdvance_trans; [|apply promisesAdvance_then].
    eapply promisesAdvance_trans; [|exact Hc].
    apply promisesAdvance_same. reflexivity. }
  clearbody t1.
  destruct (negb (isClosingFromScroll t1)); [|exact H1].
  eapply promisesAdvance_step; [exact H1|reflexivity].
Qed.

Lemma promisesAdvance_handle e t : promisesAdvance t (handle e t).
Proof.
  destruct e; simpl.
  - destruct (scrollEnabled t);
      [apply promisesAdvance_onUpdate|apply promisesAdvance_refl].
  - destruct (scrollEnabled t);
      [apply promisesAdvance_closeAll|apply promisesAdvance_refl].
  - apply promisesAdvance_animate.
  - apply promisesAdvance_onCanvasClick.
  - apply promisesAdvance_same.
    apply (view_onCanvasMouseMove promises); reflexivity.
  - apply promisesAdvance_same.
    apply (view_clearHoveredBook promises); reflexivity.
  - apply promisesAdvance_same.
    apply (view_onComplete promises); reflexivity.
  - apply promisesAdvance_onReverseComplete.
  - unfold positionTransitionComplete.
    destruct (positionTransitions t); apply promisesAdvance_same; reflexivity.
  - unfold scrollTweenOnUpdate.
    destruct (scrollTweens t); apply promisesAdvance_same; reflexivity.
  - unfold scrollTweenOnComplete.
    destruct (scrollTweens t); apply promisesAdvance_same; reflexivity.
Qed.

Lemma promisesAdvance_run es : forall t, promisesAdvance t (run es t).
Proof.
  unfold run. apply promisesAdvance_fold. intros t e. unfold step.
  eapply promisesAdvance_step;
    [apply promisesAdvance_handle|apply promises_runMicrotasks].
Qed.

(** X16. The aggregate close is never resolved early: in every scene
    reached from the loaded one, a promise that is resolved has counted
    at least as many closing callbacks as it had books to close. *)
Theorem aggregate_close_resolves_only_after_its_count
    gltfs triggerStart triggerEnd es p pr :
  promises (run es (onAllBooksLoaded gltfs triggerStart triggerEnd)) !! p
  = Some pr ->
  resolved pr = true -> (openCount pr <= closedCount pr)%nat.
Proof.
  intros Hp.
  destruct (promisesAdvance_run es
              (onAllBooksLoaded gltfs triggerStart triggerEnd)) as [_ HF].
  specialize (HF (List.Forall_nil _)).
  rewrite Forall_lookup in HF. exact (HF _ _ Hp).
Qed.

(** X17. No event forgets a promise, lowers its count of closing
    callbacks, changes the number of books it waits for or takes its
    resolution back. *)
Theorem promises_only_advance es t p pr :
  promises t !! p = Some pr ->
  exists pr',
    promises (run es t) !! p = Some pr'
    /\ openCount pr' = openCount pr
    /\ (closedCount pr <= closedCount pr')%nat
    /\ (resolved pr = true -> resolved pr' = true).
Proof.
  intros Hp. destruct (promisesAdvance_run es t) as [H _].
  exact (H p pr Hp).
Qed.

End PromisesAdvance.

(** ** The recovery *)

Lemma sum_list_insert {A} (f : A -> nat) l : forall p x y,
  l !! p = Some x ->
  (sum_list (map f (<[p := y]> l)) + f x = sum_list (map f l) + f y)%nat.
Proof.
  induction l as [|a l IH]; intros [|p] x y H; simpl in *; try discriminate.
  - injection H as ->. lia.
  - specialize (IH p x y H). lia.
Qed.

Lemma reactionsWaiting_storePromise t p pr pr' :
  promises t !! p = Some pr -> reactions pr' = reactions pr ->
  reactionsWaiting (storePromise p pr' t) = reactionsWaiting t.
Proof.
  intros Hp Hr. unfold reactionsWaiting, storePromise. simpl.
  pose proof (sum_list_insert (fun pr => length (reactions pr))
                (promises t) p pr pr' Hp) as H.
  simpl in H. rewrite Hr in H. lia.
Qed.

Lemma reactionsWaiting_resolve p t :
  reactionsWaiting (resolve p t) = reactionsWaiting t.
Proof.
  unfold resolve. destruct (promises t !! p) as [pr|] eqn:E; [|reflexivity].
  destruct (resolved pr).
  - apply (reactionsWaiting_storePromise _ _ pr); [exact E|reflexivity].
  - unfold reactionsWaiting, storePromise. simpl.
    pose proof (sum_list_insert (fun pr => length (reactions pr))
                  (promises t) p pr
                  (set_reactions []
                     (set_resolved true
                        (set_resolveCalls (S (resolveCalls pr)) pr))) E) as H.
    simpl in H. rewrite length_app. lia.
Qed.

Lemma reactionsWaiting_then p r t :
  (reactionsWaiting (then_ p r t) <= S (reactionsWaiting t))%nat.
Proof.
  unfold then_.
  destruct (promises t !! p) as [pr|] eqn:E; [|lia].
  destruct (resolved pr).
  - unfold reactionsWaiting. simpl. rewrite length_app. simpl. lia.
  - unfold reactionsWaiting, storePromise. simpl.
    pose proof (sum_list_insert (fun pr => length (reactions pr))
                  (promises t) p pr
                  (set_reactions (reactions pr ++ [r]) pr) E) as H.
    simpl in H. rewrite length_app in H. simpl in H. lia.
Qed.

Lemma reactionsWaiting_same t t' :
  promises t' = promises t -> microtasks t' = microtasks t ->
  reactionsWaiting t' = reactionsWaiting t.
Proof. unfold reactionsWaiting. now intros -> ->. Qed.

Lemma reactionsWaiting_invoke cb t :
  reactionsWaiting (invoke cb t) = reactionsWaiting t.
Proof.
  destruct cb as [|p]; simpl; [reflexivity|].
  destruct (promises t !! p) as [pr|] eqn:E; [|reflexivity].
  assert (H1 : reactionsWaiting
                 (storePromise p (set_closedCount (S (closedCount pr)) pr) t)
               = reactionsWaiting t)
    by (apply (reactionsWaiting_storePromise _ _ pr); [exact E|reflexivity]).
  destruct (_ <=? _)%nat; [|exact H1].
  rewrite reactionsWaiting_resolve. rewrite <- H1. reflexivity.
Qed.

Lemma reactionsWaiting_runCheck f i t :
  reactionsWaiting (runCheck f i t) = reactionsWaiting t.
Proof.
  revert t. induction f as [|bookIndex cb f IH]; intros t; simpl.
  - destruct (lookupBook t i); reflexivity.
  - destruct (lookupBook _ bookIndex) as [book|]; [|apply IH].
    destruct (_ && _); [|apply IH].
    rewrite reactionsWaiting_invoke. rewrite <- (IH t). reflexivity.
Qed.

Lemma reactionsWaiting_animate dt t :
  reactionsWaiting (animate dt t) = reactionsWaiting t.
Proof.
  unfold animate. apply fold_left_preserves. intros a i.
  unfold animateBook. destruct (lookupBook a i) as [book|]; [|reflexivity].
  destruct (_ || _); [|reflexivity].
  rewrite reactionsWaiting_runCheck. reflexivity.
Qed.

Lemma reactionsWaiting_toggle i cb t :
  reactionsWaiting (toggleBookAnimationWithCallback i cb t)
  = reactionsWaiting t.
Proof.
  unfold toggleBookAnimationWithCallback.
  destruct (lookupBook t i) as [book|]; [|apply reactionsWaiting_invoke].
  destruct (animationActions book); [apply reactionsWaiting_invoke|].
  cbv zeta. destruct (negb _); reflexivity.
Qed.

Lemma reactionsWaiting_append t pr :
  reactions pr = [] ->
  reactionsWaiting (set_promises (promises t ++ [pr]) t) = reactionsWaiting t.
Proof.
  intros Hr. unfold reactionsWaiting. simpl.
  rewrite map_app. simpl. rewrite Hr. simpl.
  assert (H : forall l, sum_list (l ++ [0%nat]) = sum_list l).
  { induction l; simpl; auto. }
  rewrite H. reflexivity.
Qed.

Lemma reactionsWaiting_closeAll t :
  reactionsWaiting (fst (closeAllOpenBooksWithPromise t)) = reactionsWaiting t.
Proof.
  unfold closeAllOpenBooksWithPromise.
  destruct (bookClosePromise t); [reflexivity|].
  destruct (negb (isAnyBookOpen t)).
  { simpl. apply reactionsWaiting_append. reflexivity. }
  simpl.
  pose proof (reactionsWaiting_append t
                (mkPromise (length (openBookIndices t)) 0 0 false [])
                eq_refl) as Ha.
  match goal with
  | |- reactionsWaiting (set_bookClosePromise _ ?x) = _ =>
      transitivity (reactionsWaiting x); [reflexivity|]
  end.
  destruct (openBookIndices t) as [|i l].
  - rewrite reactionsWaiting_resolve. exact Ha.
  - rewrite (fold_left_preserves reactionsWaiting); [exact Ha|].
    intros. apply reactionsWaiting_toggle.
Qed.


Lemma reactionsWaiting_onCanvasClick hit t :
  reactionsWaiting (onCanvasClick hit t) = reactionsWaiting t.
Proof.
  unfold onCanvasClick. destruct (_ || _); [reflexivity|].
  destruct hit as [bookIndex|]; [|reflexivity].
  pose proof (reactionsWaiting_toggle bookIndex null_cb t) as H1.
  destruct (lookupBook _ bookIndex) as [book|]; [|exact H1].
  destruct (negb (isOpen book)); [|exact H1].
  rewrite (fold_left_preserves reactionsWaiting); [exact H1|].
  intros a i. destruct (lookupBook a i); [|reflexivity].
  destruct (_ && _); [apply reactionsWaiting_toggle|reflexivity].
Qed.

Lemma reactionsWaiting_onReverseComplete i t :
  reactionsWaiting (onReverseComplete i t) = reactionsWaiting t.
Proof.
  unfold onReverseComplete.
  destruct (lookupBook t i) as [book|]; [|reflexivity].
  destruct (openTimeline book); [|reflexivity].
  rewrite reactionsWaiting_invoke. reflexivity.
Qed.

(** The part of the coordination the invariant reads. *)
Lemma coordination_fields t t' :
  coordination t' = coordination t ->
  isClosingFromScroll t' = isClosingFromScroll t
  /\ scrollEnabled t' = scrollEnabled t
  /\ positionTransitions t' = positionTransitions t
  /\ scrollTweens t' = scrollTweens t.
Proof.
  unfold coordination. intros H. injection H as H1 H2 _ H4 H5. auto.
Qed.

Lemma recoveryInvariant_fields t t' :
  isClosingFromScroll t' = isClosingFromScroll t
  /\ scrollEnabled t' = scrollEnabled t
  /\ positionTransitions t' = positionTransitions t
  /\ scrollTweens t' = scrollTweens t ->
  reactionsWaiting t' = reactionsWaiting t ->
  recoveryInvariant t -> recoveryInvariant t'.
Proof.
  intros (H1 & H2 & H3 & H4) Hw [A B C].
  constructor; unfold recoveriesInFlight in *;
    rewrite ?H1, ?H2, ?H3, ?H4, ?Hw; assumption.
Qed.

Lemma recoveryInvariant_same t t' :
  coordination t' = coordination t ->
  reactionsWaiting t' = reactionsWaiting t ->
  recoveryInvariant t -> recoveryInvariant t'.
Proof.
  intros Hc. apply recoveryInvariant_fields, coordination_fields, Hc.
Qed.

Section Recovery.

Context {M : Math}.

Lemma recoveryInvariant_onUpdate progress t :
  scrollEnabled t = true ->
  recoveryInvariant t -> recoveryInvariant (onUpdate progress t).
Proof.
  intros He Hinv.
  destruct (Qltb progress (lastProgress t) && isAnyBookOpen t
            && negb (isClosingFromScroll t)) eqn:Hg.
  - destruct (onUpdate_entry progress t Hg) as (Eq & Hf & Hd).
    assert (Hcl : isClosingFromScroll t = false).
    { apply andb_true_iff in Hg as [_ Hg]. now apply negb_true_iff in Hg. }
    pose proof (recovery_idle _ Hinv Hcl) as Hidle.
    set (t0 := set_isClosingFromScroll true (set_scrollEnabled false t)) in *.
    pose proof (coordination_closeAll t0) as Hco.
    pose proof (reactionsWaiting_closeAll t0) as Hw.
    pose proof (reactionsWaiting_then
                  (snd (closeAllOpenBooksWithPromise t0))
                  (recoveryThen progress)
                  (fst (closeAllOpenBooksWithPromise t0))) as Hth.
    pose proof (coordination_then
                  (snd (closeAllOpenBooksWithPromise t0))
                  (recoveryThen progress)
                  (fst (closeAllOpenBooksWithPromise t0))) as Hcth.
    rewrite Hco in Hcth.
    destruct (coordination_fields _ _ Hcth) as (H1 & H2 & H3 & H4).
    unfold recoveriesInFlight in Hidle.
    assert (Hpt : positionTransitions t = [])
      by (destruct (positionTransitions t); [reflexivity|simpl in Hidle; lia]).
    assert (Hst : scrollTweens t = [])
      by (destruct (scrollTweens t); [reflexivity|simpl in Hidle; lia]).
    assert (Hw0 : reactionsWaiting t0 = 0%nat).
    { change (reactionsWaiting t0) with (reactionsWaiting t). lia. }
    rewrite Eq.
    set (r := then_ (snd (closeAllOpenBooksWithPromise t0))
                (recoveryThen progress)
                (fst (closeAllOpenBooksWithPromise t0))) in *.
    change (isClosingFromScroll t0) with true in H1.
    change (positionTransitions t0) with (positionTransitions t) in H3.
    change (scrollTweens t0) with (scrollTweens t) in H4.
    constructor.
    + intros _.
      change (isClosingFromScroll r = true
              /\ positionTransitions r = [] /\ scrollTweens r = []).
      rewrite H1, H3, H4. auto.
    + change (isClosingFromScroll r = false -> recoveriesInFlight r = 0%nat).
      rewrite H1. discriminate.
    + change (recoveriesInFlight r <= 1)%nat. unfold recoveriesInFlight.
      rewrite H3, H4, Hpt, Hst. simpl. lia.
  - destruct (isClosingFromScroll t) eqn:Hcl.
    + rewrite (onUpdate_while_closing progress t Hcl).
      apply (recoveryInvariant_same t); [reflexivity|reflexivity|exact Hinv].
    + rewrite <- Hcl in Hg at 1.
      rewrite (onUpdate_steady progress t Hg Hcl).
      apply (recoveryInvariant_fields t);
        [repeat split|reflexivity|exact Hinv].
Qed.

Lemma recoveryInvariant_handle e t :
  recoveryInvariant t -> recoveryInvariant (handle e t).
Proof.
  intros Hinv. destruct e; simpl.
  - destruct (scrollEnabled t) eqn:He; [|exact Hinv].
    now apply recoveryInvariant_onUpdate.
  - destruct (scrollEnabled t); [|exact Hinv].
    apply (recoveryInvariant_same t);
      [apply coordination_closeAll|apply reactionsWaiting_closeAll|exact Hinv].
  - apply (recoveryInvariant_same t);
      [apply coordination_animate|apply reactionsWaiting_animate|exact Hinv].
  - apply (recoveryInvariant_same t);
      [apply coordination_onCanvasClick|apply reactionsWaiting_onCanvasClick
      |exact Hinv].
  - apply (recoveryInvariant_same t);
      [apply coordination_onCanvasMouseMove
      |apply (view_onCanvasMouseMove reactionsWaiting); reflexivity
      |exact Hinv].
  - apply (recoveryInvariant_same t);
      [apply coordination_clearHoveredBook
      |apply (view_clearHoveredBook reactionsWaiting); reflexivity
      |exact Hinv].
  - apply (recoveryInvariant_same t);
      [apply coordination_onComplete
      |apply (view_onComplete reactionsWaiting); reflexivity
      |exact Hinv].
  - apply (recoveryInvariant_same t);
      [apply coordination_onReverseComplete
      |apply reactionsWaiting_onReverseComplete
      |exact Hinv].
  - destruct Hinv as [A B C]. unfold positionTransitionComplete.
    destruct (positionTransitions t) as [|pt rest] eqn:Ept;
      [constructor; rewrite ?Ept; assumption|].
    unfold recoveriesInFlight, reactionsWaiting in *.
    constructor; unfold recoveriesInFlight, reactionsWaiting; simpl.
    + intros He. destruct (A He) as (_ & H & _). rewrite ?Ept in H.
      discriminate.
    + intros Hc. specialize (B Hc). rewrite ?Ept in B. simpl in B. lia.
    + rewrite ?Ept in C. simpl in C. rewrite length_app. simpl. lia.
  - unfold scrollTweenOnUpdate. destruct (scrollTweens t); [exact Hinv|].
    apply (recoveryInvariant_same t); [reflexivity|reflexivity|exact Hinv].
  - destruct Hinv as [A B C]. unfold scrollTweenOnComplete.
    destruct (scrollTweens t) as [|tw rest] eqn:Est;
      [constructor; rewrite ?Est; assumption|].
    unfold recoveriesInFlight, reactionsWaiting in *.
    rewrite ?Est in C. simpl in C.
    constructor; unfold recoveriesInFlight, reactionsWaiting; simpl.
    + intros He. destruct (A He) as (_ & _ & H). rewrite ?Est in H.
      discriminate.
    + intros _. lia.
    + lia.
Qed.

Lemma length_fold_runReaction l : forall t,
  let t' := fold_left (fun t r => runReaction r t) l t in
  promises t' = promises t
  /\ microtasks t' = microtasks t
  /\ isClosingFromScroll t' = isClosingFromScroll t
  /\ scrollTweens t' = scrollTweens t
  /\ length (positionTransitions t')
     = (length (positionTransitions t) + length l)%nat
  /\ (l <> [] -> scrollEnabled t' = true)
  /\ (l = [] -> t' = t).
Proof.
  induction l as [|r l IH]; intros t; cbv zeta; simpl.
  - repeat split; auto; congruence.
  - destruct (IH (runReaction r t)) as (H1 & H2 & H3 & H4 & H5 & H6 & H7).
    destruct r as [targetProgress].
    rewrite H1, H2, H3, H4, H5.
    repeat split; try reflexivity.
    + simpl. rewrite length_app. simpl. lia.
    + intros _. destruct l as [|r' l'].
      * rewrite (H7 eq_refl). reflexivity.
      * apply H6. discriminate.
    + discriminate.
Qed.

Lemma recoveryInvariant_runMicrotasks t :
  recoveryInvariant t -> recoveryInvariant (runMicrotasks t).
Proof.
  intros Hinv. unfold runMicrotasks.
  pose proof (length_fold_runReaction (microtasks t) (set_microtasks [] t))
    as H. cbv zeta in H.
  set (t' := fold_left (fun t r => runReaction r t) (microtasks t)
               (set_microtasks [] t)) in *.
  clearbody t'. destruct H as (H1 & H2 & H3 & H4 & H5 & H6 & H7).
  simpl in H1, H2, H3, H4, H5.
  destruct (microtasks t) as [|r l] eqn:Em.
  - rewrite (H7 eq_refl).
    apply (recoveryInvariant_fields t); [repeat split| |exact Hinv].
    unfold reactionsWaiting. simpl. rewrite Em. reflexivity.
  - destruct Hinv as [A B C]. specialize (H6 ltac:(discriminate)).
    unfold recoveriesInFlight, reactionsWaiting in B, C.
    rewrite Em in B, C. simpl in B, C.
    constructor; unfold recoveriesInFlight, reactionsWaiting;
      rewrite ?H1, ?H2, ?H3, ?H4, ?H5; simpl.
    + intros He. congruence.
    + intros Hc. specialize (B Hc). lia.
    + lia.
Qed.

Lemma recoveryInvariant_run es : forall t,
  recoveryInvariant t -> recoveryInvariant (run es t).
Proof.
  unfold run. apply fold_left_invariant. intros t e Ht. unfold step.
  apply recoveryInvariant_runMicrotasks, recoveryInvariant_handle, Ht.
Qed.

Lemma recoveryInvariant_onAllBooksLoaded gltfs triggerStart triggerEnd :
  recoveryInvariant (onAllBooksLoaded gltfs triggerStart triggerEnd).
Proof.
  constructor; simpl; try discriminate; try reflexivity.
  unfold recoveriesInFlight, reactionsWaiting. simpl. lia.
Qed.

(** X18. In every scene reached from the loaded one, the scroll trigger
    is disabled only while a recovery is closing the books; at most one
    recovery is under way; and while the recovery flag is clear nothing
    of a recovery is left: no reaction waits on a promise or in the
    queue of microtasks, no position transition and no scroll tween is
    running, and the trigger is enabled. *)
Theorem scroll_trigger_is_disabled_only_during_a_recovery
    gltfs triggerStart triggerEnd es :
  let t := run es (onAllBooksLoaded gltfs triggerStart triggerEnd) in
  (scrollEnabled t = false ->
   isClosingFromScroll t = true
   /\ positionTransitions t = [] /\ scrollTweens t = [])
  /\ (recoveriesInFlight t <= 1)%nat
  /\ (isClosingFromScroll t = false ->
      scrollEnabled t = true
      /\ microtasks t = [] /\ positionTransitions t = []
      /\ scrollTweens t = []
      /\ Forall (fun pr => reactions pr = []) (promises t)).
Proof.
  intros t.
  destruct (recoveryInvariant_run es _
              (recoveryInvariant_onAllBooksLoaded
                 gltfs triggerStart triggerEnd)) as [A B C].
  fold t in A, B, C. clearbody t.
  split; [exact A|]. split; [exact C|].
  intros Hc. specialize (B Hc).
  unfold recoveriesInFlight, reactionsWaiting in B.
  split.
  { destruct (scrollEnabled t) eqn:He; [reflexivity|].
    destruct (A eq_refl) as (H & _). congruence. }
  split; [destruct (microtasks t); [reflexivity|simpl in B; lia]|].
  split; [destruct (positionTransitions t); [reflexivity|simpl in B; lia]|].
  split; [destruct (scrollTweens t); [reflexivity|simpl in B; lia]|].
  assert (Hs : sum_list (map (fun pr => length (reactions pr)) (promises t))
               = 0%nat) by lia.
  clear -Hs. induction (promises t) as [|pr l IH]; [constructor|].
  simpl in Hs. constructor.
  - destruct (reactions pr); [reflexivity|simpl in Hs; lia].
  - apply IH. lia.
Qed.

End Recovery.

(** ** The frame and the aggregate close, book by book *)

Lemma lookupBook_animateBook dt t i j :
  lookupBook (animateBook dt t j) i
  = if decide (i = j)
    then (fun book =>
            if isClickPlaying book || isHoverPlaying book
            then checkAnimationProgress (mixerUpdate dt book) else book)
         <$> lookupBook t i
    else lookupBook t i.
Proof.
  unfold lookupBook at 1. rewrite bookInstances_animateBook.
  destruct (decide (i = j)) as [->|Hne].
  - destruct (lookupBook t j) as [book|] eqn:E; simpl.
    + destruct (_ || _).
      * rewrite list_lookup_insert_eq; [reflexivity|].
        unfold lookupBook in E.
        destruct (bookInstances t !! j) eqn:E'; [|discriminate].
        eapply lookup_lt_Some; eauto.
      * fold (lookupBook t j). exact E.
    + fold (lookupBook t j). exact E.
  - destruct (lookupBook t j) as [book|]; [|reflexivity].
    destruct (_ || _); [|reflexivity].
    rewrite list_lookup_insert_ne by auto. reflexivity.
Qed.

Lemma lookupBook_animate_fold dt l : forall t i,
  NoDup l ->
  lookupBook (fold_left (animateBook dt) l t) i
  = if decide (elem_of i l)
    then (fun book =>
            if isClickPlaying book || isHoverPlaying book
            then checkAnimationProgress (mixerUpdate dt book) else book)
         <$> lookupBook t i
    else lookupBook t i.
Proof.
  induction l as [|j l IH]; intros t i Hnd; simpl.
  - destruct (decide (elem_of i [])) as [H|_]; [|reflexivity].
    now apply elem_of_nil in H.
  - apply NoDup_cons in Hnd as [Hj Hnd]. rewrite (IH _ _ Hnd).
    rewrite lookupBook_animateBook.
    destruct (decide (i = j)) as [->|Hne].
    + destruct (decide (elem_of j l)); [contradiction|].
      destruct (decide (elem_of j (j :: l))) as [_|Hn]; [reflexivity|].
      elim Hn. left.
    + destruct (decide (elem_of i l)) as [Hin|Hnin];
        destruct (decide (elem_of i (j :: l))) as [Hin'|Hnin']; try reflexivity.
      * elim Hnin'. now right.
      * apply elem_of_cons in Hin' as [?|?]; contradiction.
Qed.

(** X19. A frame deals with each book on its own: a book that is playing
    gets one update of its mixer followed by one check, whatever the
    other books do, and a book that is not playing is left as it is. *)
Theorem frame_updates_each_playing_book_once dt t i :
  lookupBook (animate dt t) i
  = (fun book =>
       if isClickPlaying book || isHoverPlaying book
       then checkAnimationProgress (mixerUpdate dt book) else book)
    <$> lookupBook t i.
Proof.
  unfold animate. rewrite lookupBook_animate_fold by apply NoDup_seq.
  destruct (decide (elem_of i (seq 0 (length (bookInstances t))))) as [_|Hn];
    [reflexivity|].
  destruct (lookupBook t i) as [book|] eqn:E; [|reflexivity].
  elim Hn. apply elem_of_seq. split; [lia|]. simpl.
  unfold lookupBook in E.
  destruct (bookInstances t !! i) eqn:E'; [|discriminate].
  eapply lookup_lt_Some; eauto.
Qed.

(** *** The aggregate close of [script.js] *)







(** ** The statements at concrete scenes *)

(** The scenes below are run with [sampleMath]. *)
#[local] Existing Instance sampleMath.

Lemma toggle_without_clips_witness :
  (lookupBook pendingClose 1 = None
   \/ exists book,
        lookupBook pendingClose 1 = Some book /\ animationActions book = [])
  /\ toggleBookAnimationWithCallback 1 null_cb pendingClose = pendingClose
  /\ bookInstances
       (toggleBookAnimationWithCallback 0 (checkAllClosed 0) pendingClose)
     = bookInstances pendingClose
  /\ promiseClosedCount 0
       (toggleBookAnimationWithCallback 0 (checkAllClosed 0) pendingClose)
     = Some 1%nat.
Proof.
  assert (H1 : lookupBook pendingClose 1 = None
               \/ exists book, lookupBook pendingClose 1 = Some book
                               /\ animationActions book = [])
    by (right; eexists; split; reflexivity).
  assert (H0 : lookupBook pendingClose 0 = None
               \/ exists book, lookupBook pendingClose 0 = Some book
                               /\ animationActions book = [])
    by (left; reflexivity).
  split; [exact H1|].
  split; [exact (proj1 (proj2 (toggle_without_clips_only_calls_back
                                 pendingClose 1 null_cb H1)))|].
  destruct (toggle_without_clips_only_calls_back
              pendingClose 0 (checkAllClosed 0) H0) as (_ & _ & Hb & _ & Hc).
  split; [exact Hb|].
  exact (Hc 0%nat (mkPromise 1 0 0 false []) eq_refl eq_refl).
Defined.

Lemma orbit_update_witness :
  (0 < books_length)%nat
  /\ (stateOf <$> lookupBook fourBooks 0) = Some Closed
  /\ (rotation <$> lookupBook (updateBookPositions 0.5 fourBooks) 0)
     = Some (orbitRotation 0.5 0)
  /\ (stateOf <$> lookupBook (run [scrollUpdate 1; click (Some 0%nat)]
                                fourBooks) 0) = Some Opening
  /\ lookupBook
       (updateBookPositions 0.5
          (run [scrollUpdate 1; click (Some 0%nat)] fourBooks)) 0
     = lookupBook (run [scrollUpdate 1; click (Some 0%nat)] fourBooks) 0.
Proof.
  assert (Hlt : (0 < books_length)%nat) by (unfold books_length; lia).
  split; [exact Hlt|].
  split; [reflexivity|].
  split.
  - destruct (lookupBook fourBooks 0) as [book|] eqn:E; [|discriminate].
    assert (Hc : isOpen book || isClickPlaying book = false)
      by (injection E as <-; reflexivity).
    destruct (orbit_update_writes_only_books_not_under_click_control
                0.5 fourBooks 0 book Hlt E) as (book' & Hl & _ & Hw & _).
    rewrite Hl. simpl. destruct (Hw Hc) as (_ & Hr & _). rewrite Hr.
    reflexivity.
  - split; [vm_compute; reflexivity|].
    set (opening := run [scrollUpdate 1; click (Some 0%nat)] fourBooks).
    assert (Hs : (isClickPlaying <$> lookupBook opening 0) = Some true)
      by (vm_compute; reflexivity).
    destruct (lookupBook opening 0) as [book|] eqn:E; [|discriminate].
    injection Hs as Hs.
    destruct (orbit_update_writes_only_books_not_under_click_control
                0.5 opening 0 book Hlt E) as (book' & Hl & Hk & _).
    rewrite Hl, Hk; [reflexivity|]. rewrite Hs. apply orb_true_r.
Defined.

Lemma isOpen_changes_witness :
  let opening := run [scrollUpdate 1; click (Some 0%nat)] fourBooks in
  (isOpen <$> lookupBook opening 0) = Some false
  /\ (isOpen <$> lookupBook (step opening (frame 1)) 0) = Some true
  /\ (isClickPlaying <$> lookupBook opening 0) = Some true
  /\ (isClickPlaying <$> lookupBook (step opening (frame 1)) 0) = Some false
  /\ (exists book',
        lookupBook (toggleBookAnimationWithCallback 2 null_cb fourBooks) 2
        = Some book'
        /\ isClickPlaying book' = true /\ isOpen book' = false).
Proof.
  intros opening.
  destruct isOpen_changes_only_when_a_click_transition_settles
    as (_ & Hstep & Htoggle & _).
  assert (P1 : (isOpen <$> lookupBook opening 0) = Some false)
    by (vm_compute; reflexivity).
  assert (P2 : (isOpen <$> lookupBook (step opening (frame 1)) 0) = Some true)
    by (vm_compute; reflexivity).
  split; [exact P1|]. split; [exact P2|].
  destruct (lookupBook opening 0) as [book|] eqn:E1; [|discriminate].
  destruct (lookupBook (step opening (frame 1)) 0) as [book'|] eqn:E2;
    [|discriminate].
  injection P1 as P1. injection P2 as P2.
  destruct (Hstep opening (frame 1) 0%nat book book' E1 E2)
    as (_ & Hc & Hc'); [congruence|].
  split; [simpl; congruence|]. split; [simpl; congruence|].
  destruct (lookupBook fourBooks 2) as [book2|] eqn:E; [|discriminate].
  assert (Hne : animationActions book2 <> [])
    by (injection E as <-; discriminate).
  assert (Ho : isOpen book2 = false) by (injection E as <-; reflexivity).
  destruct (Htoggle fourBooks 2%nat null_cb book2 E Hne)
    as (b & Hb & Hcp & Hop).
  exists b. rewrite Hop. auto.
Defined.

(** C4, as stated, fails in its last sentence. Book 0 has just been
    clicked: its timeline is running and holds the tween that moves book
    1 off stage. Book 1 is Closed, so the orbit update of the next scroll
    event writes its position as well: two drivers write the transform
    of book 1. *)
Lemma orbit_writes_a_book_that_a_timeline_moves :
  let opening := run [scrollUpdate 1; click (Some 0%nat)] fourBooks in
  let scrolled := step opening (scrollUpdate 0.9) in
  timelineDrives opening 1 = true
  /\ timelineDrives scrolled 1 = true
  /\ (stateOf <$> lookupBook opening 1) = Some Closed
  /\ scrollEnabled opening = true
  /\ isClosingFromScroll scrolled = false
  /\ (position <$> lookupBook opening 1)
     = Some (THREE.mkVector3 (fst (place 1 1)) (snd (place 1 1)) 0.25)
  /\ (position <$> lookupBook scrolled 1)
     = Some (THREE.mkVector3 (fst (place 0.9 1)) (snd (place 0.9 1)) 0.25)
  /\ Qeq_bool (fst (place 0.9 1)) (fst (place 1 1)) = false.
Proof. cbv zeta. evaluate. Qed.

(** C7, as stated, fails: the computation of the target positions writes
    the field [lastCalculatedPositions]. *)
Lemma placement_writes_the_position_cache :
  lastCalculatedPositions fourBooks = []
  /\ lastCalculatedPositions
       (fst (calculateBookPositionsForProgress 0 fourBooks))
     = map (place 0) [0; 1; 2; 3]%nat
  /\ fst (calculateBookPositionsForProgress 0 fourBooks) <> fourBooks.
Proof.
  split; [reflexivity|]. split; [reflexivity|].
  intros H. apply (f_equal lastCalculatedPositions) in H. discriminate H.
Qed.

Lemma placement_witness :
  (stateOf <$> lookupBook fourBooks 3) = Some Closed
  /\ ((fun book => (THREE.x (position book), THREE.y (position book)))
        <$> lookupBook (updateBookPositions 1 fourBooks) 3)
     = Some (place 1 3)
  /\ nth 3 (snd (calculateBookPositionsForProgress 1 fourBooks)) (0, 0)
     = place 1 3
  /\ angleX 1 3 == - Math_PI * 2.8
  /\ angleY 1 3 == - Math_PI * 2.45
  /\ angleX 0 3 == - Math_PI * 1.6.
Proof.
  destruct (placement_depends_only_on_progress_and_index 1 fourBooks)
    as (Hp & _ & _ & Hu & _ & Ha).
  split; [reflexivity|].
  split.
  - destruct (lookupBook fourBooks 3) as [book|] eqn:E; [|discriminate].
    assert (Hc : isOpen book || isClickPlaying book = false)
      by (injection E as <-; reflexivity).
    destruct (Hu 3%nat book E Hc) as (book' & Hl & Hxy).
    rewrite Hl. simpl. now f_equal.
  - split; [rewrite Hp; reflexivity|].
    destruct (Ha 3%nat) as (H0 & _ & H1 & H2). auto.
Defined.

(** C3, as stated, fails in its "only if". Book 0 is opened and clicked
    again: it is Closing, its [isOpen] still set, and no book is Open.
    A scroll update with a lower progress starts the recovery all the
    same: the trigger is disabled and the flag set. *)
Lemma recovery_starts_while_no_book_is_open :
  let closing := run closeOpenedBook fourBooks in
  statesOf closing = [Some Closing; Some Closed; Some Closed; Some Closed]
  /\ (forall i book, lookupBook closing i = Some book -> stateOf book <> Open)
  /\ isClosingFromScroll closing = false
  /\ scrollEnabled closing = true
  /\ 0.5 < lastProgress closing
  /\ isClosingFromScroll (step closing (scrollUpdate 0.5)) = true
  /\ scrollEnabled (step closing (scrollUpdate 0.5)) = false.
Proof.
  cbv zeta.
  split; [vm_compute; reflexivity|].
  split.
  { intros i book H.
    destruct i as [|[|[|[|i]]]]; vm_compute in H; try discriminate;
      injection H as <-; discriminate. }
  evaluate.
Qed.

Lemma scroll_recovery_witness :
  let opened :=
    run [scrollUpdate 1; click (Some 0%nat); frame 1] fourBooks in
  let recovering := run reverseWithOneOpen fourBooks in
  let closed := step recovering (frame 1) in
  let scrolling := step closed positionTransitionDone in
  (0.5 < lastProgress opened /\ isAnyBookOpen opened = true
   /\ (isOpen <$> lookupBook opened 0) = Some true
   /\ isClosingFromScroll opened = false)
  /\ isClosingFromScroll (onUpdate 0.5 opened) = true
  /\ scrollEnabled (onUpdate 0.5 opened) = false
  /\ isClosingFromScroll recovering = true
  /\ onUpdate 0.25 recovering = set_lastProgress 0.25 recovering
  /\ (isClosingFromScroll fourBooks = false
      /\ ~ (1 < lastProgress fourBooks /\ isAnyBookOpen fourBooks = true))
  /\ onUpdate 1 fourBooks
     = set_lastProgress 1
         (set_canInteract (Qeq_bool 1 1) (updateBookPositions 1 fourBooks))
  /\ (exists pt, positionTransitions closed = [pt]
                 /\ scrollTweens (positionTransitionComplete closed)
                    = scrollTweens closed
                      ++ [mkScrollTween (scrollY closed)
                            (triggerStart closed
                             + (triggerEnd closed - triggerStart closed)
                               * pt_targetProgress pt)])
  /\ (isClosingFromScroll scrolling = true
      /\ isClosingFromScroll (step scrolling scrollTweenDone) = false)
  /\ (exists tw rest,
        scrollTweens scrolling = tw :: rest
        /\ scrollY (step scrolling scrollTweenDone) = endScrollY tw).
Proof.
  intros opened recovering closed scrolling.
  destruct scroll_recovery_protocol
    as (Hiff & Hentry & Hflag & Hsteady & Hclear & _ & Htween).
  assert (C1 : 0.5 < lastProgress opened) by (vm_compute; reflexivity).
  assert (C2 : isAnyBookOpen opened = true) by (vm_compute; reflexivity).
  assert (C3 : isClosingFromScroll opened = false)
    by (vm_compute; reflexivity).
  assert (C4 : (isOpen <$> lookupBook opened 0) = Some true)
    by (vm_compute; reflexivity).
  split; [auto|].
  split.
  { assert (C5 : (stateOf <$> lookupBook opened 0) = Some Open)
      by (vm_compute; reflexivity).
    apply (proj2 (Hiff opened 0.5)). split; [exact C1|]. split; [|exact C3].
    destruct (lookupBook opened 0) as [book|] eqn:E; [|discriminate].
    exists 0%nat, book. split; [exact E|]. left. now injection C5. }
  split; [apply (Hentry opened 0.5 C1 C2 C3)|].
  assert (F : isClosingFromScroll recovering = true)
    by (vm_compute; reflexivity).
  split; [exact F|].
  split; [exact (Hflag recovering 0.25 F)|].
  assert (N : ~ (1 < lastProgress fourBooks /\ isAnyBookOpen fourBooks = true))
    by (intros [_ H]; discriminate H).
  split; [split; [reflexivity|exact N]|].
  split; [exact (Hsteady fourBooks 1 eq_refl N)|].
  assert (T : exists pt, positionTransitions closed = [pt])
    by (eexists; vm_compute; reflexivity).
  destruct T as (pt & T).
  split.
  { exists pt. split; [exact T|]. exact (Htween closed pt [] T). }
  assert (G : isClosingFromScroll scrolling = true)
    by (vm_compute; reflexivity).
  assert (G' : isClosingFromScroll (step scrolling scrollTweenDone) = false)
    by (vm_compute; reflexivity).
  split; [auto|].
  exact (proj2 (Hclear scrolling scrollTweenDone G G')).
Defined.

(** ** The properties of the whole machine at concrete scenes *)

Ltac listed :=
  repeat first [apply List.Forall_nil | apply List.Forall_cons];
  simpl; try exact I; try lra.

Lemma clipsHaveLength_fourBooks :
  clipsHaveLength [Some [1]; Some [1]; Some [1]; Some [1]].
Proof. unfold clipsHaveLength. listed. Qed.


Lemma clip_times_witness :
  clipsHaveLength [Some [1]; Some [2]; Some [1]; Some [1]]
  /\ Forall forwardClock closeUnequal
  /\ (length <$> (animationActions
                    <$> lookupBook (run closeUnequal unequalBooks) 1))
     = Some 1%nat
  /\ Forall clipInBounds (clipsOf 1 (run closeUnequal unequalBooks))
  /\ firstClipWithinClickLimit (clipsOf 1 (run closeUnequal unequalBooks)).
Proof.
  assert (Hg : clipsHaveLength [Some [1]; Some [2]; Some [1]; Some [1]])
    by (unfold clipsHaveLength; listed).
  assert (Hes : Forall forwardClock closeUnequal)
    by (unfold closeUnequal; listed).
  assert (Hl : (length <$> (animationActions
                              <$> lookupBook (run closeUnequal unequalBooks) 1))
               = Some 1%nat) by (vm_compute; reflexivity).
  split; [exact Hg|]. split; [exact Hes|]. split; [exact Hl|].
  unfold clipsOf.
  destruct (lookupBook (run closeUnequal unequalBooks) 1) as [book|] eqn:E;
    [|discriminate].
  exact (clip_times_stay_within_their_limits
           [Some [1]; Some [2]; Some [1]; Some [1]] 0 3000 closeUnequal 1
           book Hg Hes E).
Defined.

Lemma hover_witness :
  clipsHaveLength [Some [1]; Some [1]; Some [1]; Some [1]]
  /\ Forall forwardClock hoverBook2
  /\ (isHoverPlaying <$> lookupBook (run hoverBook2 fourBooks) 2) = Some true
  /\ (stateOf <$> lookupBook (run hoverBook2 fourBooks) 2) = Some Closed.
Proof.
  pose proof clipsHaveLength_fourBooks as Hg.
  assert (Hes : Forall forwardClock hoverBook2)
    by (unfold hoverBook2; listed).
  assert (Hh : (isHoverPlaying <$> lookupBook (run hoverBook2 fourBooks) 2)
               = Some true) by (vm_compute; reflexivity).
  split; [exact Hg|]. split; [exact Hes|]. split; [exact Hh|].
  destruct (lookupBook (run hoverBook2 fourBooks) 2) as [book|] eqn:E;
    [|discriminate].
  injection Hh as Hh. simpl. f_equal.
  exact (proj1 (hover_plays_only_on_a_closed_book
                  [Some [1]; Some [1]; Some [1]; Some [1]] 0 3000 hoverBook2
                  2 book Hg Hes E Hh)).
Defined.

Lemma quiet_timeline_witness :
  clipsHaveLength [Some [1]; Some [1]; Some [1]; Some [1]]
  /\ Forall forwardClock openTwoBooks
  /\ (stateOf <$> lookupBook (run openTwoBooks fourBooks) 0) = Some Open
  /\ match lookupBook (run openTwoBooks fourBooks) 0 with
     | Some book => nullTimelineCallback book /\ openTimeline book <> None
     | None => False
     end.
Proof.
  pose proof clipsHaveLength_fourBooks as Hg.
  assert (Hes : Forall forwardClock openTwoBooks)
    by (unfold openTwoBooks; listed).
  assert (Hs : (stateOf <$> lookupBook (run openTwoBooks fourBooks) 0)
               = Some Open) by (vm_compute; reflexivity).
  split; [exact Hg|]. split; [exact Hes|]. split; [exact Hs|].
  destruct (lookupBook (run openTwoBooks fourBooks) 0) as [book|] eqn:E;
    [|discriminate].
  injection Hs as Hs.
  destruct (books_under_click_control_have_a_quiet_timeline
              [Some [1]; Some [1]; Some [1]; Some [1]] 0 3000 openTwoBooks
              0 book Hg Hes E) as [Hc Ht].
  split; [exact Hc|]. apply Ht. rewrite Hs. discriminate.
Defined.

Lemma reverse_complete_witness :
  clipsHaveLength [Some [1]; Some [1]; Some [1]; Some [1]]
  /\ Forall forwardClock reverseWithOneOpen
  /\ promiseState (onReverseComplete 0 (run reverseWithOneOpen fourBooks))
     = promiseState (run reverseWithOneOpen fourBooks).
Proof.
  pose proof clipsHaveLength_fourBooks as Hg.
  assert (Hes : Forall forwardClock reverseWithOneOpen)
    by (unfold reverseWithOneOpen; listed).
  split; [exact Hg|]. split; [exact Hes|].
  exact (proj1 (reverse_complete_calls_nothing_back
                  [Some [1]; Some [1]; Some [1]; Some [1]] 0 3000
                  reverseWithOneOpen 0 Hg Hes)).
Defined.

Lemma slot_witness :
  clipsHaveLength [Some [1]; Some [1]; Some [1]; Some [1]]
  /\ Forall forwardClock openTwoBooks
  /\ length (bookInstances (run openTwoBooks fourBooks)) = books_length
  /\ (index <$> lookupBook (run openTwoBooks fourBooks) 3) = Some 3%nat.
Proof.
  pose proof clipsHaveLength_fourBooks as Hg.
  assert (Hes : Forall forwardClock openTwoBooks)
    by (unfold openTwoBooks; listed).
  split; [exact Hg|]. split; [exact Hes|].
  pose proof (every_book_keeps_its_slot
                [Some [1]; Some [1]; Some [1]; Some [1]] 0 3000 openTwoBooks
                Hg Hes) as H.
  cbv zeta in H. destruct H as [Hl Hi]. split; [exact Hl|].
  assert (Hs : is_Some (lookupBook (run openTwoBooks fourBooks) 3))
    by (vm_compute; eauto).
  destruct Hs as [book E]. rewrite E. simpl. f_equal.
  exact (proj1 (Hi 3%nat book E)).
Defined.

Lemma close_all_again_witness :
  isAnyBookOpen (run openTwoBooks fourBooks) = true
  /\ closeAllOpenBooksWithPromise
       (fst (closeAllOpenBooksWithPromise (run openTwoBooks fourBooks)))
     = closeAllOpenBooksWithPromise (run openTwoBooks fourBooks).
Proof.
  assert (H : isAnyBookOpen (run openTwoBooks fourBooks) = true)
    by (vm_compute; reflexivity).
  split; [exact H|].
  apply close_all_again_returns_the_pending_promise. left. exact H.
Defined.


Lemma load_order_witness :
  Permutation loadOrder (seq 0 books_length)
  /\ loadingBooks (fold_left (settle firstLoadFails) loadOrder loadBooks)
     = bookInstances
         (onAllBooksLoaded (map firstLoadFails (seq 0 books_length)) 0 3000)
  /\ allBooksLoadedCalls (fold_left (settle firstLoadFails) loadOrder loadBooks)
     = 1%nat.
Proof.
  assert (Hp : Permutation loadOrder (seq 0 books_length)).
  { change (seq 0 books_length) with [0; 1; 2; 3]%nat. unfold loadOrder.
    transitivity [0; 2; 3; 1]%nat; [apply perm_swap|].
    apply perm_skip. apply (Permutation_app_comm [2; 3]%nat [1%nat]). }
  split; [exact Hp|].
  destruct (books_load_in_any_order firstLoadFails loadOrder 0 3000 Hp)
    as (Hb & Hc & _).
  split; [exact Hb|exact Hc].
Defined.

Lemma pointer_witness :
  (0 < width viewport /\ 0 < height viewport)
  /\ (0 <= 400 <= width viewport /\ 0 <= 150 <= height viewport)
  /\ (-1 <= fst (mouse viewport 400 150) <= 1
      /\ -1 <= snd (mouse viewport 400 150) <= 1).
Proof.
  assert (Hw : 0 < width viewport) by (simpl; lra).
  assert (Hh : 0 < height viewport) by (simpl; lra).
  assert (Hx : 0 <= 400 <= width viewport) by (simpl; lra).
  assert (Hy : 0 <= 150 <= height viewport) by (simpl; lra).
  split; [split; assumption|]. split; [split; assumption|].
  exact (proj1 (pointer_is_mapped_into_the_device_square
                  viewport 400 150 Hw Hh Hx Hy)).
Defined.

Lemma aggregate_close_witness :
  (resolved <$> promises (run oneBookClosed fourBooks) !! 0%nat) = Some true
  /\ ((fun pr => (openCount pr <=? closedCount pr)%nat)
        <$> promises (run oneBookClosed fourBooks) !! 0%nat) = Some true.
Proof.
  assert (Hr : (resolved <$> promises (run oneBookClosed fourBooks) !! 0%nat)
               = Some true) by (vm_compute; reflexivity).
  split; [exact Hr|].
  destruct (promises (run oneBookClosed fourBooks) !! 0%nat) as [pr|] eqn:E;
    [|discriminate].
  injection Hr as Hr. simpl. f_equal. apply Nat.leb_le.
  exact (aggregate_close_resolves_only_after_its_count
           [Some [1]; Some [1]; Some [1]; Some [1]] 0 3000 oneBookClosed
           0 pr E Hr).
Defined.

Lemma promises_advance_witness :
  (openCount <$> promises (run reverseWithTwoOpen fourBooks) !! 0%nat)
  = Some 2%nat
  /\ exists pr',
       promises (run [frame 1] (run reverseWithTwoOpen fourBooks)) !! 0%nat
       = Some pr'
       /\ openCount pr' = 2%nat.
Proof.
  assert (Ho : (openCount
                  <$> promises (run reverseWithTwoOpen fourBooks) !! 0%nat)
               = Some 2%nat) by (vm_compute; reflexivity).
  split; [exact Ho|].
  destruct (promises (run reverseWithTwoOpen fourBooks) !! 0%nat)
    as [pr|] eqn:E; [|discriminate].
  injection Ho as Ho.
  destruct (promises_only_advance [frame 1]
              (run reverseWithTwoOpen fourBooks) 0 pr E)
    as (pr' & H' & Hoc & _).
  exists pr'. split; [exact H'|congruence].
Defined.

Lemma scroll_trigger_witness :
  scrollEnabled (run reverseWithOneOpen fourBooks) = false
  /\ isClosingFromScroll (run reverseWithOneOpen fourBooks) = true
  /\ (recoveriesInFlight (run reverseWithOneOpen fourBooks) <= 1)%nat.
Proof.
  pose proof (scroll_trigger_is_disabled_only_during_a_recovery
                [Some [1]; Some [1]; Some [1]; Some [1]] 0 3000
                reverseWithOneOpen) as H.
  cbv zeta in H. destruct H as (A & C & _).
  assert (He : scrollEnabled (run reverseWithOneOpen fourBooks) = false)
    by (vm_compute; reflexivity).
  split; [exact He|]. split; [exact (proj1 (A He))|exact C].
Defined.

